(** * Jackettio (Android fork): request pipeline and service lifecycle

    A shallow embedding of [src/index.js]: the rate limiter it configures,
    the middleware chain with the manifest, stream-listing and download
    routes (as Express 4 runs them), the redaction helper [cut], and the
    shutdown paths ([closeGracefully] and the uncaught exception capture
    callback); and of the set-up script.

    JavaScript numbers that hold counters and millisecond clocks are [Z];
    strings are [string] (bytes; the strings cut by the code are URL parts,
    which the URL parser leaves in ASCII); plain objects whose key order
    shows in the JSON output are association lists; the rate limiter's
    key -> entry map and the headers of a response are [gmap]s. *)

From Stdlib Require Import ZArith List String Ascii Bool Lia.
From stdpp Require Import base option gmap strings list pretty.

#[local] Set Warnings "-register-all".
Local Open Scope string_scope.
Local Open Scope list_scope.
Local Open Scope Z_scope.

(** ** JavaScript values used by the handlers *)

Module Js.

(** JSON-serialisable values: what [res.json] / [res.send] are given. *)
Inductive Json : Type :=
| JNull
| JBool (b : bool)
| JNum (z : Z)
| JStr (s : string)
| JArr (items : list Json)
| JObj (fields : list (string * Json)).

(** A thrown value whose properties can be read, as far as the code looks
    at it: [err.message] is a string, or [undefined] for a value without
    that property.  Such are the objects (errors) that the platform and
    the libraries throw, and any other value but [undefined] and
    [null]. *)
Record Thrown : Type := mkThrown {
  err_name : string;
  err_message : option string
}.

(** Whatever a [catch] clause or the rejection of a promise can hand over:
    a value whose properties can be read, or [undefined] or [null], on
    which reading any property throws a [TypeError]. *)
Inductive Caught : Type :=
| Value (e : Thrown)
| Undefined
| Null.

(** Result of a call that may throw values of type [E]. *)
Inductive Result (E A : Type) : Type :=
| Returns (a : A)
| Throws (e : E).
Arguments Returns {E A} a.
Arguments Throws {E A} e.

(** A call of the platform or of a library, which throws error objects. *)
Definition Completion : Type -> Type := Result Thrown.

(** A promise of the modules of [./lib], as [await] sees it: their code is
    not part of [index.js] and may reject with any value. *)
Definition Settled : Type -> Type := Result Caught.

(** [TypeError: Cannot read properties of undefined (reading 'p')]. *)
Definition TypeError_undefined (p : string) : Thrown :=
  mkThrown "TypeError"
    (Some ("Cannot read properties of undefined (reading '" +:+ p +:+ "')")).

(** [TypeError: Cannot read properties of null (reading 'p')]. *)
Definition TypeError_null (p : string) : Thrown :=
  mkThrown "TypeError"
    (Some ("Cannot read properties of null (reading '" +:+ p +:+ "')")).

(** [URIError: Failed to decode param 'p'], thrown by the router of
    Express when the value of a path parameter is not valid
    percent-encoding. *)
Definition URIError_param (p : string) : Thrown :=
  mkThrown "URIError" (Some ("Failed to decode param '" +:+ p +:+ "'")).

(** Truthiness of a string: only the empty string is falsy. *)
Definition truthy (s : string) : bool :=
  match s with EmptyString => false | String _ _ => true end.

(** [a || b] where [a] may be [undefined]. *)
Definition or_else (a : option string) (b : string) : string :=
  match a with
  | Some s => if truthy s then s else b
  | None => b
  end.

(** [value.substr(0, n)]. *)
Definition substr_head (n : nat) (value : string) : string :=
  String.substring 0 n value.

(** [value.substr(-n)]: the start index is [max(length - n, 0)]. *)
Definition substr_tail (n : nat) (value : string) : string :=
  let len := String.length value in
  String.substring (len - n) n value.

(** [Math.ceil(a / b)] for integers [a] and [b > 0]. *)
Definition ceil_div (a b : Z) : Z := - ((- a) / b).

(** [s.toLowerCase()] for a string of ASCII characters, which the names of
    HTTP headers and media types are. *)
Definition lower (c : ascii) : ascii :=
  let n := nat_of_ascii c in
  if (65 <=? n)%nat && (n <=? 90)%nat then ascii_of_nat (n + 32) else c.

Fixpoint toLowerCase (s : string) : string :=
  match s with
  | EmptyString => EmptyString
  | String c rest => String (lower c) (toLowerCase rest)
  end.

End Js.
Import Js.

(** ** The rate limiter (lines 68-86)

    [rateLimit({windowMs, max, keyGenerator, handler})] of express-rate-limit
    with its default in-memory store.  The store keeps one entry per key:
    a hit counter and the time its window ends.  An entry whose window has
    ended is reset by the next hit (the store's periodic sweep only drops
    entries that the next hit would reset anyway, so it is not modelled).
    The RateLimit response headers the middleware adds are left out. *)

Module RateLimit.

Record Client : Type := mkClient {
  totalHits : Z;
  resetTime : Z
}.

Record Options : Type := mkOptions {
  windowMs : Z;             (* config.rateLimitWindow * 1000 *)
  limit : Z;                (* max: config.rateLimitRequest *)
  statusCode : Z;           (* library default: 429 *)
  message : string          (* library default text *)
}.

Definition default_message : string :=
  "Too many requests, please try again later.".

(** The options object built on lines 68-73. *)
Definition options (rateLimitWindow rateLimitRequest : Z) : Options :=
  {| windowMs := rateLimitWindow * 1000;
     limit := rateLimitRequest;
     statusCode := 429;
     message := default_message |}.

(** [req.rateLimit], set by the middleware on every counted request. *)
Record Info : Type := mkInfo {
  info_limit : Z;
  info_used : Z;
  info_remaining : Z;
  info_resetTime : Z
}.

Definition resetClient (opts : Options) (now : Z) : Client :=
  {| totalHits := 0; resetTime := now + windowMs opts |}.

Definition getClient (opts : Options) (now : Z) (key : string)
    (store : gmap string Client) : Client :=
  match store !! key with
  | Some client => client
  | None => resetClient opts now
  end.

(** [store.increment(key)] at clock reading [now]. *)
Definition increment (opts : Options) (now : Z) (key : string)
    (store : gmap string Client) : gmap string Client * Client :=
  let client := getClient opts now key store in
  let client := if resetTime client <=? now then resetClient opts now
                else client in
  let client := {| totalHits := totalHits client + 1;
                   resetTime := resetTime client |} in
  (<[key := client]> store, client).

Inductive Verdict : Type :=
| Next                      (* [next()]: the request goes on *)
| Limited (info : Info).    (* [options.handler] is called *)

(** One pass of the middleware for a request whose generated key is [key]:
    count the hit, publish [req.rateLimit], and call the handler when the
    counter exceeds the limit. *)
Definition pass (opts : Options) (now : Z) (key : string)
    (store : gmap string Client) : gmap string Client * Info * Verdict :=
  let '(store', client) := increment opts now key store in
  let info := {| info_limit := limit opts;
                 info_used := totalHits client;
                 info_remaining := Z.max (limit opts - totalHits client) 0;
                 info_resetTime := resetTime client |} in
  (store', info,
   if limit opts <? totalHits client then Limited info else Next).

(** Hits already counted for [key] in the window that contains [now]. *)
Definition live_hits (now : Z) (key : string)
    (store : gmap string Client) : Z :=
  match store !! key with
  | Some client => if resetTime client <=? now then 0 else totalHits client
  | None => 0
  end.

(** The end of the window in which a hit at [now] is counted. *)
Definition window_end (opts : Options) (now : Z) (key : string)
    (store : gmap string Client) : Z :=
  match store !! key with
  | Some client =>
      if resetTime client <=? now then now + windowMs opts
      else resetTime client
  | None => now + windowMs opts
  end.

(** The store after a hit at [now] was counted under [key]. *)
Definition counted (opts : Options) (now : Z) (key : string)
    (store : gmap string Client) : gmap string Client :=
  <[key := {| totalHits := live_hits now key store + 1;
              resetTime := window_end opts now key store |}]> store.

Definition admitted (v : Verdict) : bool :=
  match v with Next => true | Limited _ => false end.

(** Successive passes under one key, at the given clock readings. *)
Fixpoint passes (opts : Options) (key : string) (times : list Z)
    (store : gmap string Client) : gmap string Client * list Verdict :=
  match times with
  | [] => (store, [])
  | now :: later =>
      let '(store1, _, v) := pass opts now key store in
      let '(store2, vs) := passes opts key later store1 in
      (store2, v :: vs)
  end.

End RateLimit.

(** ** Requests, responses and the process state seen by the handlers *)

Module Http.

Inductive Body : Type :=
| NoBody
| JsonBody (j : Json)        (* [res.json(v)], or [res.send(v)] for an object *)
| TextBody (s : string).     (* [res.send(s)] for a string *)

(** The [res] object: status (200 until set), the headers, the body handed
    to [res.send] or [res.json] (which Express leaves off the wire when
    the method is HEAD), and whether the response has been sent.  Node
    keeps the headers of a response under their names in lower case, one
    value per name: [res_headers] is that map.  It holds the headers that
    the code of [index.js] sets, with Content-Type and Location; those
    that Express and the limiter add on their own (X-Powered-By, ETag,
    Content-Length, RateLimit) are left out. *)
Record Response : Type := mkResponse {
  res_status : Z;
  res_headers : gmap string string;
  res_body : Body;
  res_sent : bool
}.

Definition fresh_response : Response :=
  {| res_status := 200; res_headers := ∅; res_body := NoBody;
     res_sent := false |}.

(** What the path of a request matches once the compression and static
    middlewares have passed it on, in the order of registration.  The
    requests to [/icon] and to the configuration page, whose handlers read
    files, have no target here. *)
Inductive Target : Type :=
| TRoot
    (* GET / *)
| TManifest (userConfig : option string)
    (* GET /:userConfig?/manifest.json *)
| TStream (userConfig type id : string)
    (* GET /:userConfig/stream/:type/:id.json *)
| TUnconfiguredStream (type id : string)
    (* GET /stream/:type/:id.json *)
| TDownload (userConfig type id torrentId : string)
    (* any method, /:userConfig/download/:type/:id/:torrentId *)
| TMalformed (route param : string)
    (* the path matches the pattern [route], but the value [param] of one
       of its parameters is not valid percent-encoding *)
| TUnmatched.
    (* no route matches *)

(** A request, as the handlers read it.  The requests considered carry no
    cache validator (If-None-Match, If-Modified-Since), so that [res.send]
    never turns an answer into a 304. *)
Record Request : Type := mkRequest {
  req_method : string;
  req_target : Target;
  req_ip : string;                          (* req.ip *)
  req_cf_connecting_ip : option string;     (* req.get('CF-Connecting-IP') *)
  req_protocol : string;
  req_host : string;                        (* req.get('host') *)
  req_xhr : bool;
  req_clientIp : option string;             (* undefined until line 96 *)
  req_route : option string;                (* req.route.path; req.route is
                                               undefined outside a route *)
  req_rateLimit : option RateLimit.Info
}.

End Http.
Import Http.

(** A stream object as returned by [jackettio.getStreams]: its properties
    in insertion order. *)
Definition Stream : Type := list (string * Json).

(** The "streams" collection of the LokiJS database. *)
Record Collection : Type := mkCollection {
  coll_data : list Stream;
  coll_maxId : Z
}.

Inductive LogEntry : Type :=
| LogLine (text : string)                     (* console.log(text) *)
| LogCaught (id : string) (err : Caught)      (* console.log(id, err) *)
| LogStack (err : Thrown)                     (* console.error(err.stack) *)
| LogUnhandledRejection (reason : Caught).
    (* console.error('Unhandled Rejection at:', promise, 'reason:', reason) *)

(** Everything a request can read or change. *)
Record State : Type := mkState {
  st_store : gmap string RateLimit.Client;   (* the limiter's counters *)
  st_streams : option Collection;            (* db.getCollection("streams") *)
  st_console : list LogEntry;                (* oldest first *)
  st_res : Response
}.

(** The parsed result of [new URL(url)], as far as line 220 reads it. *)
Record URL : Type := mkURL {
  url_protocol : string;
  url_host : string;
  url_pathname : string;
  url_search : string
}.

(** The result of [Object.assign(parsed, {ip})] for a non-null [parsed]:
    the parsed value with its own property [ip] set ([None] is the value
    [undefined]). *)
Record UserConfig : Type := mkUserConfig {
  uc_parsed : Json;
  uc_ip : option string
}.

(** The modules of [./lib], the settings and the platform calls whose code
    is not part of [index.js]; the handlers are defined for any behaviour
    of them. *)
Record Lib : Type := mkLib {
  config_addonName : string;
  config_addonId : string;
  config_addonDescription : string;
  config_rateLimitWindow : Z;
  config_rateLimitRequest : Z;
  (* version of package.json *)
  addon_version : string;
  (* JSON.parse(Buffer.from(blob, 'base64').toString()) *)
  decodeBlob : string -> Completion Json;
  (* await jackettio.getStreams(userConfig, type, id, publicUrl) *)
  getStreams : UserConfig -> string -> string -> string
               -> Settled (list Stream);
  (* await jackettio.getDownload(userConfig, type, id, torrentId) *)
  getDownload : UserConfig -> string -> string -> string
                -> Settled string;
  (* debrid.instance(userConfig).shortName *)
  debrid_shortName : Json -> Settled string;
  (* collection.insert(doc): the new collection and the stamped document *)
  insertOne : Collection -> Stream -> Completion (Collection * Stream);
  (* new URL(url) *)
  newURL : string -> Completion URL;
  (* the value that res.redirect(url) gives the Location header: Express
     percent-encodes the URL (encodeUrl) *)
  encodeUrl : string -> string;
  (* debrid.ERROR *)
  ERROR_NOT_READY : string;
  ERROR_EXPIRED_API_KEY : string;
  ERROR_NOT_PREMIUM : string;
  ERROR_ACCESS_DENIED : string;
  ERROR_TWO_FACTOR_AUTH : string
}.

(** ** A state-and-exception monad for handler bodies

    A statement runs in a [State] and either completes with a value or
    throws; the state changes made before a throw stay. *)

Definition M (A : Type) : Type := State -> State * Result Caught A.

Definition ret {A} (a : A) : M A := fun st => (st, Returns a).

Definition throw {A} (e : Caught) : M A := fun st => (st, Throws e).

Definition bind {A B} (m : M A) (k : A -> M B) : M B :=
  fun st =>
    match m st with
    | (st', Returns a) => k a st'
    | (st', Throws e) => (st', Throws e)
    end.

(** [try { body } catch (err) { handler(err) }]. *)
Definition try_catch {A} (body : M A) (handler : Caught -> M A) : M A :=
  fun st =>
    match body st with
    | (st', Returns a) => (st', Returns a)
    | (st', Throws e) => handler e st'
    end.

(** A call of the platform or of a library. *)
Definition lift {A} (c : Completion A) : M A :=
  fun st =>
    match c with
    | Returns a => (st, Returns a)
    | Throws e => (st, Throws (Value e))
    end.

(** [await promise]. *)
Definition await {A} (promise : Settled A) : M A := fun st => (st, promise).

Declare Scope js_scope.
Delimit Scope js_scope with js.
Notation "x <- m ;; k" := (bind m (fun x => k))
  (at level 100, m at next level, right associativity) : js_scope.
Notation "m ;;; k" := (bind m (fun _ => k))
  (at level 100, right associativity) : js_scope.
Local Open Scope js_scope.

Definition modify_res (f : Response -> Response) : M unit :=
  fun st =>
    ({| st_store := st_store st; st_streams := st_streams st;
        st_console := st_console st; st_res := f (st_res st) |},
     Returns tt).

Definition console_log (entry : LogEntry) : M unit :=
  fun st =>
    ({| st_store := st_store st; st_streams := st_streams st;
        st_console := st_console st ++ [entry]; st_res := st_res st |},
     Returns tt).

Definition set_streams (c : option Collection) : M unit :=
  fun st =>
    ({| st_store := st_store st; st_streams := c;
        st_console := st_console st; st_res := st_res st |},
     Returns tt).

(** *** The [res] methods the code calls *)

(** [res.getHeader(name)], also [res.get(name)]: names are looked up
    whatever their case. *)
Definition header (name : string) (r : Response) : option string :=
  res_headers r !! toLowerCase name.

(** [res.setHeader(name, value)]: replaces an earlier value of [name],
    whatever the case it was written in. *)
Definition setHeader (name value : string) : M unit :=
  modify_res (fun r =>
    {| res_status := res_status r;
       res_headers := <[toLowerCase name := value]> (res_headers r);
       res_body := res_body r; res_sent := res_sent r |}).

(** [res.status(code)]. *)
Definition res_set_status (code : Z) : M unit :=
  modify_res (fun r =>
    {| res_status := code; res_headers := res_headers r;
       res_body := res_body r; res_sent := res_sent r |}).

(** [setCharset(type, 'utf-8')] of Express for a media type written
    without parameters, as this application writes them: the type in lower
    case, then the charset. *)
Definition setCharset (type : string) : string :=
  toLowerCase type +:+ "; charset=utf-8".

(** The Content-Type with which [res.send] sends a string: the one already
    set, or else [default], with the charset of the body added. *)
Definition sent_type (default : string) (r : Response) : string :=
  match header "Content-Type" r with
  | Some type => setCharset type
  | None => setCharset default
  end.

(** [res.json(v)], also what [res.send(v)] does for an object: the body is
    the serialisation of [v], sent as a string; the Content-Type is JSON
    unless one is already set. *)
Definition res_json (v : Json) : M unit :=
  modify_res (fun r =>
    {| res_status := res_status r;
       res_headers :=
         <["content-type" := sent_type "application/json" r]> (res_headers r);
       res_body := JsonBody v; res_sent := true |}).

(** [res.send(text)] for a string: HTML unless a Content-Type is already
    set. *)
Definition res_send_text (text : string) : M unit :=
  modify_res (fun r =>
    {| res_status := res_status r;
       res_headers :=
         <["content-type" := sent_type "text/html" r]> (res_headers r);
       res_body := TextBody text; res_sent := true |}).

(** [res.redirect(url)]: status 302 and the Location header (the short
    body Express writes with it is not modelled). *)
Definition res_redirect (lib : Lib) (url : string) : M unit :=
  modify_res (fun r =>
    {| res_status := 302;
       res_headers := <["location" := encodeUrl lib url]> (res_headers r);
       res_body := res_body r; res_sent := true |}).

(** The Location header of a response. *)
Definition location (r : Response) : option string := header "Location" r.

(** ** The application ([index.js]) *)

Definition stream_path : string := "/:userConfig/stream/:type/:id.json".

(** [respond] (lines 60-65). *)
Definition respond (data : Json) : M unit :=
  setHeader "Access-Control-Allow-Origin" "*" ;;;
  setHeader "Access-Control-Allow-Headers" "*" ;;;
  setHeader "Content-Type" "application/json" ;;;
  res_json data.

(** [keyGenerator] (line 73): [req.clientIp || req.ip]. *)
Definition keyGenerator (req : Request) : string :=
  or_else (req_clientIp req) (req_ip req).

(** The title of the synthetic stream (line 79). *)
Definition limited_title (minutes : Z) : string :=
  "🛑 Trop de requêtes, veuillez réessayer dans " +:+ pretty minutes
  +:+ " minute(s).".

(** The body sent to a limited stream-listing request (lines 77-81). *)
Definition limited_streams (lib : Lib) (resetInMs : Z) : Json :=
  JObj [("streams",
         JArr [JObj [("name", JStr (config_addonName lib));
                     ("title", JStr (limited_title (ceil_div resetInMs 60000)));
                     ("url", JStr "#")]])].

(** [handler] (lines 74-85).  [req.route] is only defined while a route is
    being dispatched; reading [.path] of it elsewhere throws.  [later] is
    the reading of [new Date()] on line 76, taken when the handler runs. *)
Definition limiter_handler (lib : Lib) (opts : RateLimit.Options) (later : Z)
    (req : Request) : M unit :=
  match req_route req with
  | None => throw (Value (TypeError_undefined "path"))
  | Some path =>
      if String.eqb path stream_path then
        match req_rateLimit req with
        | None => throw (Value (TypeError_undefined "resetTime"))
        | Some info =>
            let resetInMs := RateLimit.info_resetTime info - later in
            res_json (limited_streams lib resetInMs)
        end
      else
        res_set_status (RateLimit.statusCode opts) ;;;
        res_send_text (RateLimit.message opts)
  end.

Definition limiter_options (lib : Lib) : RateLimit.Options :=
  RateLimit.options (config_rateLimitWindow lib) (config_rateLimitRequest lib).

(** The middleware publishes its count as [req.rateLimit]. *)
Definition set_rateLimit (info : RateLimit.Info) (req : Request) : Request :=
  {| req_method := req_method req; req_target := req_target req;
     req_ip := req_ip req;
     req_cf_connecting_ip := req_cf_connecting_ip req;
     req_protocol := req_protocol req; req_host := req_host req;
     req_xhr := req_xhr req; req_clientIp := req_clientIp req;
     req_route := req_route req; req_rateLimit := Some info |}.

(** The counters of the limiter are part of the process state. *)
Definition set_store (store : gmap string RateLimit.Client) (st : State)
    : State :=
  {| st_store := store; st_streams := st_streams st;
     st_console := st_console st; st_res := st_res st |}.

(** The middleware [limiter] (line 68), whose store reads the clock at
    [now] and whose handler, if it runs, reads it at [later].  [next] is
    the rest of the chain.  What the handler throws is passed to
    [next(err)]: Express takes a value that is not [undefined] or [null]
    to its error middleware, which is [on_error], and otherwise goes on
    with the chain. *)
Definition limiter (lib : Lib) (now later : Z) (req : Request)
    (next : Request -> M unit) (on_error : Thrown -> M unit) : M unit :=
  fun st =>
    let opts := limiter_options lib in
    let '(store', info, verdict) :=
      RateLimit.pass opts now (keyGenerator req) (st_store st) in
    let st' := set_store store' st in
    let req' := set_rateLimit info req in
    match verdict with
    | RateLimit.Next => next req' st'
    | RateLimit.Limited _ =>
        try_catch (limiter_handler lib opts later req')
          (fun err =>
             match err with
             | Value e => on_error e
             | Undefined | Null => next req'
             end) st'
    end.

(** The middleware of lines 95-101. *)
Definition set_clientIp (req : Request) : Request :=
  let clientIp :=
    match req_cf_connecting_ip req with
    | Some h => if truthy h then h else req_ip req
    | None => req_ip req
    end in
  {| req_method := req_method req; req_target := req_target req;
     req_ip := req_ip req;
     req_cf_connecting_ip := req_cf_connecting_ip req;
     req_protocol := req_protocol req; req_host := req_host req;
     req_xhr := req_xhr req; req_clientIp := Some clientIp;
     req_route := req_route req; req_rateLimit := req_rateLimit req |}.

(** Entering a route sets [req.route]. *)
Definition set_route (path : string) (req : Request) : Request :=
  {| req_method := req_method req; req_target := req_target req;
     req_ip := req_ip req;
     req_cf_connecting_ip := req_cf_connecting_ip req;
     req_protocol := req_protocol req; req_host := req_host req;
     req_xhr := req_xhr req; req_clientIp := req_clientIp req;
     req_route := Some path; req_rateLimit := req_rateLimit req |}.

(** [Object.assign(parsed, {ip: req.clientIp})]. *)
Definition Object_assign_ip (parsed : Json) (ip : option string)
    : M UserConfig :=
  match parsed with
  | JNull =>
      throw (Value (mkThrown "TypeError"
                      (Some "Cannot convert undefined or null to object")))
  | _ => ret {| uc_parsed := parsed; uc_ip := ip |}
  end.

(** [databaseInitialize] (lines 48-54), the callback of the database's
    autoload: until it has run, the database has no "streams" collection. *)
Definition databaseInitialize : M unit :=
  fun st =>
    (match st_streams st with
     | None => set_streams (Some {| coll_data := []; coll_maxId := 0 |})
     | Some _ => ret tt
     end ;;;
     console_log (LogLine "Base de données initialisée.")) st.

(** [streamsCollection.insert(stream)] on the collection fetched on line
    185, which is [null] when the database has no "streams" collection. *)
Definition collection_insert (lib : Lib) (doc : Stream) : M Stream :=
  fun st =>
    match st_streams st with
    | None => (st, Throws (Value (TypeError_null "insert")))
    | Some coll =>
        match insertOne lib coll doc with
        | Returns (coll', doc') =>
            ({| st_store := st_store st; st_streams := Some coll';
                st_console := st_console st; st_res := st_res st |},
             Returns doc')
        | Throws e => (st, Throws (Value e))
        end
    end.

(** [streams.forEach(stream => streamsCollection.insert(stream))]: the
    documents are stamped in place, so the array sent afterwards holds the
    stamped objects. *)
Fixpoint insert_each (lib : Lib) (streams : list Stream) : M (list Stream) :=
  match streams with
  | [] => ret []
  | stream :: rest =>
      stamped <- collection_insert lib stream ;;
      rest' <- insert_each lib rest ;;
      ret (stamped :: rest')
  end.

Definition streams_body (streams : list Stream) : Json :=
  JObj [("streams", JArr (map JObj streams))].

(** The stream-listing handler (lines 174-195, after the route's limiter). *)
Definition stream_handler (lib : Lib) (req : Request)
    (userConfig type id : string) : M unit :=
  try_catch
    (parsed <- lift (decodeBlob lib userConfig) ;;
     uc <- Object_assign_ip parsed (req_clientIp req) ;;
     streams <- await (getStreams lib uc type id
                         (req_protocol req +:+ "://" +:+ req_host req)) ;;
     stamped <- insert_each lib streams ;;
     respond (streams_body stamped))
    (fun err =>
       console_log (LogCaught id err) ;;;
       respond (streams_body [])).

(** [cut] (line 219). *)
Definition cut (value : string) : string :=
  if truthy value
  then substr_head 5 value +:+ "******" +:+ substr_tail 5 value
  else "".

(** The line logged before a successful redirect (line 220). *)
Definition redirect_log (id : string) (parsed : URL) : string :=
  id +:+ " : Redirect: " +:+ url_protocol parsed +:+ "//" +:+ url_host parsed
  +:+ cut (url_pathname parsed) +:+ cut (url_search parsed).

(** The [switch] of lines 226-244 for a value whose [message] can be read:
    the first matching case wins. *)
Definition error_video (lib : Lib) (err : Thrown) : string :=
  match err_message err with
  | Some m =>
      if String.eqb m (ERROR_NOT_READY lib) then "/videos/not_ready.mp4"
      else if String.eqb m (ERROR_EXPIRED_API_KEY lib)
           then "/videos/expired_api_key.mp4"
      else if String.eqb m (ERROR_NOT_PREMIUM lib)
           then "/videos/not_premium.mp4"
      else if String.eqb m (ERROR_ACCESS_DENIED lib)
           then "/videos/access_denied.mp4"
      else if String.eqb m (ERROR_TWO_FACTOR_AUTH lib)
           then "/videos/two_factor_auth.mp4"
      else "/videos/error.mp4"
  | None => "/videos/error.mp4"
  end.

(** The [try] block of the download handler (lines 211-222). *)
Definition download_try (lib : Lib) (req : Request)
    (userConfig type id torrentId : string) : M unit :=
  parsed <- lift (decodeBlob lib userConfig) ;;
  uc <- Object_assign_ip parsed (req_clientIp req) ;;
  url <- await (getDownload lib uc type id torrentId) ;;
  parsedUrl <- lift (newURL lib url) ;;
  console_log (LogLine (redirect_log id parsedUrl)) ;;;
  res_redirect lib url.

(** The [catch] block of the download handler (lines 223-245): reading
    [err.message] throws when [err] is [undefined] or [null]. *)
Definition download_catch (lib : Lib) (id : string) (err : Caught) : M unit :=
  console_log (LogCaught id err) ;;;
  match err with
  | Value e => res_redirect lib (error_video lib e)
  | Undefined => throw (Value (TypeError_undefined "message"))
  | Null => throw (Value (TypeError_null "message"))
  end.

(** The download handler (lines 205-246); [next] is the rest of the chain. *)
Definition download_handler (lib : Lib) (req : Request)
    (userConfig type id torrentId : string) (next : M unit) : M unit :=
  if negb (String.eqb (req_method req) "GET")
     && negb (String.eqb (req_method req) "HEAD")
  then next
  else
    try_catch (download_try lib req userConfig type id torrentId)
      (download_catch lib id).

(** The 404 middleware (lines 249-255). *)
Definition not_found (req : Request) : M unit :=
  if req_xhr req
  then res_set_status 404 ;;; res_json (JObj [("error", JStr "Page not found!")])
  else res_set_status 404 ;;; res_send_text "Page not found!".

(** The error middleware (lines 257-264). *)
Definition error_middleware (req : Request) (err : Thrown) : M unit :=
  console_log (LogStack err) ;;;
  if req_xhr req
  then res_set_status 500 ;;; res_json (JObj [("error", JStr "Something broke!")])
  else res_set_status 500 ;;; res_send_text "Something broke!".

(** The manifest object of lines 154-165, with [name] in its place. *)
Definition manifest_json (lib : Lib) (req : Request) (name : string) : Json :=
  JObj [("id", JStr (config_addonId lib));
        ("version", JStr (addon_version lib));
        ("name", JStr name);
        ("description", JStr (config_addonDescription lib));
        ("icon", JStr (req_protocol req +:+ "://" +:+ req_host req +:+ "/icon"));
        ("resources", JArr [JStr "stream"]);
        ("types", JArr [JStr "movie"; JStr "series"]);
        ("idPrefixes", JArr [JStr "tt"]);
        ("catalogs", JArr []);
        ("behaviorHints", JObj [("configurable", JBool true)])].

(** The manifest handler (lines 153-172); [userConfig] is
    [req.params.userConfig], absent when the path has no such segment.
    Nothing in it catches an exception. *)
Definition manifest (lib : Lib) (req : Request) (userConfig : option string)
    : M unit :=
  name <- match userConfig with
          | Some blob =>
              if truthy blob then
                parsed <- lift (decodeBlob lib blob) ;;
                shortName <- await (debrid_shortName lib parsed) ;;
                ret (config_addonName lib +:+ " " +:+ shortName)
              else ret (config_addonName lib)
          | None => ret (config_addonName lib)
          end ;;
  respond (manifest_json lib req name).

(** The stream route of an addon that is not configured (lines 197-203). *)
Definition unconfigured_stream (lib : Lib) : M unit :=
  respond
    (JObj [("streams",
            JArr [JObj [("name", JStr (config_addonName lib));
                        ("title",
                         JStr "ℹ Kindly configure this addon to access streams.");
                        ("url", JStr "#")]])]).

(** The ['unhandledRejection'] listener (lines 333-335). *)
Definition unhandled_rejection (reason : Caught) : M unit :=
  console_log (LogUnhandledRejection reason).

(** An [async] handler as Express (version 4) calls it: nobody looks at
    the promise it returns.  When the handler throws, that promise is
    rejected and nothing handles it, so the ['unhandledRejection']
    listener logs the reason; the request stays as the handler left it. *)
Definition async (handler : M unit) : M unit :=
  try_catch handler unhandled_rejection.

(** The stream-listing route as registered on line 174: the route-level
    [limiter], then the handler. *)
Definition stream_route (lib : Lib) (now later : Z) (req : Request)
    (userConfig type id : string) : M unit :=
  limiter lib now later (set_route stream_path req)
    (fun req' => async (stream_handler lib req' userConfig type id))
    (error_middleware req).

(** The routes in the order of their registration (lines 107-246), then
    the 404 middleware.  A path parameter that cannot be decoded makes the
    router fail before any handler runs, and the error goes to the error
    middleware. *)
Definition dispatch (lib : Lib) (t2 t3 : Z) (req : Request) : M unit :=
  match req_target req with
  | TRoot => res_redirect lib "/configure"
  | TManifest userConfig => async (manifest lib req userConfig)
  | TStream userConfig type id => stream_route lib t2 t3 req userConfig type id
  | TUnconfiguredStream _ _ => async (unconfigured_stream lib)
  | TDownload userConfig type id torrentId =>
      async (download_handler lib req userConfig type id torrentId
               (not_found req))
  | TMalformed _ param => error_middleware req (URIError_param param)
  | TUnmatched => not_found req
  end.

(** The middleware chain for one request: the global [limiter] (line 89),
    whose store reads the clock at [t1], the client-IP middleware, then
    the matching route; the pass of the stream-listing route's own limiter
    reads the clock at [t2].  [t3] is the reading of the limiter's handler,
    which runs at most once for a request.  The compression and static
    middlewares hand the requests considered here on unchanged. *)
Definition app (lib : Lib) (t1 t2 t3 : Z) (req : Request) : M unit :=
  limiter lib t1 t3 req
    (fun req1 => dispatch lib t2 t3 (set_clientIp req1))
    (error_middleware req).

(** A state in which a new request finds the process: same counters,
    database and console, and a response nobody wrote to yet. *)
Definition begin_request (st : State) : State :=
  {| st_store := st_store st; st_streams := st_streams st;
     st_console := st_console st; st_res := fresh_response |}.

(** Serving a request received from the network ([clientIp], [route] and
    [rateLimit] not set yet). *)
Definition incoming (method : string) (target : Target) (ip : string)
    (cf : option string) : Request :=
  {| req_method := method; req_target := target; req_ip := ip;
     req_cf_connecting_ip := cf; req_protocol := "http";
     req_host := "localhost"; req_xhr := false; req_clientIp := None;
     req_route := None; req_rateLimit := None |}.

Definition serve (lib : Lib) (t1 t2 t3 : Z) (req : Request) (st : State)
    : State * Result Caught unit :=
  app lib t1 t2 t3 req (begin_request st).

(** ** The keys of the user configuration *)

(** The last field named [k], as [JSON.parse] keeps the last duplicate. *)
Definition lookup_field (k : string) (fields : list (string * Json))
    : option Json :=
  snd <$> find (fun f => String.eqb (fst f) k) (rev fields).

(** The own properties of the object handed to [getStreams] /
    [getDownload] (lines 176-178 and 212) as a finite map: [ip] is the one
    set by [Object.assign], every other property is the one of the parsed
    blob. *)
Definition uc_props (uc : UserConfig) : gmap string Json :=
  let parsed : gmap string Json :=
    match uc_parsed uc with
    | JObj fields => list_to_map (rev fields)
    | _ => ∅
    end in
  match uc_ip uc with
  | Some ip => <["ip" := JStr ip]> parsed
  | None => delete "ip" parsed
  end.

(** The two settings of [lib/config.js] that govern client overrides. *)
Record ServerConfig : Type := mkServerConfig {
  immulatableUserConfigKeys : list string;
  defaultUserConfig : gmap string Json
}.

(** Modelled from the spec: the immutable-key rule of the UserConfig codec
    (sections 3 and 4.1), which the code applies inside [lib/jackettio.js],
    a file that is not among the sources.  The immutable keys are silently
    restored to the server defaults: the client-supplied values of those
    keys are dropped and the server's values for them put in their place;
    the other keys stay as the client gave them. *)
Definition restoreImmutableKeys (server : ServerConfig)
    (props : gmap string Json) : gmap string Json :=
  filter (fun kv => kv.1 ∉ immulatableUserConfigKeys server) props
  ∪ filter (fun kv => kv.1 ∈ immulatableUserConfigKeys server)
      (defaultUserConfig server).

(** The effective configuration of a stream-listing request: built by the
    route (lines 176-178), then put through the immutable-key rule. *)
Definition effectiveUserConfig (lib : Lib) (server : ServerConfig)
    (req : Request) (blob : string) : M (gmap string Json) :=
  parsed <- lift (decodeBlob lib blob) ;;
  uc <- Object_assign_ip parsed (req_clientIp req) ;;
  ret (restoreImmutableKeys server (uc_props uc)).

(** ** Sample collaborators

    One concrete choice of the external modules, used to run the handlers
    on concrete requests. *)

Module Sample.

(** An insert in the manner of LokiJS: a document that already carries
    [$loki] is refused; otherwise it is stamped with [meta] and the next
    [$loki] id and appended. *)
Definition has_property (k : string) (doc : Stream) : bool :=
  existsb (fun f => String.eqb (fst f) k) doc.

Definition loki_insert (coll : Collection) (doc : Stream)
    : Completion (Collection * Stream) :=
  if has_property "$loki" doc
  then Throws (mkThrown "Error"
                 (Some "Document is already in collection, please use update()"))
  else
    let newId := coll_maxId coll + 1 in
    let doc1 :=
      if has_property "meta" doc then doc
      else doc ++ [("meta", JObj [("revision", JNum 0); ("created", JNum 0)])] in
    let doc2 := doc1 ++ [("$loki", JNum newId)] in
    Returns ({| coll_data := coll_data coll ++ [doc2]; coll_maxId := newId |},
             doc2).

Definition stream1 : Stream :=
  [("name", JStr "Jackettio"); ("title", JStr "Movie 1080p");
   ("url", JStr "http://localhost/e30=/download/movie/tt0133093/t1")].

Definition SyntaxError : Thrown :=
  mkThrown "SyntaxError" (Some "Unexpected end of JSON input").

Definition resolved_url : string :=
  "https://cdn.example.org/dl/0123456789abcdef/movie.mkv?token=s3cr3t-value".

Definition resolved_parsed : URL :=
  {| url_protocol := "https:"; url_host := "cdn.example.org";
     url_pathname := "/dl/0123456789abcdef/movie.mkv";
     url_search := "?token=s3cr3t-value" |}.

(** A second URL for the same file: same ends, another session token. *)
Definition other_url : string :=
  "https://cdn.example.org/dl/0fedcba9876543210/movie.mkv?token=0th3r-value".

Definition other_parsed : URL :=
  {| url_protocol := "https:"; url_host := "cdn.example.org";
     url_pathname := "/dl/0fedcba9876543210/movie.mkv";
     url_search := "?token=0th3r-value" |}.

(** A percent-encoding that leaves every character but the space alone. *)
Fixpoint percent_encode (url : string) : string :=
  match url with
  | EmptyString => EmptyString
  | String c rest =>
      if Ascii.eqb c " " then "%20" +:+ percent_encode rest
      else String c (percent_encode rest)
  end.

(** [e30=] is the base64 of [{}] and [eyJtYXhUb3JyZW50cyI6MTAwfQ==] that
    of [{"maxTorrents":100}]; the only provider is the one that [{}]
    names.  Torrent ["t1"] resolves to [url], ["t2"] is not ready, for
    ["t3"] the provider rejects with [undefined], any other fails without
    a classified message. *)
Definition lib_resolving (rateLimitRequest : Z) (url : string) (parsed : URL)
    : Lib :=
  {| config_addonName := "Jackettio";
     config_addonId := "community.stremio.jackettio";
     config_addonDescription := "Stremio addon";
     config_rateLimitWindow := 3600;
     config_rateLimitRequest := rateLimitRequest;
     addon_version := "1.7.0";
     decodeBlob := fun blob =>
       if String.eqb blob "e30=" then Returns (JObj [])
       else if String.eqb blob "eyJtYXhUb3JyZW50cyI6MTAwfQ=="
            then Returns (JObj [("maxTorrents", JNum 100)])
       else Throws SyntaxError;
     getStreams := fun _ _ _ _ => Returns [stream1];
     getDownload := fun _ _ _ torrentId =>
       if String.eqb torrentId "t1" then Returns url
       else if String.eqb torrentId "t2"
            then Throws (Value (mkThrown "Error" (Some "Not ready")))
       else if String.eqb torrentId "t3" then Throws Undefined
       else Throws (Value (mkThrown "Error" (Some "connect ETIMEDOUT")));
     debrid_shortName := fun config =>
       match config with
       | JObj [] => Returns "RD"
       | _ => Throws (Value (mkThrown "Error" (Some "Debrid service not found")))
       end;
     insertOne := loki_insert;
     newURL := fun u =>
       if String.eqb u url then Returns parsed
       else Throws (mkThrown "TypeError" (Some "Invalid URL"));
     encodeUrl := percent_encode;
     ERROR_NOT_READY := "Not ready";
     ERROR_EXPIRED_API_KEY := "Expired API key";
     ERROR_NOT_PREMIUM := "Not premium";
     ERROR_ACCESS_DENIED := "Access denied";
     ERROR_TWO_FACTOR_AUTH := "Two factor auth" |}.

Definition lib (rateLimitRequest : Z) : Lib :=
  lib_resolving rateLimitRequest resolved_url resolved_parsed.

(** A freshly started process: no counters, an empty "streams" collection,
    nothing logged. *)
Definition state0 : State :=
  {| st_store := ∅;
     st_streams := Some {| coll_data := []; coll_maxId := 0 |};
     st_console := [];
     st_res := fresh_response |}.

(** The same process before the database has its collection. *)
Definition state_no_collection : State :=
  {| st_store := ∅; st_streams := None; st_console := [];
     st_res := fresh_response |}.

(** A server that fixes [maxTorrents]. *)
Definition server : ServerConfig :=
  {| immulatableUserConfigKeys := ["maxTorrents"];
     defaultUserConfig :=
       {["maxTorrents" := JNum 8; "sortCached" := JStr "quality"]} |}.

Definition stream_request (ip : string) (cf : option string) : Request :=
  incoming "GET" (TStream "e30=" "movie" "tt0133093") ip cf.

Definition download_request (torrentId : string) : Request :=
  incoming "GET" (TDownload "e30=" "movie" "tt0133093" torrentId)
    "10.0.0.1" None.

(** A request for [/manifest.json]. *)
Definition other_request (ip : string) : Request :=
  incoming "GET" (TManifest None) ip None.

End Sample.

(** ** Start-up and shutdown (lines 297-320, 329-335, 360-366) *)

Module Lifecycle.

Inductive Job : Type := CleanTorrentFolder | VacuumCache | CleanCache.

Inductive SignalName : Type := SIGINT | SIGTERM.

Definition signal_text (s : SignalName) : string :=
  match s with SIGINT => "SIGINT" | SIGTERM => "SIGTERM" end.

(** What the process does. *)
Inductive Call : Type :=
| ConsoleLog (text : string)
| ClearInterval (job : Job)
| SaveDatabase                 (* db.saveDatabase(callback) *)
| ServerClose                  (* server.close(callback) *)
| Exit (code : Z).             (* process.exit(code) *)

(** What happens to the process. *)
Inductive Event : Type :=
| Signal (s : SignalName)
| UncaughtException            (* an exception nobody caught *)
| UnhandledRejection           (* a rejected promise nobody handled *)
| DatabaseSaved                (* the oldest pending save has finished and
                                  its callback runs (the code does not look
                                  at the error argument) *)
| ListenerClosed.              (* the listener has closed *)

Inductive Item : Type :=
| Got (e : Event)
| Did (c : Call).

(** The callbacks given to [db.saveDatabase]. *)
Inductive SaveCallback : Type :=
| ThenCloseServer              (* lines 310-316 *)
| ThenExit1.                   (* lines 362-365 *)

Record Process : Type := mkProcess {
  intervals : list Job;              (* the array filled on lines 297-305 *)
  active : list Job;                 (* timers still running *)
  listening : bool;                  (* the server accepts connections *)
  save_callbacks : list SaveCallback;  (* saves in progress, oldest first *)
  close_callbacks : nat;             (* callbacks waiting for the listener *)
  exited : option Z;
  trace : list Item                  (* oldest first *)
}.

Definition Job_eqb (a b : Job) : bool :=
  match a, b with
  | CleanTorrentFolder, CleanTorrentFolder => true
  | VacuumCache, VacuumCache => true
  | CleanCache, CleanCache => true
  | _, _ => false
  end.

(** The process once the listen callback has run (lines 268-321). *)
Definition running : Process :=
  {| intervals := [CleanTorrentFolder; VacuumCache; CleanCache];
     active := [CleanTorrentFolder; VacuumCache; CleanCache];
     listening := true;
     save_callbacks := [];
     close_callbacks := 0;
     exited := None;
     trace := [] |}.

Definition did (calls : list Call) (p : Process) : Process :=
  {| intervals := intervals p; active := active p; listening := listening p;
     save_callbacks := save_callbacks p; close_callbacks := close_callbacks p;
     exited := exited p; trace := trace p ++ map Did calls |}.

(** [closeGracefully] (lines 307-317), up to the call of [saveDatabase]. *)
Definition closeGracefully (signal : SignalName) (p : Process) : Process :=
  let p := did ([ConsoleLog ("Received signal to terminate: "
                             +:+ signal_text signal)]
                ++ map ClearInterval (intervals p)
                ++ [SaveDatabase]) p in
  {| intervals := intervals p;
     active := List.filter (fun j => negb (existsb (Job_eqb j) (intervals p)))
                 (active p);
     listening := listening p;
     save_callbacks := save_callbacks p ++ [ThenCloseServer];
     close_callbacks := close_callbacks p;
     exited := exited p; trace := trace p |}.

(** The capture callback (lines 360-366), up to the call of
    [saveDatabase]. *)
Definition uncaughtExceptionCapture (p : Process) : Process :=
  let p := did [ConsoleLog "Uncaught Exception:"; SaveDatabase] p in
  {| intervals := intervals p; active := active p; listening := listening p;
     save_callbacks := save_callbacks p ++ [ThenExit1];
     close_callbacks := close_callbacks p;
     exited := exited p; trace := trace p |}.

(** The ['unhandledRejection'] listener (lines 333-335). *)
Definition unhandledRejection (p : Process) : Process :=
  did [ConsoleLog "Unhandled Rejection at:"] p.

(** [process.exit(code)]. *)
Definition process_exit (code : Z) (p : Process) : Process :=
  let p := did [Exit code] p in
  {| intervals := intervals p; active := []; listening := false;
     save_callbacks := []; close_callbacks := 0;
     exited := Some code; trace := trace p |}.

(** The callback of a finished save. *)
Definition run_save_callback (cb : SaveCallback) (p : Process) : Process :=
  match cb with
  | ThenCloseServer =>
      let p := did [ConsoleLog "Database saved successfully"; ServerClose] p in
      {| intervals := intervals p; active := active p; listening := false;
         save_callbacks := save_callbacks p;
         close_callbacks := S (close_callbacks p);
         exited := exited p; trace := trace p |}
  | ThenExit1 =>
      process_exit 1
        (did [ConsoleLog "Database saved after uncaught exception"] p)
  end.

(** The callback of [server.close] (lines 312-315). *)
Definition run_close_callback (p : Process) : Process :=
  process_exit 0 (did [ConsoleLog "Server closed"] p).

Definition got (e : Event) (p : Process) : Process :=
  {| intervals := intervals p; active := active p; listening := listening p;
     save_callbacks := save_callbacks p; close_callbacks := close_callbacks p;
     exited := exited p; trace := trace p ++ [Got e] |}.

(** One turn of the event loop.  Nothing runs in a process that has
    exited.  With the capture callback installed (line 360) an uncaught
    exception goes to it and the ['uncaughtException'] listener of line 329
    is not called. *)
Definition step (p : Process) (e : Event) : Process :=
  match exited p with
  | Some _ => p
  | None =>
      match e with
      | Signal s => closeGracefully s (got e p)
      | UncaughtException => uncaughtExceptionCapture (got e p)
      | UnhandledRejection => unhandledRejection (got e p)
      | DatabaseSaved =>
          match save_callbacks p with
          | [] => p
          | cb :: rest =>
              run_save_callback cb
                {| intervals := intervals p; active := active p;
                   listening := listening p; save_callbacks := rest;
                   close_callbacks := close_callbacks p;
                   exited := exited p; trace := trace p ++ [Got e] |}
          end
      | ListenerClosed =>
          match close_callbacks p with
          | O => p
          | S _ => run_close_callback (got e p)
          end
      end
  end.

Definition run (p : Process) (events : list Event) : Process :=
  fold_left step events p.

(** The calls made so far, console output left out. *)
Definition calls (p : Process) : list Call :=
  omap (fun i => match i with
                 | Did (ConsoleLog _) => None
                 | Did c => Some c
                 | Got _ => None
                 end) (trace p).




(** What the capture callback does before the process ends. *)
Definition flush_sequence : list Item :=
  [Did SaveDatabase; Got DatabaseSaved; Did (Exit 1)].

(** The steps of a drain that a mere flush lacks. *)
Definition drain_only (i : Item) : bool :=
  match i with
  | Did (ClearInterval _) | Did ServerClose | Did (Exit 0) => true
  | _ => false
  end.

Definition is_signal (e : Event) : bool :=
  match e with Signal _ => true | _ => false end.


(** What holds as long as no signal has arrived. *)
Definition fault_invariant (p : Process) : Prop :=
  (ThenCloseServer ∉ save_callbacks p)
  /\ close_callbacks p = O
  /\ forallb (fun i => negb (drain_only i)) (trace p) = true
  /\ (exited p = None \/ exited p = Some 1)
  /\ (exited p = None -> active p = intervals p /\ listening p = true)
  /\ (save_callbacks p <> [] -> [Did SaveDatabase] `sublist_of` trace p)
  /\ (exited p = Some 1 -> flush_sequence `sublist_of` trace p).

End Lifecycle.

(** ** The error taxonomy of the download route, as the specification
    lists it *)

Inductive ErrorKind : Type :=
| NOT_READY
| EXPIRED_API_KEY
| NOT_PREMIUM
| ACCESS_DENIED
| TWO_FACTOR_AUTH.

#[global] Instance ErrorKind_eq_dec : EqDecision ErrorKind.
Proof. solve_decision. Defined.

Definition error_kinds : list ErrorKind :=
  [NOT_READY; EXPIRED_API_KEY; NOT_PREMIUM; ACCESS_DENIED; TWO_FACTOR_AUTH].

(** [debrid.ERROR[kind]]. *)
Definition ERROR (lib : Lib) (kind : ErrorKind) : string :=
  match kind with
  | NOT_READY => ERROR_NOT_READY lib
  | EXPIRED_API_KEY => ERROR_EXPIRED_API_KEY lib
  | NOT_PREMIUM => ERROR_NOT_PREMIUM lib
  | ACCESS_DENIED => ERROR_ACCESS_DENIED lib
  | TWO_FACTOR_AUTH => ERROR_TWO_FACTOR_AUTH lib
  end.

(** The canned video the specification assigns to each kind. *)
Definition spec_video (kind : ErrorKind) : string :=
  match kind with
  | NOT_READY => "/videos/not_ready.mp4"
  | EXPIRED_API_KEY => "/videos/expired_api_key.mp4"
  | NOT_PREMIUM => "/videos/not_premium.mp4"
  | ACCESS_DENIED => "/videos/access_denied.mp4"
  | TWO_FACTOR_AUTH => "/videos/two_factor_auth.mp4"
  end.

(** A download that resolves: the blob decodes to a non-null value, the
    provider returns [url], and [url] parses as [parsed]. *)
Definition resolves (lib : Lib) (req : Request)
    (userConfig type id torrentId : string) (url : string) (parsed : URL)
    : Prop :=
  exists config,
    decodeBlob lib userConfig = Returns config
    /\ config <> JNull
    /\ getDownload lib {| uc_parsed := config; uc_ip := req_clientIp req |}
         type id torrentId = Returns url
    /\ newURL lib url = Returns parsed.

(** ** The set-up script *)

Module Setup.

(** *** [getLocalIp] (lines 18-28) *)

(** One address of a network interface, as [os.networkInterfaces] lists
    it. *)
Record Net : Type := mkNet {
  net_family : string;
  net_internal : bool;
  net_address : string
}.

Definition external_ipv4 (net : Net) : bool :=
  String.eqb (net_family net) "IPv4" && negb (net_internal net).

(** The inner loop: the addresses of one interface. *)
Fixpoint scan_addresses (addresses : list Net) : option string :=
  match addresses with
  | [] => None
  | net :: rest =>
      if external_ipv4 net then Some (net_address net)
      else scan_addresses rest
  end.

(** The outer loop: the interfaces in the order of [Object.keys]. *)
Fixpoint scan_interfaces (nets : list (string * list Net)) : option string :=
  match nets with
  | [] => None
  | (_, addresses) :: rest =>
      match scan_addresses addresses with
      | Some address => Some address
      | None => scan_interfaces rest
      end
  end.

Definition getLocalIp (nets : list (string * list Net)) : string :=
  match scan_interfaces nets with
  | Some address => address
  | None => "127.0.0.1"
  end.

(** *** Running shell commands *)

Inductive Event : Type :=
| Log (text : string)                   (* console.log / warn / error *)
| LogError (text : string) (error : Thrown)
| Exec (command : string) (timeout : Z) (* child_process.exec *)
| Sleep (ms : Z).                       (* await of a setTimeout *)

(** The world outside the script: what the [n]-th command run (counting
    from 0) does -- its standard output, or the error its callback gets --
    and [String.prototype.trim]. *)
Record Shell : Type := mkShell {
  outcome : nat -> string -> Z -> Completion string;
  trim : string -> string
}.

Record Machine : Type := mkMachine {
  executed : nat;                       (* commands run so far *)
  events : list Event                   (* oldest first *)
}.

Definition Sh (A : Type) : Type := Machine -> Machine * Completion A.

Definition sh_ret {A} (a : A) : Sh A := fun m => (m, Returns a).

Definition sh_throw {A} (e : Thrown) : Sh A := fun m => (m, Throws e).

Definition sh_bind {A B} (c : Sh A) (k : A -> Sh B) : Sh B :=
  fun m =>
    match c m with
    | (m', Returns a) => k a m'
    | (m', Throws e) => (m', Throws e)
    end.

Definition sh_try {A} (body : Sh A) (handler : Thrown -> Sh A) : Sh A :=
  fun m =>
    match body m with
    | (m', Returns a) => (m', Returns a)
    | (m', Throws e) => handler e m'
    end.

Declare Scope sh_scope.
Delimit Scope sh_scope with sh.
Notation "x <- c ;; k" := (sh_bind c (fun x => k))
  (at level 100, c at next level, right associativity) : sh_scope.
Notation "c ;;; k" := (sh_bind c (fun _ => k))
  (at level 100, right associativity) : sh_scope.
Local Open Scope sh_scope.

Definition emit (e : Event) : Sh unit :=
  fun m => ({| executed := executed m; events := events m ++ [e] |},
            Returns tt).

(** [exec(command, {timeout}, callback)], awaited. *)
Definition exec (sh : Shell) (command : string) (timeout : Z) : Sh string :=
  fun m =>
    ({| executed := S (executed m);
        events := events m ++ [Exec command timeout] |},
     outcome sh (executed m) command timeout).

(** [`${error.message}`]. *)
Definition message_text (error : Thrown) : string :=
  match err_message error with
  | Some text => text
  | None => "undefined"
  end.

(** The loop of [execCommandWithRetry] from iteration [i] on; [fuel]
    bounds the iterations still to come.  [None] is [undefined], what the
    function returns when the loop ends without a [return]. *)
Fixpoint retry_loop (sh : Shell) (command : string) (retries : nat)
    (timeout : Z) (i fuel : nat) : Sh (option string) :=
  match fuel with
  | O => sh_ret None
  | S fuel' =>
      if (i <? retries)%nat then
        sh_try
          (emit (Log ("Executing: " +:+ command)) ;;;
           stdout <- exec sh command timeout ;;
           sh_ret (Some (trim sh stdout)))
          (fun error =>
             emit (Log ("Attempt " +:+ pretty (S i) +:+ " failed: "
                        +:+ message_text error)) ;;;
             if (i =? retries - 1)%nat then sh_throw error
             else
               emit (Log "Waiting 10 seconds before retrying...") ;;;
               emit (Sleep 10000) ;;;
               retry_loop sh command retries timeout (S i) fuel')
      else sh_ret None
  end.

(** [execCommandWithRetry] (lines 31-53) for a whole number of retries. *)
Definition execCommandWithRetry (sh : Shell) (command : string)
    (retries : nat) (timeout : Z) : Sh (option string) :=
  retry_loop sh command retries timeout 0 retries.

(** *** [installDependencies] (lines 56-95) *)

Definition dependencies : list string :=
  ["express"; "compression"; "express-rate-limit"; "localtunnel"; "lokijs";
   "showdown"; "dotenv"; "axios"; "xml2js"].

Definition install_command (dep : string) : string :=
  "npm install " +:+ dep +:+ " --no-bin-links".

Definition install_command_legacy (dep : string) : string :=
  "npm install " +:+ dep +:+ " --no-bin-links --legacy-peer-deps".

(** The body of the loop of lines 81-88. *)
Definition install_dependency (sh : Shell) (dep : string) : Sh unit :=
  sh_try
    (execCommandWithRetry sh (install_command dep) 3 180000 ;;; sh_ret tt)
    (fun error =>
       emit (Log ("Failed to install " +:+ dep
                  +:+ ", trying with --legacy-peer-deps")) ;;;
       execCommandWithRetry sh (install_command_legacy dep) 3 180000 ;;;
       sh_ret tt).

Fixpoint for_each {A} (body : A -> Sh unit) (items : list A) : Sh unit :=
  match items with
  | [] => sh_ret tt
  | item :: rest => body item ;;; for_each body rest
  end.

Definition installDependencies (sh : Shell) : Sh unit :=
  emit (Log "Installing dependencies...") ;;;
  sh_try
    (execCommandWithRetry sh "pkg update -y && pkg upgrade -y" 5 120000 ;;;
     execCommandWithRetry sh "pkg install -y nodejs wget mono" 5 120000 ;;;
     execCommandWithRetry sh "npm cache clean --force" 5 120000 ;;;
     for_each (install_dependency sh) dependencies ;;;
     emit (Log "Dependencies installed successfully."))
    (fun error =>
       emit (LogError "Error installing dependencies:" error) ;;;
       sh_throw error).

(** *** [getLatestJackettUrl] (lines 98-120) *)

Definition asset_name : string := "Jackett.Binaries.Mono.tar.gz".

(** [json.assets], up to the point where [.find] is called on it. *)
Definition assets_of (json : Json) : Completion (list Json) :=
  match json with
  | JNull => Throws (TypeError_null "assets")
  | JObj fields =>
      match lookup_field "assets" fields with
      | Some (JArr items) => Returns items
      | Some JNull => Throws (TypeError_null "find")
      | Some _ =>
          Throws (mkThrown "TypeError" (Some "json.assets.find is not a function"))
      | None => Throws (TypeError_undefined "find")
      end
  | _ => Throws (TypeError_undefined "find")
  end.

(** [asset.name === 'Jackett.Binaries.Mono.tar.gz'] *)
Definition named_asset (fields : list (string * Json)) : bool :=
  match lookup_field "name" fields with
  | Some (JStr name) => String.eqb name asset_name
  | _ => false
  end.

(** [assets.find(asset => asset.name === ...)]: elements are visited in
    order up to the first match; reading [.name] of a [null] element
    throws. *)
Fixpoint find_asset (assets : list Json)
    : Completion (option (list (string * Json))) :=
  match assets with
  | [] => Returns None
  | JNull :: _ => Throws (TypeError_null "name")
  | JObj fields :: rest =>
      if named_asset fields then Returns (Some fields) else find_asset rest
  | _ :: rest => find_asset rest
  end.

(** An asset that the search passes over: not [null], and not an object
    named like the wanted file. *)
Definition passed_over (asset : Json) : Prop :=
  match asset with
  | JNull => False
  | JObj fields => named_asset fields = false
  | _ => True
  end.

(** What the request to the releases API comes to. *)
Inductive Response : Type :=
| NetworkError (error : Thrown)         (* the 'error' event *)
| Body (data : string).                 (* the chunks, once 'end' fires *)

Definition Error (text : string) : Thrown := mkThrown "Error" (Some text).

(** The promise of [getLatestJackettUrl]: the value it resolves with
    ([None] when the asset has no [browser_download_url]) or the error it
    rejects with.  [parse] is [JSON.parse]. *)
Definition getLatestJackettUrl (parse : string -> Completion Json)
    (response : Response) : Completion (option Json) :=
  match response with
  | NetworkError error => Throws error
  | Body data =>
      let found :=
        match parse data with
        | Returns json =>
            match assets_of json with
            | Returns assets => find_asset assets
            | Throws error => Throws error
            end
        | Throws error => Throws error
        end in
      match found with
      | Returns (Some asset) =>
          Returns (lookup_field "browser_download_url" asset)
      | Returns None => Throws (Error "Unable to find Jackett Mono download URL.")
      | Throws error =>
          Throws (Error ("Error parsing GitHub API response: "
                         +:+ message_text error))
      end
  end.

(** The commands run so far and the pauses taken. *)
Definition commands (m : Machine) : list string :=
  omap (fun e => match e with Exec command _ => Some command | _ => None end)
    (events m).

Definition pauses (m : Machine) : nat :=
  length (List.filter (fun e => match e with Sleep _ => true | _ => false end)
            (events m)).

Definition start : Machine := {| executed := 0; events := [] |}.

End Setup.

(** ** Further sample collaborators *)

Module Cases.

(** A stream object that already went through the store. *)
Definition stale : Stream :=
  [("name", JStr "Jackettio"); ("title", JStr "Movie 720p");
   ("url", JStr "http://localhost/e30=/download/movie/tt0133093/t3");
   ("meta", JObj [("revision", JNum 0); ("created", JNum 0)]);
   ("$loki", JNum 7)].

(** [Sample.lib] with a provider that resolves two streams, the second one
    being [stale]. *)
Definition lib_two : Lib :=
  {| config_addonName := config_addonName (Sample.lib 150);
     config_addonId := config_addonId (Sample.lib 150);
     config_addonDescription := config_addonDescription (Sample.lib 150);
     config_rateLimitWindow := config_rateLimitWindow (Sample.lib 150);
     config_rateLimitRequest := config_rateLimitRequest (Sample.lib 150);
     addon_version := addon_version (Sample.lib 150);
     decodeBlob := decodeBlob (Sample.lib 150);
     getStreams := fun _ _ _ _ => Returns [Sample.stream1; stale];
     getDownload := getDownload (Sample.lib 150);
     debrid_shortName := debrid_shortName (Sample.lib 150);
     insertOne := insertOne (Sample.lib 150);
     newURL := newURL (Sample.lib 150);
     encodeUrl := encodeUrl (Sample.lib 150);
     ERROR_NOT_READY := ERROR_NOT_READY (Sample.lib 150);
     ERROR_EXPIRED_API_KEY := ERROR_EXPIRED_API_KEY (Sample.lib 150);
     ERROR_NOT_PREMIUM := ERROR_NOT_PREMIUM (Sample.lib 150);
     ERROR_ACCESS_DENIED := ERROR_ACCESS_DENIED (Sample.lib 150);
     ERROR_TWO_FACTOR_AUTH := ERROR_TWO_FACTOR_AUTH (Sample.lib 150) |}.

(** A shell in which the first [failures] commands fail and every later
    one prints [" ok "]. *)
Definition flaky (failures : nat) : Setup.Shell :=
  {| Setup.outcome := fun n _ _ =>
       if (n <? failures)%nat
       then Throws (mkThrown "Error" (Some "Command failed"))
       else Returns " ok ";
     Setup.trim := fun s => if String.eqb s " ok " then "ok" else s |}.

(** The interfaces of a phone on Wi-Fi. *)
Definition phone_interfaces : list (string * list Setup.Net) :=
  [("lo", [Setup.mkNet "IPv4" true "127.0.0.1";
           Setup.mkNet "IPv6" true "::1"]);
   ("wlan0", [Setup.mkNet "IPv6" false "fe80::1";
              Setup.mkNet "IPv4" false "192.168.1.20"]);
   ("rmnet0", [Setup.mkNet "IPv4" false "10.20.30.40"])].

(** A releases answer with two assets. *)
Definition release : Json :=
  JObj [("tag_name", JStr "v0.22.1");
        ("assets",
         JArr [JObj [("name", JStr "Jackett.Binaries.LinuxAMDx64.tar.gz");
                     ("browser_download_url", JStr "https://example.org/amd64")];
               JObj [("name", JStr "Jackett.Binaries.Mono.tar.gz");
                     ("browser_download_url", JStr "https://example.org/mono")]])].

End Cases.

(** * Properties *)

(** ** The handlers on concrete requests *)

Example cut_empty : cut "" = "".
Proof. reflexivity. Qed.

Example cut_short : cut "/abc" = "/abc******/abc".
Proof. reflexivity. Qed.

Example cut_long :
  cut "/dl/0123456789abcdef/movie.mkv" = "/dl/0******e.mkv".
Proof. reflexivity. Qed.

Example ceil_div_minutes :
  ceil_div 3600000 60000 = 60 /\ ceil_div 61000 60000 = 2
  /\ ceil_div 1 60000 = 1.
Proof. repeat split. Qed.

(** A first stream-listing request is served, and the stream it lists is
    in the store, stamped. *)
Example stream_served :
  let st := fst (serve (Sample.lib 150) 0 0 0
                   (Sample.stream_request "10.0.0.1" None) Sample.state0) in
  res_status (st_res st) = 200
  /\ (exists stamped,
        res_body (st_res st) = JsonBody (streams_body [stamped])
        /\ (coll_data <$> st_streams st) = Some [stamped])
  /\ st_console st = [].
Proof. vm_compute. repeat split. eexists. split; reflexivity. Qed.

(** Once the database is initialised the collection is there. *)
Example database_initialised :
  st_streams (fst (databaseInitialize Sample.state_no_collection))
  = st_streams Sample.state0.
Proof. reflexivity. Qed.

(** A blob that is not JSON is answered with an empty list. *)
Example stream_bad_blob :
  let req := incoming "GET" (TStream "bm90LWpzb24=" "movie" "tt0133093")
               "10.0.0.1" None in
  let st := fst (serve (Sample.lib 150) 0 0 0 req Sample.state0) in
  res_status (st_res st) = 200
  /\ res_body (st_res st) = JsonBody (streams_body [])
  /\ st_console st = [LogCaught "tt0133093" (Value Sample.SyntaxError)].
Proof. vm_compute. repeat split. Qed.

(** A download that resolves is logged redacted and redirected. *)
Example download_resolved :
  let st := fst (serve (Sample.lib 150) 0 0 0 (Sample.download_request "t1")
                   Sample.state0) in
  res_status (st_res st) = 302
  /\ location (st_res st) = Some Sample.resolved_url
  /\ st_console st
     = [LogLine
          "tt0133093 : Redirect: https://cdn.example.org/dl/0******e.mkv?toke******value"].
Proof. vm_compute. repeat split. Qed.

(** A download whose torrent is not ready goes to the canned video. *)
Example download_not_ready :
  let st := fst (serve (Sample.lib 150) 0 0 0 (Sample.download_request "t2")
                   Sample.state0) in
  res_status (st_res st) = 302
  /\ location (st_res st) = Some "/videos/not_ready.mp4".
Proof. vm_compute. repeat split. Qed.

(** A download URL with a space in it: the Location header has the space
    percent-encoded. *)
Example download_encoded :
  let lib := Sample.lib_resolving 150 "https://cdn.example.org/my file.mkv"
               {| url_protocol := "https:"; url_host := "cdn.example.org";
                  url_pathname := "/my%20file.mkv"; url_search := "" |} in
  let st := fst (serve lib 0 0 0 (Sample.download_request "t1")
                   Sample.state0) in
  location (st_res st) = Some "https://cdn.example.org/my%20file.mkv".
Proof. vm_compute. reflexivity. Qed.

(** The answers carry the charset of their body in the Content-Type. *)
Example content_types :
  header "content-type"
    (st_res (fst (serve (Sample.lib 150) 0 0 0
                    (Sample.stream_request "10.0.0.1" None) Sample.state0)))
  = Some "application/json; charset=utf-8"
  /\ header "Content-Type"
       (st_res (fst (serve (Sample.lib 150) 0 0 0
                       (incoming "GET" TUnmatched "10.0.0.1" None)
                       Sample.state0)))
     = Some "text/html; charset=utf-8".
Proof. vm_compute. split; reflexivity. Qed.

(** A path that matches the stream-listing route with a parameter that
    cannot be decoded never reaches the handler. *)
Example stream_malformed :
  let req := incoming "GET" (TMalformed stream_path "%E0%A4%A")
               "10.0.0.1" None in
  let st := fst (serve (Sample.lib 150) 0 0 0 req Sample.state0) in
  res_status (st_res st) = 500
  /\ res_body (st_res st) = TextBody "Something broke!"
  /\ st_console st = [LogStack (URIError_param "%E0%A4%A")].
Proof. vm_compute. repeat split. Qed.

(** A POST to the download path falls through to the 404 middleware. *)
Example download_post :
  let req := incoming "POST" (TDownload "e30=" "movie" "tt0133093" "t1")
               "10.0.0.1" None in
  let st := fst (serve (Sample.lib 150) 0 0 0 req Sample.state0) in
  res_status (st_res st) = 404
  /\ res_body (st_res st) = TextBody "Page not found!".
Proof. vm_compute. repeat split. Qed.

(** With one request allowed per window, a stream-listing request is turned
    away by its own second pass, with the synthetic entry. *)
Example stream_limited_at_route :
  let st := fst (serve (Sample.lib 1) 0 0 0
                   (Sample.stream_request "10.0.0.1" None) Sample.state0) in
  res_status (st_res st) = 200
  /\ res_body (st_res st)
     = JsonBody
         (JObj [("streams",
                 JArr [JObj [("name", JStr "Jackettio");
                             ("title", JStr (limited_title 60));
                             ("url", JStr "#")]])]).
Proof. vm_compute. repeat split. Qed.

(** ** Basic facts about the handler statements *)

Section Statements.

Context (lib : Lib).

Lemma respond_runs (data : Json) (st : State) :
  exists st',
    respond data st = (st', Returns tt)
    /\ st_store st' = st_store st
    /\ st_streams st' = st_streams st
    /\ st_console st' = st_console st
    /\ res_status (st_res st') = res_status (st_res st)
    /\ res_body (st_res st') = JsonBody data
    /\ res_sent (st_res st') = true.
Proof.
  eexists. cbv [respond bind setHeader modify_res res_json].
  split; [reflexivity | cbn; tauto].
Qed.

Lemma collection_insert_frame (doc : Stream) (st : State) :
  let st' := fst (collection_insert lib doc st) in
  st_store st' = st_store st /\ st_console st' = st_console st
  /\ st_res st' = st_res st.
Proof.
  unfold collection_insert.
  destruct (st_streams st) as [coll|]; [|cbn; tauto].
  destruct (insertOne lib coll doc) as [[coll' doc']|e]; cbn; tauto.
Qed.

Lemma insert_each_frame (streams : list Stream) (st : State) :
  let st' := fst (insert_each lib streams st) in
  st_store st' = st_store st /\ st_console st' = st_console st
  /\ st_res st' = st_res st.
Proof.
  revert st. induction streams as [|stream rest IH]; intros st; cbn.
  - tauto.
  - unfold bind.
    pose proof (collection_insert_frame stream st) as Hdoc. cbn in Hdoc.
    destruct (collection_insert lib stream st) as [st1 [stamped|e]];
      cbn in *; [|exact Hdoc].
    pose proof (IH st1) as Hrest. cbn in Hrest.
    destruct (insert_each lib rest st1) as [st2 [rest'|e]]; cbn in *;
      intuition congruence.
Qed.

(** With no collection, inserting any stream at all throws. *)
Lemma insert_each_no_collection (stream : Stream) (rest : list Stream)
    (st : State) :
  st_streams st = None ->
  insert_each lib (stream :: rest) st
  = (st, Throws (Value (TypeError_null "insert"))).
Proof.
  intros Hnone. cbn. unfold bind, collection_insert. now rewrite Hnone.
Qed.

Lemma Object_assign_ip_cases (parsed : Json) (ip : option string) (st : State) :
  (parsed = JNull /\ exists e, Object_assign_ip parsed ip st = (st, Throws e))
  \/ (parsed <> JNull
      /\ Object_assign_ip parsed ip st
         = (st, Returns {| uc_parsed := parsed; uc_ip := ip |})).
Proof.
  destruct parsed; try (right; split; [discriminate | reflexivity]).
  left. split; [reflexivity | eexists; reflexivity].
Qed.

(** The steps of the two [try] blocks before anything is stored or sent
    leave the state alone. *)
Lemma lift_frame {A} (c : Completion A) (st : State) : fst (lift c st) = st.
Proof. unfold lift. now destruct c. Qed.

(** The catch block of the stream-listing handler: it does not look into
    the value caught. *)
Lemma stream_catch_runs (id : string) (err : Caught) (st : State) :
  exists st',
    (console_log (LogCaught id err) ;;; respond (streams_body [])) st
    = (st', Returns tt)
    /\ st_store st' = st_store st
    /\ st_streams st' = st_streams st
    /\ st_console st' = st_console st ++ [LogCaught id err]
    /\ res_status (st_res st') = res_status (st_res st)
    /\ res_body (st_res st') = JsonBody (streams_body [])
    /\ res_sent (st_res st') = true.
Proof.
  eexists. cbv [respond bind setHeader modify_res res_json console_log].
  split; [reflexivity | cbn; tauto].
Qed.

(** The steps of the stream-listing handler's [try] block, one after the
    other. *)
Lemma stream_try_cases (req : Request) (userConfig type id : string)
    (st : State) :
  let body :=
    (parsed <- lift (decodeBlob lib userConfig) ;;
     uc <- Object_assign_ip parsed (req_clientIp req) ;;
     streams <- await (getStreams lib uc type id
                         (req_protocol req +:+ "://" +:+ req_host req)) ;;
     stamped <- insert_each lib streams ;;
     respond (streams_body stamped)) in
  (exists st1 err,
      body st = (st1, Throws err)
      /\ st_store st1 = st_store st /\ st_res st1 = st_res st)
  \/ (exists st1 stamped,
        body st = respond (streams_body stamped) st1
        /\ st_store st1 = st_store st /\ st_res st1 = st_res st).
Proof.
  intros body. subst body. unfold bind, lift, await.
  destruct (decodeBlob lib userConfig) as [parsed|e0];
    [|left; eexists; eexists; split; [reflexivity | tauto]].
  destruct (Object_assign_ip_cases parsed (req_clientIp req) st)
    as [[_ [e1 He1]]|[_ Huc]].
  { rewrite He1. left. eexists. eexists. split; [reflexivity | tauto]. }
  rewrite Huc.
  destruct (getStreams lib _ type id _) as [streams|e2];
    [|left; eexists; eexists; split; [reflexivity | tauto]].
  pose proof (insert_each_frame streams st) as Hframe. cbn in Hframe.
  destruct (insert_each lib streams st) as [st2 [stamped|e3]];
    cbn in Hframe.
  - right. exists st2, stamped. split; [reflexivity | tauto].
  - left. exists st2, e3. split; [reflexivity | tauto].
Qed.

(** The stream-listing handler answers every request: it never throws,
    keeps the status it found, and sends a [streams] array. *)
Lemma stream_handler_runs (req : Request) (userConfig type id : string)
    (st : State) :
  exists st' items,
    stream_handler lib req userConfig type id st = (st', Returns tt)
    /\ st_store st' = st_store st
    /\ res_status (st_res st') = res_status (st_res st)
    /\ res_body (st_res st') = JsonBody (JObj [("streams", JArr items)])
    /\ res_sent (st_res st') = true.
Proof.
  unfold stream_handler, try_catch.
  destruct (stream_try_cases req userConfig type id st)
    as [(st1 & err & -> & Hs1 & Hr1) | (st1 & stamped & -> & Hs1 & Hr1)].
  - (* something threw: the catch block answers with an empty list *)
    destruct (stream_catch_runs id err st1)
      as (st' & Hrun & Hs & _ & _ & Hst & Hb & Hsent).
    exists st', []. rewrite Hrun, Hs, Hst, Hs1, Hr1. tauto.
  - (* the try block ran to its end: [respond] was its last statement *)
    destruct (respond_runs (streams_body stamped) st1)
      as (st3 & Hrun & Hs3 & _ & _ & Hst & Hb & Hsent).
    rewrite Hrun. exists st3, (map JObj stamped).
    rewrite Hs3, Hst, Hs1, Hr1. tauto.
Qed.

(** An [async] handler that completes is not touched by the wrapper. *)
Lemma async_returns (handler : M unit) (st st' : State) :
  handler st = (st', Returns tt) -> async handler st = (st', Returns tt).
Proof. intros Hrun. unfold async, try_catch. now rewrite Hrun. Qed.

(** One that throws leaves the reason on the console and nothing else. *)
Lemma async_throws (handler : M unit) (st st' : State) (reason : Caught) :
  handler st = (st', Throws reason) ->
  async handler st
  = ({| st_store := st_store st'; st_streams := st_streams st';
        st_console := st_console st' ++ [LogUnhandledRejection reason];
        st_res := st_res st' |}, Returns tt).
Proof. intros Hrun. unfold async, try_catch. now rewrite Hrun. Qed.

End Statements.

(** ** The rate limiter *)

Module RateLimitFacts.
Import RateLimit.

Section Store.

Context (opts : Options).

(** A hit lands in the entry of its key: the hits already counted in the
    current window plus one, and the end of that window. *)
Lemma increment_entry (now : Z) (key : string) (store : gmap string Client) :
  increment opts now key store
  = (<[key := {| totalHits := live_hits now key store + 1;
                 resetTime := window_end opts now key store |}]> store,
     {| totalHits := live_hits now key store + 1;
        resetTime := window_end opts now key store |}).
Proof.
  unfold increment, getClient, live_hits, window_end.
  destruct (store !! key) as [client|].
  - destruct (resetTime client <=? now); reflexivity.
  - cbn. destruct (now + windowMs opts <=? now); reflexivity.
Qed.

Lemma pass_entry (now : Z) (key : string) (store : gmap string Client) :
  exists info,
    pass opts now key store
    = (<[key := {| totalHits := live_hits now key store + 1;
                   resetTime := window_end opts now key store |}]> store,
       info,
       if limit opts <? live_hits now key store + 1
       then Limited info else Next)
    /\ info_resetTime info = window_end opts now key store
    /\ info_used info = live_hits now key store + 1.
Proof.
  unfold pass. rewrite increment_entry. cbn. eexists. repeat split.
Qed.

Lemma pass_admits (now : Z) (key : string) (store : gmap string Client) :
  admitted (snd (pass opts now key store))
  = (live_hits now key store + 1 <=? limit opts).
Proof.
  destruct (pass_entry now key store) as (info & -> & _). cbn.
  destruct (limit opts <? live_hits now key store + 1) eqn:Hlt; cbn;
    symmetry; [apply Z.leb_gt | apply Z.leb_le]; lia.
Qed.

Lemma pass_store (now : Z) (key : string) (store : gmap string Client) :
  fst (fst (pass opts now key store))
  = <[key := {| totalHits := live_hits now key store + 1;
                resetTime := window_end opts now key store |}]> store.
Proof. destruct (pass_entry now key store) as (info & -> & _). reflexivity. Qed.

(** Hits of other keys do not touch a key's entry. *)
Lemma live_hits_other_key (now : Z) (key key' : string) (client : Client)
    (store : gmap string Client) :
  key <> key' ->
  live_hits now key' (<[key := client]> store) = live_hits now key' store.
Proof. intros Hne. unfold live_hits. now rewrite lookup_insert_ne. Qed.

(** An entry with [hits] hits and a window ending at [window] after the
    clock reading: the next hit is the [hits + 1]-th of that window. *)
Lemma live_entry (now hits window : Z) (key : string)
    (store : gmap string Client) :
  store !! key = Some {| totalHits := hits; resetTime := window |} ->
  now < window ->
  live_hits now key store = hits /\ window_end opts now key store = window.
Proof.
  intros Hentry Hlive. unfold live_hits, window_end. rewrite Hentry. cbn.
  assert ((window <=? now) = false) as -> by (apply Z.leb_gt; lia). tauto.
Qed.

(** An entry whose window is over counts for nothing. *)
Lemma expired_entry (now hits window : Z) (key : string)
    (store : gmap string Client) :
  store !! key = Some {| totalHits := hits; resetTime := window |} ->
  window <= now ->
  live_hits now key store = 0.
Proof.
  intros Hentry Hover. unfold live_hits. rewrite Hentry. cbn.
  now assert ((window <=? now) = true) as -> by (apply Z.leb_le; lia).
Qed.

(** Passes inside the window of a live entry: the [i]-th of them (from 0)
    is the [hits + i + 1]-th hit of the window. *)
Lemma passes_in_window (key : string) (times : list Z) :
  forall (store : gmap string Client) (hits window : Z),
    store !! key = Some {| totalHits := hits; resetTime := window |} ->
    Forall (fun t => t < window) times ->
    fst (passes opts key times store) !! key
    = Some {| totalHits := hits + Z.of_nat (length times);
              resetTime := window |}
    /\ forall (i : nat) (v : Verdict),
         snd (passes opts key times store) !! i = Some v ->
         admitted v = (hits + Z.of_nat i + 1 <=? limit opts).
Proof.
  induction times as [|now later IH]; intros store hits window Hentry Hin.
  - cbn. split.
    + rewrite Hentry. do 2 f_equal. lia.
    + intros i v Hv. destruct i; discriminate.
  - apply Forall_cons in Hin. destruct Hin as [Hnow Hlater].
    destruct (live_entry now hits window key store Hentry Hnow)
      as [Hhits Hwindow].
    pose proof (pass_admits now key store) as Hadmit.
    pose proof (pass_store now key store) as Hstore.
    cbn [passes].
    destruct (pass opts now key store) as [[store1 info] v1].
    cbn in Hadmit, Hstore. rewrite Hhits in Hadmit.
    rewrite Hhits, Hwindow in Hstore.
    assert (Hentry1 : store1 !! key
                      = Some {| totalHits := hits + 1; resetTime := window |})
      by (rewrite Hstore; apply lookup_insert_eq).
    destruct (IH store1 (hits + 1) window Hentry1 Hlater) as [Hfinal Hverdicts].
    destruct (passes opts key later store1) as [store2 vs]. cbn in *.
    split.
    + rewrite Hfinal. do 2 f_equal. lia.
    + intros [|i] v Hv; cbn in Hv.
      * injection Hv as <-. rewrite Hadmit. f_equal. lia.
      * rewrite (Hverdicts i v Hv). f_equal. lia.
Qed.

End Store.

End RateLimitFacts.

(** ** The stream-listing route *)

(** The handler of the limiter on the stream-listing route: the one
    synthetic entry, with the status it found. *)
Lemma route_limiter_handler_runs (lib : Lib) (later : Z) (req : Request)
    (info : RateLimit.Info) (st : State) :
  limiter_handler lib (limiter_options lib) later
    (set_rateLimit info (set_route stream_path req)) st
  = (fst (res_json (limited_streams lib (RateLimit.info_resetTime info - later))
            st), Returns tt).
Proof.
  unfold limiter_handler. cbn [req_route set_route set_rateLimit req_rateLimit].
  now rewrite String.eqb_refl.
Qed.

(** Whatever the configuration blob decodes to, whatever [getStreams]
    (indexer and provider) and the store do, and whatever the route's
    limiter decides, a request dispatched to the stream-listing route
    (line 174) is answered: with the status it found and the JSON object
    [{streams: [...]}]. *)
Lemma stream_route_runs (lib : Lib) (now later : Z) (req : Request)
    (userConfig type id : string) (st : State) :
  exists st' items,
    stream_route lib now later req userConfig type id st = (st', Returns tt)
    /\ res_status (st_res st') = res_status (st_res st)
    /\ res_sent (st_res st') = true
    /\ res_body (st_res st') = JsonBody (JObj [("streams", JArr items)]).
Proof.
  unfold stream_route, limiter.
  destruct (RateLimit.pass _ now _ _) as [[store' info] verdict].
  destruct verdict as [|info'].
  - match goal with
    | |- context [ stream_handler lib ?r userConfig type id ] =>
        destruct (stream_handler_runs lib r userConfig type id
                    (set_store store' st))
          as (st' & items & Hrun & _ & Hstatus & Hbody & Hsent)
    end.
    exists st', items. rewrite (async_returns _ _ _ Hrun). tauto.
  - unfold try_catch. rewrite route_limiter_handler_runs.
    eexists. eexists. split; [reflexivity | cbn; tauto].
Qed.

(** C6 fails as stated: with one resolved stream and a database that has no
    "streams" collection, the body sent is [{streams: []}], not the
    resolved list. *)
Lemma stream_store_failure_counterexample :
  ~ (forall (lib : Lib) (req : Request) (userConfig type id : string)
            (st st1 : State) (parsed : Json) (streams : list Stream)
            (e : Caught),
        decodeBlob lib userConfig = Returns parsed ->
        parsed <> JNull ->
        getStreams lib {| uc_parsed := parsed; uc_ip := req_clientIp req |}
          type id (req_protocol req +:+ "://" +:+ req_host req)
        = Returns streams ->
        insert_each lib streams st = (st1, Throws e) ->
        res_body (st_res (fst (stream_handler lib req userConfig type id st)))
        = JsonBody (streams_body streams)).
Proof.
  intros Hclaim.
  specialize (Hclaim (Sample.lib 150)
                (set_clientIp (Sample.stream_request "10.0.0.1" None))
                "e30=" "movie" "tt0133093"
                Sample.state_no_collection Sample.state_no_collection
                (JObj []) [Sample.stream1] (Value (TypeError_null "insert"))).
  specialize (Hclaim eq_refl ltac:(discriminate) eq_refl eq_refl).
  vm_compute in Hclaim. discriminate Hclaim.
Qed.

(** C6, amended.  When the streams were resolved and appending them to the
    store throws, the handler logs the error and still answers, with the
    status it found (200) and the body [{streams: []}]: the resolved
    streams are not sent. *)
Theorem stream_store_failure_empties_response (lib : Lib) (req : Request)
    (userConfig type id : string) (st st1 : State) (parsed : Json)
    (streams : list Stream) (e : Caught) :
  decodeBlob lib userConfig = Returns parsed ->
  parsed <> JNull ->
  getStreams lib {| uc_parsed := parsed; uc_ip := req_clientIp req |}
    type id (req_protocol req +:+ "://" +:+ req_host req)
  = Returns streams ->
  insert_each lib streams st = (st1, Throws e) ->
  exists st',
    stream_handler lib req userConfig type id st = (st', Returns tt)
    /\ st_console st' = st_console st ++ [LogCaught id e]
    /\ res_status (st_res st') = res_status (st_res st)
    /\ res_body (st_res st') = JsonBody (streams_body [])
    /\ res_sent (st_res st') = true.
Proof.
  intros Hdecode Hnonnull Hstreams Hinsert.
  pose proof (insert_each_frame lib streams st) as Hframe.
  rewrite Hinsert in Hframe. cbn in Hframe. destruct Hframe as (_ & Hc & Hr).
  destruct (stream_catch_runs id e st1)
    as (st' & Hrun & _ & _ & Hlog & Hstatus & Hbody & Hsent).
  exists st'. split.
  - unfold stream_handler, try_catch, bind, lift, await. rewrite Hdecode.
    destruct (Object_assign_ip_cases parsed (req_clientIp req) st)
      as [[Hnull _]|[_ Huc]]; [contradiction|].
    rewrite Huc, Hstreams, Hinsert. exact Hrun.
  - rewrite Hlog, Hstatus, Hc, Hr. tauto.
Qed.

Lemma stream_store_failure_empties_response_witness :
  exists st',
    stream_handler (Sample.lib 150)
      (set_clientIp (Sample.stream_request "10.0.0.1" None))
      "e30=" "movie" "tt0133093" Sample.state_no_collection
    = (st', Returns tt)
    /\ st_console st'
       = st_console Sample.state_no_collection
         ++ [LogCaught "tt0133093" (Value (TypeError_null "insert"))]
    /\ res_status (st_res st') = res_status (st_res Sample.state_no_collection)
    /\ res_body (st_res st') = JsonBody (streams_body [])
    /\ res_sent (st_res st') = true.
Proof.
  apply (stream_store_failure_empties_response (Sample.lib 150)
           (set_clientIp (Sample.stream_request "10.0.0.1" None))
           "e30=" "movie" "tt0133093"
           Sample.state_no_collection Sample.state_no_collection
           (JObj []) [Sample.stream1] (Value (TypeError_null "insert"))).
  - reflexivity.
  - discriminate.
  - reflexivity.
  - reflexivity.
Defined.

(** ** The download route *)

Lemma header_set (name value : string) (headers : gmap string string)
    (status : Z) (body : Body) (sent : bool) :
  header name {| res_status := status;
                 res_headers := <[toLowerCase name := value]> headers;
                 res_body := body; res_sent := sent |}
  = Some value.
Proof. unfold header. cbn [res_headers]. apply lookup_insert_eq. Qed.

Lemma location_after_redirect (lib : Lib) (url : string) (st : State) :
  exists st',
    res_redirect lib url st = (st', Returns tt)
    /\ st_store st' = st_store st
    /\ st_streams st' = st_streams st
    /\ st_console st' = st_console st
    /\ res_status (st_res st') = 302
    /\ res_sent (st_res st') = true
    /\ location (st_res st') = Some (encodeUrl lib url).
Proof.
  eexists. split; [reflexivity|]. cbn [fst st_store st_streams st_console st_res
                                       res_status res_sent].
  repeat split. apply (header_set "Location").
Qed.

(** The [switch] agrees with the specification's table on classified
    messages, provided the five messages are pairwise distinct. *)
Lemma error_video_classified (lib : Lib) (err : Thrown) (kind : ErrorKind) :
  NoDup (map (ERROR lib) error_kinds) ->
  err_message err = Some (ERROR lib kind) ->
  error_video lib err = spec_video kind.
Proof.
  intros Hdistinct Hmessage.
  assert (Heqb : forall k1 k2,
             String.eqb (ERROR lib k1) (ERROR lib k2) = bool_decide (k1 = k2)).
  { intros k1 k2. rewrite NoDup_alt in Hdistinct.
    pose (idx := fun k => match k with
                          | NOT_READY => 0 | EXPIRED_API_KEY => 1
                          | NOT_PREMIUM => 2 | ACCESS_DENIED => 3
                          | TWO_FACTOR_AUTH => 4
                          end%nat).
    assert (Hidx : forall k,
               map (ERROR lib) error_kinds !! idx k = Some (ERROR lib k))
      by (intros []; reflexivity).
    destruct (String.eqb_spec (ERROR lib k1) (ERROR lib k2)) as [Heq|Hne].
    - pose proof (Hidx k2) as H2. rewrite <- Heq in H2.
      pose proof (Hdistinct _ _ _ (Hidx k1) H2) as Hsame.
      destruct k1, k2; cbn in Hsame; try discriminate Hsame; reflexivity.
    - destruct (decide (k1 = k2)) as [->|Hk]; [contradiction|].
      now rewrite bool_decide_eq_false_2. }
  unfold error_video. rewrite Hmessage.
  change (ERROR_NOT_READY lib) with (ERROR lib NOT_READY).
  change (ERROR_EXPIRED_API_KEY lib) with (ERROR lib EXPIRED_API_KEY).
  change (ERROR_NOT_PREMIUM lib) with (ERROR lib NOT_PREMIUM).
  change (ERROR_ACCESS_DENIED lib) with (ERROR lib ACCESS_DENIED).
  change (ERROR_TWO_FACTOR_AUTH lib) with (ERROR lib TWO_FACTOR_AUTH).
  rewrite !Heqb. destruct kind; reflexivity.
Qed.

Lemma error_video_unclassified (lib : Lib) (err : Thrown) :
  (forall kind, err_message err <> Some (ERROR lib kind)) ->
  error_video lib err = "/videos/error.mp4".
Proof.
  intros Hnone. unfold error_video.
  destruct (err_message err) as [m|]; [|reflexivity].
  pose proof (Hnone NOT_READY) as H1.
  pose proof (Hnone EXPIRED_API_KEY) as H2.
  pose proof (Hnone NOT_PREMIUM) as H3.
  pose proof (Hnone ACCESS_DENIED) as H4.
  pose proof (Hnone TWO_FACTOR_AUTH) as H5.
  cbn [ERROR] in *.
  repeat match goal with
         | |- context [ String.eqb m ?b ] =>
             destruct (String.eqb_spec m b) as [->|_]
         end; try reflexivity; congruence.
Qed.

(** On a GET or HEAD download request whose resolution throws a value
    [err] of which [message] can be read (at any step of the try block),
    the handler completes and redirects (302): to the canned video of the
    kind whose message [err] carries, and to [/videos/error.mp4] when
    [err] carries none of the five messages.  The five messages of
    [debrid.ERROR] are taken to be pairwise distinct; the Location header
    is the path as Express encodes it. *)
Theorem download_failure_redirects (lib : Lib) (req : Request)
    (userConfig type id torrentId : string) (next : M unit)
    (st st1 : State) (err : Thrown) :
  req_method req = "GET" \/ req_method req = "HEAD" ->
  NoDup (map (ERROR lib) error_kinds) ->
  download_try lib req userConfig type id torrentId st
  = (st1, Throws (Value err)) ->
  exists st',
    download_handler lib req userConfig type id torrentId next st
    = (st', Returns tt)
    /\ res_sent (st_res st') = true
    /\ res_status (st_res st') = 302
    /\ st_console st' = st_console st1 ++ [LogCaught id (Value err)]
    /\ (forall kind,
          err_message err = Some (ERROR lib kind) ->
          location (st_res st') = Some (encodeUrl lib (spec_video kind)))
    /\ ((forall kind, err_message err <> Some (ERROR lib kind)) ->
        location (st_res st') = Some (encodeUrl lib "/videos/error.mp4")).
Proof.
  intros Hmethod Hdistinct Htry.
  unfold download_handler.
  assert (Hguard : negb (String.eqb (req_method req) "GET")
                   && negb (String.eqb (req_method req) "HEAD") = false).
  { destruct Hmethod as [-> | ->]; reflexivity. }
  rewrite Hguard. unfold try_catch. rewrite Htry.
  unfold download_catch, bind. cbn [console_log].
  match goal with
  | |- context [ res_redirect lib ?url ?s ] =>
      destruct (location_after_redirect lib url s)
        as (st' & Hrun & _ & _ & Hlog & Hstatus & Hsent & Hloc)
  end.
  exists st'. rewrite Hrun. cbn [st_console] in Hlog.
  refine (conj eq_refl (conj Hsent (conj Hstatus (conj Hlog (conj _ _))))).
  - intros kind Hkind. rewrite Hloc.
    now rewrite (error_video_classified lib err kind Hdistinct Hkind).
  - intros Hnone. rewrite Hloc.
    now rewrite (error_video_unclassified lib err Hnone).
Qed.

Lemma download_failure_redirects_witness :
  exists st',
    download_handler (Sample.lib 150)
      (set_clientIp (Sample.download_request "t2"))
      "e30=" "movie" "tt0133093" "t2" (ret tt) Sample.state0
    = (st', Returns tt)
    /\ res_sent (st_res st') = true
    /\ res_status (st_res st') = 302
    /\ st_console st'
       = st_console Sample.state0
         ++ [LogCaught "tt0133093" (Value (mkThrown "Error" (Some "Not ready")))]
    /\ (forall kind,
          Some "Not ready" = Some (ERROR (Sample.lib 150) kind) ->
          location (st_res st')
          = Some (encodeUrl (Sample.lib 150) (spec_video kind)))
    /\ ((forall kind, Some "Not ready" <> Some (ERROR (Sample.lib 150) kind)) ->
        location (st_res st')
        = Some (encodeUrl (Sample.lib 150) "/videos/error.mp4")).
Proof.
  apply (download_failure_redirects (Sample.lib 150)
           (set_clientIp (Sample.download_request "t2"))
           "e30=" "movie" "tt0133093" "t2" (ret tt)
           Sample.state0 Sample.state0
           (mkThrown "Error" (Some "Not ready"))).
  - left. reflexivity.
  - vm_compute. repeat constructor; rewrite ?list_elem_of_In; cbn;
      intuition discriminate.
  - reflexivity.
Defined.

(** C2, evaluated where the code departs from it.  A provider that rejects
    the download with [undefined]: the catch block logs the value and
    fails on reading its [message]; no response is ever sent, and the
    rejection of the handler's promise is reported by the
    ['unhandledRejection'] listener. *)
Theorem download_rejected_with_undefined :
  let req := Sample.download_request "t3" in
  let st := fst (serve (Sample.lib 150) 0 0 0 req Sample.state0) in
  getDownload (Sample.lib 150)
    {| uc_parsed := JObj []; uc_ip := Some "10.0.0.1" |}
    "movie" "tt0133093" "t3" = Throws Undefined
  /\ res_sent (st_res st) = false
  /\ res_body (st_res st) = NoBody
  /\ location (st_res st) = None
  /\ st_console st
     = [LogCaught "tt0133093" Undefined;
        LogUnhandledRejection (Value (TypeError_undefined "message"))].
Proof. vm_compute. repeat split. Qed.

(** ** Redaction of the logged URL *)

(** [cut] reads nothing of its argument but the two ends. *)
Lemma cut_reads_only_ends (a b : string) :
  substr_head 5 a = substr_head 5 b ->
  substr_tail 5 a = substr_tail 5 b ->
  cut a = cut b.
Proof.
  intros Hhead Htail. unfold cut. rewrite Hhead, Htail.
  destruct a as [|ca a'], b as [|cb b']; try reflexivity; discriminate.
Qed.

Lemma append_cons (c : ascii) (a b : string) :
  String c a +:+ b = String c (a +:+ b).
Proof. reflexivity. Qed.

Lemma append_empty (b : string) : "" +:+ b = b.
Proof. reflexivity. Qed.

Lemma substring_prefix (pre rest : string) :
  String.substring 0 (String.length pre) (pre +:+ rest) = pre.
Proof.
  induction pre as [|c pre IH]; rewrite ?append_cons, ?append_empty; cbn.
  - now destruct rest.
  - f_equal. exact IH.
Qed.

Lemma substring_whole (s : string) :
  String.substring 0 (String.length s) s = s.
Proof. induction s as [|c s IH]; cbn; [reflexivity | f_equal; exact IH]. Qed.

Lemma substring_suffix (pre suf : string) :
  String.substring (String.length pre) (String.length suf) (pre +:+ suf) = suf.
Proof.
  induction pre as [|c pre IH]; rewrite ?append_cons, ?append_empty; cbn.
  - apply substring_whole.
  - exact IH.
Qed.

Lemma length_append (a b : string) :
  String.length (a +:+ b) = (String.length a + String.length b)%nat.
Proof.
  induction a as [|c a IH]; rewrite ?append_cons, ?append_empty; cbn;
    [reflexivity | f_equal; exact IH].
Qed.

(** What [cut] prints of a value with at least ten characters: its first
    five, six stars, its last five; the middle does not show. *)
Lemma cut_masks_middle (pre mid suf : string) :
  String.length pre = 5%nat -> String.length suf = 5%nat ->
  cut (pre +:+ mid +:+ suf) = pre +:+ "******" +:+ suf.
Proof.
  intros Hpre Hsuf. unfold cut.
  assert (Htruthy : truthy (pre +:+ mid +:+ suf) = true)
    by (destruct pre; [discriminate | now rewrite append_cons]).
  rewrite Htruthy. f_equal; [|f_equal].
  - unfold substr_head. rewrite <- Hpre. apply substring_prefix.
  - unfold substr_tail.
    replace (pre +:+ mid +:+ suf) with ((pre +:+ mid) +:+ suf)
      by (clear; induction pre as [|c pre IH];
          rewrite ?append_cons, ?append_empty; [reflexivity | f_equal; exact IH]).
    rewrite length_append, Hsuf.
    replace (String.length (pre +:+ mid) + 5 - 5)%nat
      with (String.length (pre +:+ mid)) by lia.
    rewrite <- Hsuf. apply substring_suffix.
Qed.

(** A download that resolves logs one line, the redacted one, and redirects
    to the resolved URL. *)
Lemma download_success_log (lib : Lib) (req : Request)
    (userConfig type id torrentId : string) (next : M unit) (st : State)
    (url : string) (parsed : URL) :
  req_method req = "GET" \/ req_method req = "HEAD" ->
  resolves lib req userConfig type id torrentId url parsed ->
  exists st',
    download_handler lib req userConfig type id torrentId next st
    = (st', Returns tt)
    /\ st_store st' = st_store st
    /\ st_streams st' = st_streams st
    /\ st_console st' = st_console st ++ [LogLine (redirect_log id parsed)]
    /\ res_status (st_res st') = 302
    /\ res_sent (st_res st') = true
    /\ location (st_res st') = Some (encodeUrl lib url).
Proof.
  intros Hmethod (config & Hdecode & Hnonnull & Hurl & Hparsed).
  unfold download_handler.
  assert (Hguard : negb (String.eqb (req_method req) "GET")
                   && negb (String.eqb (req_method req) "HEAD") = false).
  { destruct Hmethod as [-> | ->]; reflexivity. }
  rewrite Hguard. unfold try_catch, download_try, bind, lift, await.
  rewrite Hdecode.
  destruct (Object_assign_ip_cases config (req_clientIp req) st)
    as [[Hnull _]|[_ Huc]]; [contradiction|].
  rewrite Huc, Hurl, Hparsed. cbn [console_log].
  match goal with
  | |- context [ res_redirect lib url ?s ] =>
      destruct (location_after_redirect lib url s)
        as (st' & Hrun & Hstore & Hdb & Hconsole & Hstatus & Hsent & Hloc)
  end.
  exists st'. rewrite Hrun.
  cbn [st_store st_streams st_console] in Hstore, Hdb, Hconsole. tauto.
Qed.

(** C5.  Two downloads that resolve, for the same request, to URLs with the
    same protocol, the same host, the same first five and last five
    characters of the pathname and the same first five and last five
    characters of the query string leave the same console output: the
    console found, followed by the one line [redirect_log] builds. *)
Theorem redirect_log_reveals_only_ends (lib1 lib2 : Lib) (req : Request)
    (userConfig type id torrentId : string) (next : M unit) (st : State)
    (url1 url2 : string) (parsed1 parsed2 : URL) :
  req_method req = "GET" \/ req_method req = "HEAD" ->
  resolves lib1 req userConfig type id torrentId url1 parsed1 ->
  resolves lib2 req userConfig type id torrentId url2 parsed2 ->
  url_protocol parsed1 = url_protocol parsed2 ->
  url_host parsed1 = url_host parsed2 ->
  substr_head 5 (url_pathname parsed1) = substr_head 5 (url_pathname parsed2) ->
  substr_tail 5 (url_pathname parsed1) = substr_tail 5 (url_pathname parsed2) ->
  substr_head 5 (url_search parsed1) = substr_head 5 (url_search parsed2) ->
  substr_tail 5 (url_search parsed1) = substr_tail 5 (url_search parsed2) ->
  st_console
    (fst (download_handler lib1 req userConfig type id torrentId next st))
  = st_console
      (fst (download_handler lib2 req userConfig type id torrentId next st))
  /\ st_console
       (fst (download_handler lib1 req userConfig type id torrentId next st))
     = st_console st
       ++ [LogLine (id +:+ " : Redirect: " +:+ url_protocol parsed1 +:+ "//"
                    +:+ url_host parsed1 +:+ cut (url_pathname parsed1)
                    +:+ cut (url_search parsed1))].
Proof.
  intros Hmethod Hres1 Hres2 Hprotocol Hhost Hph Hpt Hsh Hst.
  destruct (download_success_log lib1 req userConfig type id torrentId next
              st url1 parsed1 Hmethod Hres1)
    as (st1 & Hrun1 & _ & _ & Hlog1 & _).
  destruct (download_success_log lib2 req userConfig type id torrentId next
              st url2 parsed2 Hmethod Hres2)
    as (st2 & Hrun2 & _ & _ & Hlog2 & _).
  rewrite Hrun1, Hrun2. cbn [fst]. rewrite Hlog1, Hlog2.
  split; [|reflexivity].
  unfold redirect_log.
  rewrite Hprotocol, Hhost.
  rewrite (cut_reads_only_ends _ _ Hph Hpt).
  now rewrite (cut_reads_only_ends _ _ Hsh Hst).
Qed.

Lemma redirect_log_reveals_only_ends_witness :
  let req := set_clientIp (Sample.download_request "t1") in
  let lib1 := Sample.lib 150 in
  let lib2 := Sample.lib_resolving 150 Sample.other_url Sample.other_parsed in
  st_console
    (fst (download_handler lib1 req "e30=" "movie" "tt0133093" "t1" (ret tt)
            Sample.state0))
  = st_console
      (fst (download_handler lib2 req "e30=" "movie" "tt0133093" "t1" (ret tt)
              Sample.state0))
  /\ st_console
       (fst (download_handler lib1 req "e30=" "movie" "tt0133093" "t1" (ret tt)
               Sample.state0))
     = [LogLine
          "tt0133093 : Redirect: https://cdn.example.org/dl/0******e.mkv?toke******value"].
Proof.
  apply (redirect_log_reveals_only_ends (Sample.lib 150)
           (Sample.lib_resolving 150 Sample.other_url Sample.other_parsed)
           (set_clientIp (Sample.download_request "t1"))
           "e30=" "movie" "tt0133093" "t1" (ret tt) Sample.state0
           Sample.resolved_url Sample.other_url
           Sample.resolved_parsed Sample.other_parsed).
  - left. reflexivity.
  - exists (JObj []). repeat split; [discriminate].
  - exists (JObj []). repeat split; [discriminate].
  - reflexivity.
  - reflexivity.
  - reflexivity.
  - reflexivity.
  - reflexivity.
  - reflexivity.
Defined.

(** ** The window of the limiter *)

(** C3 fails as stated.  With two requests allowed per window, the first
    request of a client to the stream-listing route is served and the
    second one, one second later, is turned away.  And with no request
    allowed per window, a request made after the window has elapsed is
    turned away like the one before it. *)
Lemma limiter_counterexample :
  (let lib := Sample.lib 2 in
   let req := Sample.stream_request "10.0.0.1" None in
   let st1 := fst (serve lib 0 0 0 req Sample.state0) in
   let st2 := fst (serve lib 1000 1000 1000 req st1) in
   RateLimit.limit (limiter_options lib) = 2
   /\ RateLimit.windowMs (limiter_options lib) = 3600000
   /\ res_status (st_res st1) = 200
   /\ (exists stamped, res_body (st_res st1)
                       = JsonBody (streams_body [stamped]))
   /\ res_status (st_res st2) = 500
   /\ res_body (st_res st2) = TextBody "Something broke!"
   /\ st_streams st2 = st_streams st1)
  /\ (let opts := RateLimit.options 3600 0 in
      let '(store1, _, v1) := RateLimit.pass opts 0 "10.0.0.1" ∅ in
      let '(_, _, v2) := RateLimit.pass opts 3600000 "10.0.0.1" store1 in
      RateLimit.admitted v1 = false /\ RateLimit.admitted v2 = false).
Proof.
  split.
  - vm_compute. repeat split. eexists. reflexivity.
  - vm_compute. split; reflexivity.
Qed.

(** C3, amended.  Counting passes through the limiter under one key: when
    the limit is at least 1 and a pass at [t0] opens a window (no hit is
    counted yet), the passes made before the window ends are admitted up
    to the [limit]-th and turned away from the [limit + 1]-th on, and a
    pass made once the window has ended is admitted again. *)
Theorem limiter_window (opts : RateLimit.Options) (key : string)
    (store : gmap string RateLimit.Client) (t0 : Z) (later : list Z) :
  1 <= RateLimit.limit opts ->
  RateLimit.live_hits t0 key store = 0 ->
  Forall (fun t => t < RateLimit.window_end opts t0 key store) later ->
  let result := RateLimit.passes opts key (t0 :: later) store in
  (forall (i : nat) (v : RateLimit.Verdict),
      snd result !! i = Some v ->
      Z.of_nat i < RateLimit.limit opts -> RateLimit.admitted v = true)
  /\ (forall (i : nat) (v : RateLimit.Verdict),
        snd result !! i = Some v ->
        RateLimit.limit opts <= Z.of_nat i -> RateLimit.admitted v = false)
  /\ (forall t : Z,
        RateLimit.window_end opts t0 key store <= t ->
        RateLimit.admitted (snd (RateLimit.pass opts t key (fst result)))
        = true).
Proof.
  intros Hlimit Hfresh Hlater result.
  pose proof (RateLimitFacts.pass_admits opts t0 key store) as Hadmit.
  pose proof (RateLimitFacts.pass_store opts t0 key store) as Hstore.
  subst result. cbn [RateLimit.passes].
  destruct (RateLimit.pass opts t0 key store) as [[store1 info] v1].
  cbn in Hadmit, Hstore. rewrite Hfresh in Hadmit, Hstore.
  assert (Hentry1 : store1 !! key
                    = Some {| RateLimit.totalHits := 1;
                              RateLimit.resetTime :=
                                RateLimit.window_end opts t0 key store |})
    by (rewrite Hstore; apply lookup_insert_eq).
  destruct (RateLimitFacts.passes_in_window opts key later store1 1 _
              Hentry1 Hlater) as [Hfinal Hverdicts].
  destruct (RateLimit.passes opts key later store1) as [store2 vs].
  cbn [fst snd] in *.
  assert (Hall : forall (i : nat) (v : RateLimit.Verdict),
             (v1 :: vs) !! i = Some v ->
             RateLimit.admitted v = (Z.of_nat i + 1 <=? RateLimit.limit opts)).
  { intros [|i] v Hv; cbn in Hv.
    - injection Hv as <-. rewrite Hadmit. reflexivity.
    - rewrite (Hverdicts i v Hv). f_equal. lia. }
  repeat split.
  - intros i v Hv Hi. rewrite (Hall i v Hv). apply Z.leb_le. lia.
  - intros i v Hv Hi. rewrite (Hall i v Hv). apply Z.leb_gt. lia.
  - intros t Hover. rewrite RateLimitFacts.pass_admits.
    rewrite (RateLimitFacts.expired_entry t _ _ key store2 Hfinal Hover).
    apply Z.leb_le. lia.
Qed.

Lemma limiter_window_witness :
  let opts := RateLimit.options 3600 2 in
  let result := RateLimit.passes opts "10.0.0.1" [0; 1000; 2000] ∅ in
  (forall (i : nat) (v : RateLimit.Verdict),
      snd result !! i = Some v ->
      Z.of_nat i < RateLimit.limit opts -> RateLimit.admitted v = true)
  /\ (forall (i : nat) (v : RateLimit.Verdict),
        snd result !! i = Some v ->
        RateLimit.limit opts <= Z.of_nat i -> RateLimit.admitted v = false)
  /\ (forall t : Z,
        RateLimit.window_end opts 0 "10.0.0.1" ∅ <= t ->
        RateLimit.admitted
          (snd (RateLimit.pass opts t "10.0.0.1" (fst result)))
        = true).
Proof.
  apply (limiter_window (RateLimit.options 3600 2) "10.0.0.1" ∅ 0 [1000; 2000]).
  - cbn. lia.
  - reflexivity.
  - repeat constructor.
Defined.

(** ** The limiter inside the middleware chain *)

(** The key of the route-level pass: the CF-Connecting-IP header when the
    request carries a non-empty one, the connection address otherwise.
    The global pass, which runs before [req.clientIp] is set, always uses
    the connection address. *)
Lemma route_key (req : Request) :
  keyGenerator (set_clientIp req)
  = match req_cf_connecting_ip req with
    | Some h => if truthy h then h else req_ip req
    | None => req_ip req
    end.
Proof.
  unfold keyGenerator, set_clientIp, or_else. cbn.
  destruct (req_cf_connecting_ip req) as [h|].
  - destruct (truthy h) eqn:Hh; [now rewrite Hh|].
    now destruct (truthy (req_ip req)).
  - now destruct (truthy (req_ip req)).
Qed.

Lemma global_key (req : Request) :
  req_clientIp req = None -> keyGenerator req = req_ip req.
Proof. intros Hnone. unfold keyGenerator. now rewrite Hnone. Qed.

(** A request that the global pass (line 89) admits goes on to the routes,
    with its hit counted. *)
Lemma serve_admitted (lib : Lib) (t1 t2 t3 : Z) (req : Request) (st : State) :
  RateLimit.live_hits t1 (keyGenerator req) (st_store st) + 1
  <= RateLimit.limit (limiter_options lib) ->
  exists info,
    serve lib t1 t2 t3 req st
    = dispatch lib t2 t3 (set_clientIp (set_rateLimit info req))
        (set_store (RateLimit.counted (limiter_options lib) t1 (keyGenerator req)
                      (st_store st))
           (begin_request st)).
Proof.
  intros Hadmit. unfold serve, app, limiter.
  destruct (RateLimitFacts.pass_entry (limiter_options lib) t1
              (keyGenerator req) (st_store st))
    as (info & Hpass & _).
  change (st_store (begin_request st)) with (st_store st).
  rewrite Hpass.
  assert (Hlt : (RateLimit.limit (limiter_options lib)
                 <? RateLimit.live_hits t1 (keyGenerator req) (st_store st) + 1)
                = false) by (apply Z.ltb_ge; exact Hadmit).
  rewrite Hlt. now exists info.
Qed.

(** What the limiter's handler does: it answers, or it throws an error
    object without having touched anything. *)
Lemma limiter_handler_cases (lib : Lib) (opts : RateLimit.Options) (later : Z)
    (req : Request) (st : State) :
  (exists st',
      limiter_handler lib opts later req st = (st', Returns tt)
      /\ st_store st' = st_store st
      /\ st_streams st' = st_streams st
      /\ st_console st' = st_console st
      /\ res_sent (st_res st') = true)
  \/ (exists e, limiter_handler lib opts later req st = (st, Throws (Value e))).
Proof.
  unfold limiter_handler.
  destruct (req_route req) as [path|]; [|right; eexists; reflexivity].
  destruct (String.eqb path stream_path).
  - destruct (req_rateLimit req) as [info|]; [|right; eexists; reflexivity].
    left. eexists. split; [reflexivity | cbn; tauto].
  - left. eexists. split; [reflexivity | cbn; tauto].
Qed.

(** A request that the global pass (line 89) turns away, on whatever route:
    the limiter's handler reads [req.route.path] while [req.route] is
    undefined, the exception goes to the error middleware, and the answer
    is a 500. *)
Lemma global_limit_is_500 (lib : Lib) (t1 t2 t3 : Z) (req : Request)
    (st : State) :
  req_route req = None ->
  RateLimit.limit (limiter_options lib)
  < RateLimit.live_hits t1 (keyGenerator req) (st_store st) + 1 ->
  exists st',
    serve lib t1 t2 t3 req st = (st', Returns tt)
    /\ res_status (st_res st') = 500
    /\ res_body (st_res st')
       = (if req_xhr req
          then JsonBody (JObj [("error", JStr "Something broke!")])
          else TextBody "Something broke!")
    /\ st_console st'
       = st_console st ++ [LogStack (TypeError_undefined "path")]
    /\ res_sent (st_res st') = true.
Proof.
  intros Hroute Hover. unfold serve, app, limiter.
  destruct (RateLimitFacts.pass_entry (limiter_options lib) t1
              (keyGenerator req) (st_store st))
    as (info & Hpass & _).
  change (st_store (begin_request st)) with (st_store st).
  rewrite Hpass.
  assert (Hlt : (RateLimit.limit (limiter_options lib)
                 <? RateLimit.live_hits t1 (keyGenerator req) (st_store st) + 1)
                = true) by (apply Z.ltb_lt; lia).
  rewrite Hlt.
  unfold try_catch, limiter_handler. cbn [req_route set_rateLimit].
  rewrite Hroute.
  unfold throw, error_middleware, bind. cbn [console_log].
  destruct (req_xhr req);
    eexists; (split; [reflexivity | cbn; tauto]).
Qed.

(** The handlers past the limiter leave its counters alone. *)
Lemma async_store (handler : M unit) (st : State) :
  st_store (fst (async handler st)) = st_store (fst (handler st)).
Proof.
  unfold async, try_catch. now destruct (handler st) as [st' [[]|e]].
Qed.

Lemma error_middleware_store (req : Request) (e : Thrown) (st : State) :
  st_store (fst (error_middleware req e st)) = st_store st.
Proof. unfold error_middleware. now destruct (req_xhr req). Qed.

Lemma not_found_store (req : Request) (st : State) :
  st_store (fst (not_found req st)) = st_store st.
Proof. unfold not_found. now destruct (req_xhr req). Qed.

(** The [try] block of the download handler writes nothing but the log
    line and the redirect, which are its last two statements. *)
Lemma download_try_frame (lib : Lib) (req : Request)
    (userConfig type id torrentId : string) (st : State) :
  let result := download_try lib req userConfig type id torrentId st in
  st_store (fst result) = st_store st
  /\ st_streams (fst result) = st_streams st
  /\ (forall err, snd result = Throws err -> fst result = st).
Proof.
  cbn zeta. unfold download_try, bind, lift, await.
  destruct (decodeBlob lib userConfig) as [parsed|e0]; [|cbn; tauto].
  destruct (Object_assign_ip_cases parsed (req_clientIp req) st)
    as [[_ [e1 ->]]|[_ ->]]; [cbn; tauto|].
  destruct (getDownload lib _ type id torrentId) as [url|e2]; [|cbn; tauto].
  destruct (newURL lib url) as [parsedUrl|e3]; [|cbn; tauto].
  cbn. repeat split. intros err Herr. discriminate Herr.
Qed.

Lemma download_catch_frame (lib : Lib) (id : string) (err : Caught)
    (st : State) :
  st_store (fst (download_catch lib id err st)) = st_store st
  /\ st_streams (fst (download_catch lib id err st)) = st_streams st.
Proof. destruct err; split; reflexivity. Qed.

Lemma download_handler_store (lib : Lib) (req : Request)
    (userConfig type id torrentId : string) (next : M unit) (st : State) :
  st_store (fst (next st)) = st_store st ->
  st_store (fst (download_handler lib req userConfig type id torrentId next st))
  = st_store st.
Proof.
  intros Hnext. unfold download_handler.
  destruct (negb _ && negb _); [exact Hnext|].
  unfold try_catch.
  pose proof (download_try_frame lib req userConfig type id torrentId st)
    as (Hstore & _ & _).
  destruct (download_try lib req userConfig type id torrentId st)
    as [st1 [[]|err]]; cbn [fst] in *; [exact Hstore|].
  now rewrite (proj1 (download_catch_frame lib id err st1)).
Qed.

(** The manifest handler writes nothing before its last statement, the
    call of [respond]. *)
Lemma manifest_cases (lib : Lib) (req : Request) (userConfig : option string)
    (st : State) :
  (exists name, manifest lib req userConfig st
                = respond (manifest_json lib req name) st)
  \/ (exists err, manifest lib req userConfig st = (st, Throws err)).
Proof.
  unfold manifest, bind, lift, await.
  destruct userConfig as [blob|]; [|left; eexists; reflexivity].
  destruct (truthy blob); [|left; eexists; reflexivity].
  destruct (decodeBlob lib blob) as [parsed|e0]; [|right; eexists; reflexivity].
  destruct (debrid_shortName lib parsed) as [shortName|e1];
    [left | right]; eexists; reflexivity.
Qed.

Lemma manifest_store (lib : Lib) (req : Request) (userConfig : option string)
    (st : State) :
  st_store (fst (manifest lib req userConfig st)) = st_store st.
Proof.
  destruct (manifest_cases lib req userConfig st) as [[name ->]|[err ->]];
    [|reflexivity].
  destruct (respond_runs (manifest_json lib req name) st)
    as (st' & -> & Hstore & _).
  exact Hstore.
Qed.

Lemma dispatch_store (lib : Lib) (t2 t3 : Z) (req : Request) (st : State) :
  (forall userConfig type id, req_target req <> TStream userConfig type id) ->
  st_store (fst (dispatch lib t2 t3 req st)) = st_store st.
Proof.
  intros Htarget. unfold dispatch.
  destruct (req_target req)
    as [|userConfig|userConfig type id|type id|userConfig type id torrentId
        |route param|].
  - reflexivity.
  - rewrite async_store. apply manifest_store.
  - now destruct (Htarget userConfig type id).
  - rewrite async_store. unfold unconfigured_stream.
    match goal with
    | |- context [ respond ?data st ] =>
        destruct (respond_runs data st) as (st' & -> & Hstore & _)
    end.
    exact Hstore.
  - rewrite async_store. apply download_handler_store, not_found_store.
  - apply error_middleware_store.
  - apply not_found_store.
Qed.

Lemma limiter_catch_store (lib : Lib) (opts : RateLimit.Options) (later : Z)
    (req : Request) (next : M unit) (on_error : Thrown -> M unit)
    (st : State) :
  (forall e s, st_store (fst (on_error e s)) = st_store s) ->
  st_store
    (fst (try_catch (limiter_handler lib opts later req)
            (fun err => match err with
                        | Value e => on_error e
                        | Undefined | Null => next
                        end) st))
  = st_store st.
Proof.
  intros Herror. unfold try_catch.
  destruct (limiter_handler_cases lib opts later req st)
    as [(st' & -> & Hstore & _) | (e & ->)]; [exact Hstore | apply Herror].
Qed.

(** A request to any route but the stream-listing one makes one pass
    through the limiter, under its connection address. *)
Lemma serve_single_pass (lib : Lib) (t1 t2 t3 : Z) (req : Request)
    (st : State) :
  (forall userConfig type id, req_target req <> TStream userConfig type id) ->
  req_clientIp req = None ->
  st_store (fst (serve lib t1 t2 t3 req st))
  = fst (fst (RateLimit.pass (limiter_options lib) t1 (req_ip req)
                (st_store st))).
Proof.
  intros Htarget Hclient. unfold serve, app, limiter.
  rewrite (global_key req Hclient). cbn [begin_request st_store].
  destruct (RateLimit.pass _ t1 _ _) as [[store1 info] verdict].
  destruct verdict as [|info']; cbv beta iota zeta.
  - now rewrite dispatch_store by exact Htarget.
  - rewrite limiter_catch_store; [reflexivity|].
    intros e s. apply error_middleware_store.
Qed.

(** C1 fails as stated.  With two requests allowed per window, the second
    stream-listing request of a client within a window is answered with
    status 500 and the text [Something broke!]; and so is a request whose
    path matches the route with a parameter that is not valid
    percent-encoding, which the router never hands to the handler. *)
Lemma stream_request_500_counterexample :
  (let lib := Sample.lib 2 in
   let req := Sample.stream_request "10.0.0.1" None in
   let st1 := fst (serve lib 0 0 0 req Sample.state0) in
   let st2 := fst (serve lib 1000 1000 1000 req st1) in
   req_target req = TStream "e30=" "movie" "tt0133093"
   /\ res_status (st_res st1) = 200
   /\ res_status (st_res st2) = 500
   /\ res_body (st_res st2) = TextBody "Something broke!")
  /\ (let req := incoming "GET" (TMalformed stream_path "%E0%A4%A")
                   "10.0.0.1" None in
      let st := fst (serve (Sample.lib 150) 0 0 0 req Sample.state0) in
      res_status (st_res st) = 500
      /\ res_body (st_res st) = TextBody "Something broke!").
Proof. vm_compute. repeat split. Qed.

(** C1, amended.  A request for the stream-listing route whose path
    parameters were decoded and which the global pass of the limiter
    (line 89) lets through is answered with status 200 and the JSON
    object [{streams: [...]}] (with a possibly empty array), whatever the
    configuration blob decodes to, whatever [getStreams] (indexer and
    provider) and the store do or throw, and whatever the route's own
    limiter pass decides. *)
Theorem stream_request_admitted_streams (lib : Lib) (t1 t2 t3 : Z)
    (req : Request) (userConfig type id : string) (st : State) :
  req_target req = TStream userConfig type id ->
  RateLimit.live_hits t1 (keyGenerator req) (st_store st) + 1
  <= RateLimit.limit (limiter_options lib) ->
  exists st' items,
    serve lib t1 t2 t3 req st = (st', Returns tt)
    /\ res_status (st_res st') = 200
    /\ res_sent (st_res st') = true
    /\ res_body (st_res st') = JsonBody (JObj [("streams", JArr items)]).
Proof.
  intros Htarget Hadmit.
  destruct (serve_admitted lib t1 t2 t3 req st Hadmit) as (info & ->).
  unfold dispatch. cbn [req_target set_clientIp set_rateLimit].
  rewrite Htarget.
  match goal with
  | |- context [ stream_route lib t2 t3 ?r userConfig type id ?s ] =>
      destruct (stream_route_runs lib t2 t3 r userConfig type id s)
        as (st' & items & Hrun & Hstatus & Hsent & Hbody)
  end.
  exists st', items. rewrite Hrun. cbn in Hstatus. tauto.
Qed.

Lemma stream_request_admitted_streams_witness :
  exists st' items,
    serve (Sample.lib 150) 0 0 0 (Sample.stream_request "10.0.0.1" None)
      Sample.state_no_collection = (st', Returns tt)
    /\ res_status (st_res st') = 200
    /\ res_sent (st_res st') = true
    /\ res_body (st_res st') = JsonBody (JObj [("streams", JArr items)]).
Proof.
  apply (stream_request_admitted_streams (Sample.lib 150) 0 0 0
           (Sample.stream_request "10.0.0.1" None)
           "e30=" "movie" "tt0133093" Sample.state_no_collection).
  - reflexivity.
  - vm_compute. discriminate.
Defined.

(** A stream-listing request that the route-level pass (line 174) turns
    away is answered as the handler intends: status unchanged (200) and a
    list with the one synthetic entry, whose title gives the minutes
    between the handler's reading of the clock and the end of the
    window. *)
Lemma route_limit_is_synthetic (lib : Lib) (now later : Z) (req : Request)
    (userConfig type id : string) (st : State) :
  RateLimit.limit (limiter_options lib)
  < RateLimit.live_hits now (keyGenerator req) (st_store st) + 1 ->
  exists st',
    stream_route lib now later req userConfig type id st = (st', Returns tt)
    /\ res_status (st_res st') = res_status (st_res st)
    /\ res_body (st_res st')
       = JsonBody
           (limited_streams lib
              (RateLimit.window_end (limiter_options lib) now
                 (keyGenerator req) (st_store st) - later))
    /\ st_console st' = st_console st.
Proof.
  intros Hover. unfold stream_route, limiter.
  change (keyGenerator (set_route stream_path req)) with (keyGenerator req).
  destruct (RateLimitFacts.pass_entry (limiter_options lib) now
              (keyGenerator req) (st_store st))
    as (info & Hpass & Hreset & _).
  rewrite Hpass.
  assert (Hlt : (RateLimit.limit (limiter_options lib)
                 <? RateLimit.live_hits now (keyGenerator req) (st_store st) + 1)
                = true) by (apply Z.ltb_lt; lia).
  rewrite Hlt.
  unfold try_catch. rewrite route_limiter_handler_runs, Hreset.
  eexists. split; [reflexivity | cbn; tauto].
Qed.

(** C7, evaluated where the code departs from it.  With one request
    allowed per window, the second request of a client to a route other
    than the stream-listing one (here the manifest) gets status 500 and
    the text [Something broke!], not status 429 with the limiter's
    message; and with two requests allowed, the second stream-listing
    request gets the same 500 instead of a 200 with the synthetic
    entry. *)
Theorem limited_request_gets_500 :
  (let lib := Sample.lib 1 in
   let req := Sample.other_request "10.0.0.1" in
   let st1 := fst (serve lib 0 0 0 req Sample.state0) in
   let st2 := fst (serve lib 1000 1000 1000 req st1) in
   res_status (st_res st1) = 200
   /\ res_status (st_res st2) = 500
   /\ res_body (st_res st2) = TextBody "Something broke!"
   /\ RateLimit.statusCode (limiter_options lib) = 429)
  /\ (let lib := Sample.lib 2 in
      let req := Sample.stream_request "10.0.0.1" None in
      let st1 := fst (serve lib 0 0 0 req Sample.state0) in
      let st2 := fst (serve lib 1000 1000 1000 req st1) in
      res_status (st_res st1) = 200
      /\ res_status (st_res st2) = 500
      /\ res_body (st_res st2) = TextBody "Something broke!").
Proof. vm_compute. repeat split. Qed.

(** C10 fails as stated when the request carries a CF-Connecting-IP header
    that differs from its connection address: the request is served, and
    each of two counters has gone up by one, none by two. *)
Lemma stream_request_hits_counterexample :
  let lib := Sample.lib 150 in
  let req := Sample.stream_request "10.0.0.1" (Some "203.0.113.7") in
  let st1 := fst (serve lib 0 0 0 req Sample.state0) in
  res_status (st_res st1) = 200
  /\ (exists stamped, res_body (st_res st1)
                      = JsonBody (streams_body [stamped]))
  /\ RateLimit.totalHits <$> st_store st1 !! "10.0.0.1" = Some 1
  /\ RateLimit.totalHits <$> st_store st1 !! "203.0.113.7" = Some 1
  /\ dom (st_store st1) = {["10.0.0.1"; "203.0.113.7"]}.
Proof.
  vm_compute. repeat split. eexists. reflexivity.
Qed.

Lemma window_end_other_key (opts : RateLimit.Options) (now : Z)
    (key key' : string) (client : RateLimit.Client)
    (store : gmap string RateLimit.Client) :
  key <> key' ->
  RateLimit.window_end opts now key' (<[key := client]> store)
  = RateLimit.window_end opts now key' store.
Proof.
  intros Hne. unfold RateLimit.window_end. now rewrite lookup_insert_ne.
Qed.

(** The counters after a pass of the stream-listing route's own limiter:
    the handlers behind it leave them alone. *)
Lemma stream_route_store (lib : Lib) (now later : Z) (req : Request)
    (userConfig type id : string) (st : State) :
  st_store (fst (stream_route lib now later req userConfig type id st))
  = RateLimit.counted (limiter_options lib) now (keyGenerator req)
      (st_store st).
Proof.
  unfold stream_route, limiter.
  change (keyGenerator (set_route stream_path req)) with (keyGenerator req).
  pose proof (RateLimitFacts.pass_store (limiter_options lib) now
                (keyGenerator req) (st_store st)) as Hstore.
  destruct (RateLimit.pass _ now _ _) as [[store1 info] verdict].
  cbn [fst] in Hstore. subst store1.
  destruct verdict as [|info']; cbv beta iota zeta.
  - rewrite async_store.
    match goal with
    | |- context [ stream_handler lib ?r userConfig type id ?s ] =>
        destruct (stream_handler_runs lib r userConfig type id s)
          as (st' & items & -> & Hstore & _)
    end.
    exact Hstore.
  - rewrite limiter_catch_store; [reflexivity|].
    intros e s. apply error_middleware_store.
Qed.

(** The counters after a stream-listing request that the global pass
    admits: one hit under the connection address at [t1], then one hit
    under the route-level key at [t2]; the handlers leave the counters
    alone. *)
Lemma serve_stream_store (lib : Lib) (t1 t2 t3 : Z) (req : Request)
    (userConfig type id : string) (st : State) :
  req_target req = TStream userConfig type id ->
  req_clientIp req = None ->
  RateLimit.live_hits t1 (req_ip req) (st_store st) + 1
  <= RateLimit.limit (limiter_options lib) ->
  let opts := limiter_options lib in
  let key2 := keyGenerator (set_clientIp req) in
  let store1 :=
    <[req_ip req :=
        {| RateLimit.totalHits :=
             RateLimit.live_hits t1 (req_ip req) (st_store st) + 1;
           RateLimit.resetTime :=
             RateLimit.window_end opts t1 (req_ip req) (st_store st) |}]>
      (st_store st) in
  st_store (fst (serve lib t1 t2 t3 req st))
  = <[key2 :=
        {| RateLimit.totalHits := RateLimit.live_hits t2 key2 store1 + 1;
           RateLimit.resetTime := RateLimit.window_end opts t2 key2 store1 |}]>
      store1.
Proof.
  intros Htarget Hclient Hadmit opts key2 store1.
  rewrite <- (global_key req Hclient) in Hadmit.
  destruct (serve_admitted lib t1 t2 t3 req st Hadmit) as (info & ->).
  unfold dispatch. cbn [req_target set_clientIp set_rateLimit].
  rewrite Htarget, stream_route_store.
  rewrite (global_key req Hclient). reflexivity.
Qed.

(** C10, amended.  A stream-listing request admitted by the global pass is
    counted twice by the one limiter.  When it carries no CF-Connecting-IP
    header (or an empty one, or its own connection address) both hits go
    to the counter of that address, which goes up by two if the second
    pass falls before the end of the window.  When it carries another
    CF-Connecting-IP value, the first hit goes to the counter of the
    connection address and the second to the counter of the header value:
    each goes up by one. *)
Theorem stream_request_hits (lib : Lib) (t1 t2 t3 : Z) (req : Request)
    (userConfig type id : string) (st : State) :
  req_target req = TStream userConfig type id ->
  req_clientIp req = None ->
  RateLimit.live_hits t1 (req_ip req) (st_store st) + 1
  <= RateLimit.limit (limiter_options lib) ->
  let opts := limiter_options lib in
  let key1 := req_ip req in
  let key2 := match req_cf_connecting_ip req with
              | Some h => if truthy h then h else req_ip req
              | None => req_ip req
              end in
  let store := st_store st in
  let store' := st_store (fst (serve lib t1 t2 t3 req st)) in
  (key2 = key1 ->
   t2 < RateLimit.window_end opts t1 key1 store ->
   store' !! key1
   = Some {| RateLimit.totalHits := RateLimit.live_hits t1 key1 store + 2;
             RateLimit.resetTime := RateLimit.window_end opts t1 key1 store |})
  /\ (key2 <> key1 ->
      store' !! key1
      = Some {| RateLimit.totalHits := RateLimit.live_hits t1 key1 store + 1;
                RateLimit.resetTime :=
                  RateLimit.window_end opts t1 key1 store |}
      /\ store' !! key2
         = Some {| RateLimit.totalHits := RateLimit.live_hits t2 key2 store + 1;
                   RateLimit.resetTime :=
                     RateLimit.window_end opts t2 key2 store |}).
Proof.
  intros Htarget Hclient Hadmit opts key1 key2 store store'.
  pose proof (serve_stream_store lib t1 t2 t3 req userConfig type id st
                Htarget Hclient Hadmit) as Hstore.
  cbn zeta in Hstore. rewrite (route_key req) in Hstore.
  fold key2 key1 store opts in Hstore. fold store' in Hstore.
  split.
  - intros Hsame Hwindow. rewrite Hsame in Hstore.
    rewrite Hstore, lookup_insert_eq.
    match type of Hstore with
    | context [ RateLimit.live_hits t2 key1 ?s1 ] =>
        destruct (RateLimitFacts.live_entry opts t2
                    (RateLimit.live_hits t1 key1 store + 1)
                    (RateLimit.window_end opts t1 key1 store) key1 s1)
          as [-> ->]
    end.
    + apply lookup_insert_eq.
    + exact Hwindow.
    + do 2 f_equal. lia.
  - intros Hdiff. rewrite Hstore. split.
    + rewrite lookup_insert_ne by exact Hdiff. apply lookup_insert_eq.
    + rewrite lookup_insert_eq.
      rewrite RateLimitFacts.live_hits_other_key by congruence.
      rewrite window_end_other_key by congruence. reflexivity.
Qed.

Lemma stream_request_hits_witness :
  let lib := Sample.lib 150 in
  let req := Sample.stream_request "10.0.0.1" None in
  let opts := limiter_options lib in
  let key1 := req_ip req in
  let key2 := match req_cf_connecting_ip req with
              | Some h => if truthy h then h else req_ip req
              | None => req_ip req
              end in
  let store := st_store Sample.state0 in
  let store' := st_store (fst (serve lib 0 5 5 req Sample.state0)) in
  (key2 = key1 ->
   5 < RateLimit.window_end opts 0 key1 store ->
   store' !! key1
   = Some {| RateLimit.totalHits := RateLimit.live_hits 0 key1 store + 2;
             RateLimit.resetTime := RateLimit.window_end opts 0 key1 store |})
  /\ (key2 <> key1 ->
      store' !! key1
      = Some {| RateLimit.totalHits := RateLimit.live_hits 0 key1 store + 1;
                RateLimit.resetTime :=
                  RateLimit.window_end opts 0 key1 store |}
      /\ store' !! key2
         = Some {| RateLimit.totalHits := RateLimit.live_hits 5 key2 store + 1;
                   RateLimit.resetTime :=
                     RateLimit.window_end opts 5 key2 store |}).
Proof.
  apply (stream_request_hits (Sample.lib 150) 0 5 5
           (Sample.stream_request "10.0.0.1" None)
           "e30=" "movie" "tt0133093" Sample.state0).
  - reflexivity.
  - reflexivity.
  - vm_compute. discriminate.
Defined.

(** ** Immutable configuration keys *)

(** C4.  When the blob of a stream-listing request decodes to an object
    that has one of the immutable keys, building the effective
    configuration does not throw, and the effective configuration has the
    server default for that key (no value, if the server has no default
    for it), whatever value the blob gave. *)
Theorem immutable_key_takes_server_default (lib : Lib) (server : ServerConfig)
    (req : Request) (blob : string) (fields : list (string * Json))
    (key : string) (st : State) :
  decodeBlob lib blob = Returns (JObj fields) ->
  is_Some (lookup_field key fields) ->
  key ∈ immulatableUserConfigKeys server ->
  exists effective,
    effectiveUserConfig lib server req blob st = (st, Returns effective)
    /\ effective !! key = defaultUserConfig server !! key.
Proof.
  intros Hdecode _ Himmutable.
  unfold effectiveUserConfig, bind, lift. rewrite Hdecode. cbn.
  eexists. split; [reflexivity|].
  unfold restoreImmutableKeys.
  rewrite lookup_union_r.
  - destruct (defaultUserConfig server !! key) as [value|] eqn:Hdefault.
    + now apply map_lookup_filter_Some.
    + apply map_lookup_filter_None. now left.
  - apply map_lookup_filter_None. right.
    intros value _ Hkeep. cbn in Hkeep. contradiction.
Qed.

Lemma immutable_key_takes_server_default_witness :
  exists effective,
    effectiveUserConfig (Sample.lib 150) Sample.server
      (set_clientIp (Sample.stream_request "10.0.0.1" None))
      "eyJtYXhUb3JyZW50cyI6MTAwfQ==" Sample.state0
    = (Sample.state0, Returns effective)
    /\ effective !! "maxTorrents"
       = defaultUserConfig Sample.server !! "maxTorrents".
Proof.
  apply (immutable_key_takes_server_default (Sample.lib 150) Sample.server
           (set_clientIp (Sample.stream_request "10.0.0.1" None))
           "eyJtYXhUb3JyZW50cyI6MTAwfQ==" [("maxTorrents", JNum 100)]
           "maxTorrents" Sample.state0).
  - reflexivity.
  - vm_compute. eexists. reflexivity.
  - vm_compute. left.
Defined.

(** The route itself (lines 176-178) leaves every client-supplied property
    but [ip] as the blob has it. *)
Lemma lookup_field_map (key : string) (fields : list (string * Json)) :
  (list_to_map (rev fields) : gmap string Json) !! key
  = lookup_field key fields.
Proof.
  unfold lookup_field. induction (rev fields) as [|[k v] l IH]; cbn.
  - apply lookup_empty.
  - destruct (String.eqb_spec k key) as [->|Hne].
    + apply lookup_insert_eq.
    + rewrite lookup_insert_ne by exact Hne. exact IH.
Qed.

Lemma route_keeps_client_value (fields : list (string * Json))
    (ip : option string) (key : string) :
  key <> "ip" ->
  uc_props {| uc_parsed := JObj fields; uc_ip := ip |} !! key
  = lookup_field key fields.
Proof.
  intros Hne. unfold uc_props. cbn.
  destruct ip as [address|].
  - rewrite lookup_insert_ne by congruence. apply lookup_field_map.
  - rewrite lookup_delete_ne by congruence. apply lookup_field_map.
Qed.

(** ** Shutdown *)

Module LifecycleFacts.
Import Lifecycle.

Ltac sublist_concrete :=
  repeat first [ apply sublist_nil | apply sublist_skip | apply sublist_cons ].

(** A subsequence of the trace stays one when the trace grows. *)
Ltac trace_grows H :=
  repeat apply sublist_inserts_r; exact H.

Lemma step_exited (p : Process) (e : Event) (code : Z) :
  exited p = Some code -> step p e = p.
Proof. intros Hex. unfold step. now rewrite Hex. Qed.




(** The fault invariant holds at start-up and is kept by every event that
    is not a signal. *)
Lemma fault_invariant_running : fault_invariant running.
Proof.
  unfold fault_invariant. cbn.
  refine (conj _ (conj _ (conj _ (conj _ (conj _ (conj _ _)))))).
  - intros Hin. apply elem_of_nil in Hin. contradiction.
  - reflexivity.
  - reflexivity.
  - now left.
  - tauto.
  - congruence.
  - discriminate.
Qed.

Lemma fault_invariant_step (p : Process) (e : Event) :
  is_signal e = false -> fault_invariant p -> fault_invariant (step p e).
Proof.
  intros Hnosignal Hinv. destruct (exited p) as [code|] eqn:Hex.
  { now rewrite (step_exited p e code Hex). }
  destruct Hinv as (Hno & Hclose & Htrace & _ & Hlive & Hsave & _).
  specialize (Hlive Hex).
  unfold step. rewrite Hex.
  destruct e as [s| | | |]; [discriminate Hnosignal| | | |].
  - (* an uncaught exception *)
    unfold fault_invariant, uncaughtExceptionCapture. cbn. rewrite ?Hex.
    refine (conj _ (conj Hclose (conj _ (conj _ (conj _ (conj _ _)))))).
    + intros Hin. apply elem_of_app in Hin as [Hin|Hin]; [now apply Hno|].
      apply list_elem_of_singleton in Hin. discriminate.
    + rewrite !forallb_app, Htrace. reflexivity.
    + now left.
    + intros _. exact Hlive.
    + intros _. apply sublist_inserts_l. sublist_concrete.
    + discriminate.
  - (* an unhandled rejection *)
    unfold fault_invariant, unhandledRejection. cbn. rewrite ?Hex.
    refine (conj Hno (conj Hclose (conj _ (conj _ (conj _ (conj _ _)))))).
    + rewrite !forallb_app, Htrace. reflexivity.
    + now left.
    + intros _. exact Hlive.
    + intros Hpending. trace_grows (Hsave Hpending).
    + discriminate.
  - (* a save has finished *)
    destruct (save_callbacks p) as [|cb rest] eqn:Hcbs.
    { unfold fault_invariant. rewrite ?Hex, ?Hcbs.
      refine (conj Hno (conj Hclose (conj Htrace (conj _ (conj _ (conj _ _))))));
        [now left | intros _; exact Hlive | congruence | discriminate]. }
    destruct cb; [exfalso; apply Hno; left|].
    assert (Hhere : [Did SaveDatabase] `sublist_of` trace p)
      by (apply Hsave; discriminate).
    unfold fault_invariant, run_save_callback, process_exit. cbn.
    refine (conj _ (conj _ (conj _ (conj _ (conj _ (conj _ _)))))).
    + intros Hin. apply elem_of_nil in Hin. contradiction.
    + reflexivity.
    + rewrite !forallb_app, Htrace. reflexivity.
    + now right.
    + discriminate.
    + congruence.
    + intros _. rewrite <- !app_assoc.
      apply (sublist_app [Did SaveDatabase] (trace p)
               [Got DatabaseSaved; Did (Exit 1)] _ Hhere).
      sublist_concrete.
  - (* the listener cannot have closed: nobody asked it to *)
    rewrite Hclose. unfold fault_invariant. rewrite ?Hex.
    refine (conj Hno (conj Hclose (conj Htrace (conj _ (conj _ (conj Hsave _))))));
      [now left | intros _; exact Hlive | discriminate].
Qed.

Lemma fault_invariant_run (events : list Event) (p : Process) :
  forallb (fun e => negb (is_signal e)) events = true ->
  fault_invariant p -> fault_invariant (run p events).
Proof.
  revert p. induction events as [|e events IH]; intros p Hnone Hinv; cbn.
  - exact Hinv.
  - cbn in Hnone. apply andb_prop in Hnone as [He Hrest].
    apply IH; [exact Hrest|]. apply fault_invariant_step; [|exact Hinv].
    now destruct (is_signal e).
Qed.


End LifecycleFacts.






(** * Further properties of [index.js] *)

(** ** Response headers *)

(** Evaluates [toLowerCase] on the header names written in the code. *)
Ltac lower_names :=
  repeat match goal with
         | |- context [ toLowerCase (String ?c ?s) ] =>
             let v := eval vm_compute in (toLowerCase (String c s)) in
             progress change (toLowerCase (String c s)) with v
         end.

Lemma respond_headers_map (data : Json) (st : State) :
  res_headers (st_res (fst (respond data st)))
  = <["content-type" := "application/json; charset=utf-8"]>
      (<["content-type" := "application/json"]>
         (<["access-control-allow-headers" := "*"]>
            (<["access-control-allow-origin" := "*"]>
               (res_headers (st_res st))))).
Proof.
  cbv [respond bind setHeader modify_res res_json].
  cbn [fst st_res res_headers]. unfold sent_type, header.
  cbn [res_headers]. lower_names. rewrite lookup_insert_eq.
  reflexivity.
Qed.

(** The headers after [respond] (lines 60-65), whatever headers the
    response had and in whatever case their names were written: the two
    CORS headers are ["*"], the content type is JSON with the charset that
    [res.send] adds, and every other header is as it was -- but for ETag
    and Content-Length, which [res.send] computes from the body and which
    are not modelled. *)
Theorem respond_headers (data : Json) (st : State) :
  let before := st_res st in
  let after := st_res (fst (respond data st)) in
  header "Access-Control-Allow-Origin" after = Some "*"
  /\ header "Access-Control-Allow-Headers" after = Some "*"
  /\ header "Content-Type" after = Some "application/json; charset=utf-8"
  /\ (forall name,
        toLowerCase name = "content-type" ->
        header name after = Some "application/json; charset=utf-8")
  /\ (forall name,
        toLowerCase name <> "access-control-allow-origin" ->
        toLowerCase name <> "access-control-allow-headers" ->
        toLowerCase name <> "content-type" ->
        toLowerCase name <> "etag" ->
        toLowerCase name <> "content-length" ->
        header name after = header name before).
Proof.
  intros before after. subst after before. unfold header.
  rewrite respond_headers_map. lower_names.
  refine (conj _ (conj _ (conj _ (conj _ _)))).
  - rewrite !lookup_insert_ne by discriminate. apply lookup_insert_eq.
  - rewrite !lookup_insert_ne by discriminate. apply lookup_insert_eq.
  - apply lookup_insert_eq.
  - intros name ->. apply lookup_insert_eq.
  - intros name H1 H2 H3 _ _. now rewrite !lookup_insert_ne by congruence.
Qed.

(** ** More on the limiter *)

(** Within an open window every pass under a key, admitted or turned away,
    adds one to the key's counter and leaves the end of the window where it
    was: the window is fixed by its first hit and does not slide. *)
Theorem window_is_fixed (opts : RateLimit.Options) (key : string)
    (times : list Z) (store : gmap string RateLimit.Client)
    (hits window : Z) :
  store !! key
  = Some {| RateLimit.totalHits := hits; RateLimit.resetTime := window |} ->
  Forall (fun t => t < window) times ->
  fst (RateLimit.passes opts key times store) !! key
  = Some {| RateLimit.totalHits := hits + Z.of_nat (length times);
            RateLimit.resetTime := window |}.
Proof.
  intros Hentry Hin.
  exact (proj1 (RateLimitFacts.passes_in_window opts key times store hits
                  window Hentry Hin)).
Qed.

Lemma window_is_fixed_witness :
  fst (RateLimit.passes (RateLimit.options 3600 2) "10.0.0.1" [10; 20; 30]
         {["10.0.0.1" := {| RateLimit.totalHits := 1;
                            RateLimit.resetTime := 3600000 |}]})
  !! "10.0.0.1"
  = Some {| RateLimit.totalHits := 1 + Z.of_nat (length [10; 20; 30]);
            RateLimit.resetTime := 3600000 |}.
Proof.
  apply (window_is_fixed (RateLimit.options 3600 2) "10.0.0.1" [10; 20; 30]
           {["10.0.0.1" := {| RateLimit.totalHits := 1;
                              RateLimit.resetTime := 3600000 |}]}
           1 3600000).
  - reflexivity.
  - repeat constructor.
Defined.

(** One pass of the limiter only writes the entry of the key it counts
    under. *)
Lemma limiter_store_other (lib : Lib) (now later : Z) (req : Request)
    (next : Request -> M unit) (on_error : Thrown -> M unit) (st : State)
    (k : string) :
  k <> keyGenerator req ->
  (forall info s,
      st_store (fst (next (set_rateLimit info req) s)) !! k = st_store s !! k) ->
  (forall e s, st_store (fst (on_error e s)) = st_store s) ->
  st_store (fst (limiter lib now later req next on_error st)) !! k
  = st_store st !! k.
Proof.
  intros Hk Hnext Herror. unfold limiter.
  pose proof (RateLimitFacts.pass_store (limiter_options lib) now
                (keyGenerator req) (st_store st)) as Hstore.
  destruct (RateLimit.pass _ now _ _) as [[store1 info] verdict].
  cbn in Hstore. subst store1.
  destruct verdict as [|info']; cbv beta iota zeta.
  - rewrite Hnext. cbn. now rewrite lookup_insert_ne by congruence.
  - rewrite limiter_catch_store by exact Herror.
    cbn. now rewrite lookup_insert_ne by congruence.
Qed.

(** The routes only write the entry of the key that the stream-listing
    route's own pass counts under. *)
Lemma dispatch_store_other (lib : Lib) (t2 t3 : Z) (req : Request) (st : State)
    (k : string) :
  k <> keyGenerator req ->
  st_store (fst (dispatch lib t2 t3 req st)) !! k = st_store st !! k.
Proof.
  intros Hk.
  destruct (req_target req) as [| | userConfig type id | | | |] eqn:Htarget;
    try (rewrite dispatch_store;
         [reflexivity | intros; rewrite Htarget; discriminate]).
  unfold dispatch. rewrite Htarget, stream_route_store.
  unfold RateLimit.counted. now rewrite lookup_insert_ne by congruence.
Qed.

(** A request only ever touches the counters of its own connection
    address and of its own CF-Connecting-IP value: the budget of every
    other client is as it was, whatever the route and whatever the
    outcome. *)
Theorem serve_touches_own_keys (lib : Lib) (t1 t2 t3 : Z) (req : Request)
    (st : State) (k : string) :
  req_clientIp req = None ->
  k <> req_ip req ->
  req_cf_connecting_ip req <> Some k ->
  st_store (fst (serve lib t1 t2 t3 req st)) !! k = st_store st !! k.
Proof.
  intros Hclient Hip Hcf. unfold serve, app.
  rewrite limiter_store_other.
  - reflexivity.
  - now rewrite (global_key req Hclient).
  - intros info s. apply dispatch_store_other.
    rewrite route_key. cbn [set_rateLimit req_cf_connecting_ip req_ip].
    destruct (req_cf_connecting_ip req) as [h|]; [|exact Hip].
    destruct (truthy h); [congruence | exact Hip].
  - intros e s. apply error_middleware_store.
Qed.

Lemma serve_touches_own_keys_witness :
  st_store (fst (serve (Sample.lib 150) 0 0 0
                   (Sample.stream_request "10.0.0.1" (Some "203.0.113.7"))
                   Sample.state0)) !! "192.0.2.1"
  = st_store Sample.state0 !! "192.0.2.1".
Proof.
  apply (serve_touches_own_keys (Sample.lib 150) 0 0 0
           (Sample.stream_request "10.0.0.1" (Some "203.0.113.7"))
           Sample.state0 "192.0.2.1").
  - reflexivity.
  - discriminate.
  - discriminate.
Defined.

(** [Math.ceil] of a quotient by a positive number: the least multiple
    that covers the dividend. *)
Lemma ceil_div_bounds (a b : Z) :
  0 < b -> b * (ceil_div a b - 1) < a <= b * ceil_div a b.
Proof.
  intros Hb. unfold ceil_div.
  pose proof (Z.div_mod (- a) b ltac:(lia)) as Hdiv.
  pose proof (Z.mod_pos_bound (- a) b Hb) as Hmod.
  lia.
Qed.

(** The synthetic entry sent to a stream-listing request that the route's
    own limiter pass turns away (lines 76-81).  The handler reads the
    clock itself, after the hit was counted: the title names the whole
    number of minutes that covers the time between that reading and the
    end of the window.  It is at least 1 as long as the window is still
    open at that reading, and 0 or less once the window has ended. *)
Theorem limited_title_minutes (lib : Lib) (now later : Z) (req : Request)
    (userConfig type id : string) (st : State) :
  RateLimit.limit (limiter_options lib)
  < RateLimit.live_hits now (keyGenerator req) (st_store st) + 1 ->
  let left := RateLimit.window_end (limiter_options lib) now
                (keyGenerator req) (st_store st) - later in
  exists minutes,
    res_body (st_res (fst (stream_route lib now later req userConfig type id
                             st)))
    = JsonBody
        (JObj [("streams",
                JArr [JObj [("name", JStr (config_addonName lib));
                            ("title", JStr (limited_title minutes));
                            ("url", JStr "#")]])])
    /\ 60000 * (minutes - 1) < left <= 60000 * minutes
    /\ (0 < left -> 1 <= minutes)
    /\ (left <= 0 -> minutes <= 0).
Proof.
  intros Hover left.
  destruct (route_limit_is_synthetic lib now later req userConfig type id st
              Hover)
    as (st' & Hrun & _ & Hbody & _).
  rewrite Hrun. cbn [fst]. rewrite Hbody. fold left.
  exists (ceil_div left 60000). split; [reflexivity|].
  pose proof (ceil_div_bounds left 60000 ltac:(lia)). lia.
Qed.

Lemma limited_title_minutes_witness :
  let lib := Sample.lib 1 in
  let req := set_clientIp (Sample.stream_request "10.0.0.1" None) in
  let st :=
    {| st_store := {["10.0.0.1" := {| RateLimit.totalHits := 1;
                                      RateLimit.resetTime := 3600000 |}]};
       st_streams := None; st_console := []; st_res := fresh_response |} in
  let left := RateLimit.window_end (limiter_options lib) 3500000
                (keyGenerator req) (st_store st) - 3600000 in
  exists minutes,
    res_body (st_res (fst (stream_route lib 3500000 3600000 req "e30=" "movie"
                             "tt0133093" st)))
    = JsonBody
        (JObj [("streams",
                JArr [JObj [("name", JStr (config_addonName lib));
                            ("title", JStr (limited_title minutes));
                            ("url", JStr "#")]])])
    /\ 60000 * (minutes - 1) < left <= 60000 * minutes
    /\ (0 < left -> 1 <= minutes)
    /\ (left <= 0 -> minutes <= 0).
Proof.
  apply (limited_title_minutes (Sample.lib 1) 3500000 3600000
           (set_clientIp (Sample.stream_request "10.0.0.1" None))
           "e30=" "movie" "tt0133093").
  vm_compute. reflexivity.
Defined.

(** ** More on the stream-listing handler *)




Lemma insert_each_stops (lib : Lib) (pre : list Stream) :
  forall (bad : Stream) (rest : list Stream) (st st1 st2 : State)
         (stamped : list Stream) (e : Caught),
    insert_each lib pre st = (st1, Returns stamped) ->
    collection_insert lib bad st1 = (st2, Throws e) ->
    insert_each lib (pre ++ bad :: rest) st = (st2, Throws e).
Proof.
  induction pre as [|stream pre IH];
    intros bad rest st st1 st2 stamped e Hpre Hbad.
  - injection Hpre as <- _. cbn. unfold bind. now rewrite Hbad.
  - cbn in Hpre |- *. unfold bind in Hpre |- *.
    destruct (collection_insert lib stream st) as [st3 [doc|e0]];
      [|discriminate].
    destruct (insert_each lib pre st3) as [st4 [pre'|e0]] eqn:Hrest;
      [|discriminate].
    injection Hpre as <- _.
    now rewrite (IH bad rest st3 st4 st2 pre' e Hrest Hbad).
Qed.

Lemma collection_insert_throws (lib : Lib) (doc : Stream) (st st' : State)
    (e : Caught) :
  collection_insert lib doc st = (st', Throws e) -> st' = st.
Proof.
  unfold collection_insert. destruct (st_streams st) as [coll|].
  - destruct (insertOne lib coll doc) as [[coll' doc']|e0]; congruence.
  - congruence.
Qed.

(** The inserts of one request are not undone when a later one throws:
    when the first streams of the resolved list are stored and the insert
    of a later one throws, the caller gets the empty list, the error is
    logged, and the store keeps what the earlier inserts put in it. *)
Theorem stream_inserts_not_undone (lib : Lib) (req : Request)
    (userConfig type id : string) (st st1 st2 : State) (parsed : Json)
    (pre rest stamped : list Stream) (bad : Stream) (e : Caught) :
  decodeBlob lib userConfig = Returns parsed ->
  parsed <> JNull ->
  getStreams lib {| uc_parsed := parsed; uc_ip := req_clientIp req |}
    type id (req_protocol req +:+ "://" +:+ req_host req)
  = Returns (pre ++ bad :: rest) ->
  insert_each lib pre st = (st1, Returns stamped) ->
  collection_insert lib bad st1 = (st2, Throws e) ->
  exists st',
    stream_handler lib req userConfig type id st = (st', Returns tt)
    /\ res_body (st_res st') = JsonBody (streams_body [])
    /\ st_streams st' = st_streams st1
    /\ st_console st' = st_console st ++ [LogCaught id e].
Proof.
  intros Hdecode Hnonnull Hstreams Hpre Hbad.
  pose proof (collection_insert_throws lib bad st1 st2 e Hbad) as ->.
  pose proof (insert_each_stops lib pre bad rest st st1 st1 stamped e
                Hpre Hbad) as Hall.
  pose proof (insert_each_frame lib pre st) as Hframe.
  rewrite Hpre in Hframe. cbn in Hframe. destruct Hframe as (_ & Hc & _).
  destruct (stream_catch_runs id e st1) as (st' & Hcatch & _).
  exists st'. split.
  - unfold stream_handler, try_catch, bind, lift, await. rewrite Hdecode.
    destruct (Object_assign_ip_cases parsed (req_clientIp req) st)
      as [[Hnull _]|[_ Huc]]; [contradiction|].
    rewrite Huc, Hstreams, Hall. exact Hcatch.
  - cbv [respond bind setHeader modify_res res_json console_log] in Hcatch.
    injection Hcatch as <-. cbn. now rewrite Hc.
Qed.

Lemma stream_inserts_not_undone_witness :
  let req := set_clientIp (Sample.stream_request "10.0.0.1" None) in
  let stamped :=
    Sample.stream1 ++ [("meta", JObj [("revision", JNum 0); ("created", JNum 0)]);
                       ("$loki", JNum 1)] in
  let st1 :=
    {| st_store := ∅;
       st_streams := Some {| coll_data := [stamped]; coll_maxId := 1 |};
       st_console := []; st_res := fresh_response |} in
  exists st',
    stream_handler Cases.lib_two req "e30=" "movie" "tt0133093" Sample.state0
    = (st', Returns tt)
    /\ res_body (st_res st') = JsonBody (streams_body [])
    /\ st_streams st' = st_streams st1
    /\ st_console st'
       = st_console Sample.state0
         ++ [LogCaught "tt0133093"
               (Value
                  (mkThrown "Error"
                     (Some "Document is already in collection, please use update()")))].
Proof.
  intros req stamped st1.
  apply (stream_inserts_not_undone Cases.lib_two req
           "e30=" "movie" "tt0133093" Sample.state0 st1 st1 (JObj [])
           [Sample.stream1] [] [stamped] Cases.stale).
  - reflexivity.
  - discriminate.
  - reflexivity.
  - reflexivity.
  - reflexivity.
Defined.

(** ** More on the download route *)

(** The 404 middleware and the error middleware always answer. *)
Lemma not_found_runs (req : Request) (st : State) :
  exists st',
    not_found req st = (st', Returns tt)
    /\ st_store st' = st_store st
    /\ st_streams st' = st_streams st
    /\ st_console st' = st_console st
    /\ res_status (st_res st') = 404
    /\ res_body (st_res st')
       = (if req_xhr req
          then JsonBody (JObj [("error", JStr "Page not found!")])
          else TextBody "Page not found!")
    /\ res_sent (st_res st') = true
    /\ location (st_res st') = location (st_res st).
Proof.
  unfold not_found.
  destruct (req_xhr req); eexists; (split; [reflexivity|]);
    cbn [fst st_store st_streams st_console st_res res_status res_body
         res_sent];
    repeat split;
    unfold location, header; cbn [res_headers st_res]; lower_names;
    now rewrite lookup_insert_ne by discriminate.
Qed.

Lemma error_middleware_runs (req : Request) (err : Thrown) (st : State) :
  exists st',
    error_middleware req err st = (st', Returns tt)
    /\ st_console st' = st_console st ++ [LogStack err]
    /\ res_status (st_res st') = 500
    /\ res_sent (st_res st') = true.
Proof.
  unfold error_middleware, bind. cbn [console_log].
  destruct (req_xhr req); eexists; (split; [reflexivity | cbn; tauto]).
Qed.

(** A request to the download path with any method but GET and HEAD, once
    past the limiter, resolves nothing: it is answered by the 404
    middleware, nothing is logged and the store is not touched. *)
Theorem download_other_method (lib : Lib) (t1 t2 t3 : Z) (req : Request)
    (userConfig type id torrentId : string) (st : State) :
  req_target req = TDownload userConfig type id torrentId ->
  req_method req <> "GET" ->
  req_method req <> "HEAD" ->
  RateLimit.live_hits t1 (keyGenerator req) (st_store st) + 1
  <= RateLimit.limit (limiter_options lib) ->
  exists st',
    serve lib t1 t2 t3 req st = (st', Returns tt)
    /\ res_status (st_res st') = 404
    /\ res_body (st_res st')
       = (if req_xhr req
          then JsonBody (JObj [("error", JStr "Page not found!")])
          else TextBody "Page not found!")
    /\ location (st_res st') = None
    /\ st_console st' = st_console st
    /\ st_streams st' = st_streams st.
Proof.
  intros Htarget Hget Hhead Hadmit.
  destruct (serve_admitted lib t1 t2 t3 req st Hadmit) as (info & ->).
  unfold dispatch. cbn [req_target set_clientIp set_rateLimit].
  rewrite Htarget. unfold download_handler.
  cbn [req_method set_clientIp set_rateLimit].
  assert (Hguard : negb (String.eqb (req_method req) "GET")
                   && negb (String.eqb (req_method req) "HEAD") = true).
  { destruct (String.eqb_spec (req_method req) "GET"); [contradiction|].
    now destruct (String.eqb_spec (req_method req) "HEAD"). }
  rewrite Hguard.
  match goal with
  | |- context [ not_found ?r ] =>
      match goal with
      | |- context [ async _ ?s ] =>
          destruct (not_found_runs r s)
            as (st' & Hrun & _ & Hdb & Hlog & Hstatus & Hbody & _ & Hloc)
      end
  end.
  exists st'. rewrite (async_returns _ _ _ Hrun).
  cbn [req_xhr set_clientIp set_rateLimit] in Hbody.
  rewrite Hstatus, Hbody, Hloc, Hlog, Hdb. repeat split.
Qed.

Lemma download_other_method_witness :
  let req := incoming "POST" (TDownload "e30=" "movie" "tt0133093" "t1")
               "10.0.0.1" None in
  exists st',
    serve (Sample.lib 150) 0 0 0 req Sample.state0 = (st', Returns tt)
    /\ res_status (st_res st') = 404
    /\ res_body (st_res st')
       = (if req_xhr req
          then JsonBody (JObj [("error", JStr "Page not found!")])
          else TextBody "Page not found!")
    /\ location (st_res st') = None
    /\ st_console st' = st_console Sample.state0
    /\ st_streams st' = st_streams Sample.state0.
Proof.
  apply (download_other_method (Sample.lib 150) 0 0 0
           (incoming "POST" (TDownload "e30=" "movie" "tt0133093" "t1")
              "10.0.0.1" None)
           "e30=" "movie" "tt0133093" "t1" Sample.state0).
  - reflexivity.
  - discriminate.
  - discriminate.
  - vm_compute. discriminate.
Defined.

(** A GET or HEAD download request that the limiter admits and that
    resolves is redirected (302): the Location header is the URL the
    provider returned, unredacted, as Express percent-encodes it, while
    the console gets the one redacted line. *)
Theorem download_resolved_redirect (lib : Lib) (t1 t2 t3 : Z) (req : Request)
    (userConfig type id torrentId : string) (st : State)
    (url : string) (parsed : URL) :
  req_target req = TDownload userConfig type id torrentId ->
  req_method req = "GET" \/ req_method req = "HEAD" ->
  RateLimit.live_hits t1 (keyGenerator req) (st_store st) + 1
  <= RateLimit.limit (limiter_options lib) ->
  resolves lib (set_clientIp req) userConfig type id torrentId url parsed ->
  exists st',
    serve lib t1 t2 t3 req st = (st', Returns tt)
    /\ res_status (st_res st') = 302
    /\ location (st_res st') = Some (encodeUrl lib url)
    /\ st_console st' = st_console st ++ [LogLine (redirect_log id parsed)].
Proof.
  intros Htarget Hmethod Hadmit Hresolves.
  destruct (serve_admitted lib t1 t2 t3 req st Hadmit) as (info & ->).
  unfold dispatch. cbn [req_target set_clientIp set_rateLimit].
  rewrite Htarget.
  match goal with
  | |- context [ download_handler lib ?r userConfig type id torrentId ?n ] =>
      match goal with
      | |- context [ async _ ?s ] =>
          destruct (download_success_log lib r userConfig type id torrentId
                      n s url parsed Hmethod Hresolves)
            as (st' & Hrun & _ & _ & Hlog & Hstatus & _ & Hloc)
      end
  end.
  exists st'. rewrite (async_returns _ _ _ Hrun). cbn in Hlog. tauto.
Qed.

Lemma download_resolved_redirect_witness :
  exists st',
    serve (Sample.lib 150) 0 0 0 (Sample.download_request "t1") Sample.state0
    = (st', Returns tt)
    /\ res_status (st_res st') = 302
    /\ location (st_res st')
       = Some (encodeUrl (Sample.lib 150) Sample.resolved_url)
    /\ st_console st'
       = st_console Sample.state0
         ++ [LogLine (redirect_log "tt0133093" Sample.resolved_parsed)].
Proof.
  apply (download_resolved_redirect (Sample.lib 150) 0 0 0
           (Sample.download_request "t1") "e30=" "movie" "tt0133093" "t1"
           Sample.state0 Sample.resolved_url Sample.resolved_parsed).
  - reflexivity.
  - left. reflexivity.
  - vm_compute. discriminate.
  - exists (JObj []). repeat split; [discriminate].
Defined.

(** A GET or HEAD download request that the limiter admits and for which
    the provider rejects with [undefined] or [null] is never answered:
    the catch block logs the value and then fails itself, with a
    [TypeError], on reading [err.message]; that error is only reported by
    the ['unhandledRejection'] listener. *)
Theorem download_nullish_rejection_unanswered (lib : Lib) (t1 t2 t3 : Z)
    (req : Request) (userConfig type id torrentId : string) (st : State)
    (parsed : Json) (reason : Caught) :
  req_target req = TDownload userConfig type id torrentId ->
  req_method req = "GET" \/ req_method req = "HEAD" ->
  RateLimit.live_hits t1 (keyGenerator req) (st_store st) + 1
  <= RateLimit.limit (limiter_options lib) ->
  decodeBlob lib userConfig = Returns parsed ->
  parsed <> JNull ->
  getDownload lib
    {| uc_parsed := parsed; uc_ip := req_clientIp (set_clientIp req) |}
    type id torrentId = Throws reason ->
  reason = Undefined \/ reason = Null ->
  exists st' e,
    serve lib t1 t2 t3 req st = (st', Returns tt)
    /\ res_sent (st_res st') = false
    /\ res_body (st_res st') = NoBody
    /\ location (st_res st') = None
    /\ st_console st'
       = st_console st
         ++ [LogCaught id reason; LogUnhandledRejection (Value e)]
    /\ err_name e = "TypeError".
Proof.
  intros Htarget Hmethod Hadmit Hdecode Hnonnull Hreject Hnullish.
  destruct (serve_admitted lib t1 t2 t3 req st Hadmit) as (info & ->).
  unfold dispatch. cbn [req_target set_clientIp set_rateLimit].
  rewrite Htarget. unfold download_handler.
  cbn [req_method set_clientIp set_rateLimit].
  assert (Hguard : negb (String.eqb (req_method req) "GET")
                   && negb (String.eqb (req_method req) "HEAD") = false).
  { destruct Hmethod as [-> | ->]; reflexivity. }
  rewrite Hguard.
  unfold async, try_catch, download_try, bind, lift, await.
  rewrite Hdecode.
  match goal with
  | |- context [ Object_assign_ip parsed ?ip ?s ] =>
      destruct (Object_assign_ip_cases parsed ip s)
        as [[Hnull _]|[_ Huc]]; [contradiction|]
  end.
  rewrite Huc. cbn [req_clientIp set_clientIp] in Hreject |- *.
  cbn [req_cf_connecting_ip req_ip set_rateLimit]. rewrite Hreject.
  destruct Hnullish as [-> | ->];
    [eexists; exists (TypeError_undefined "message")
    |eexists; exists (TypeError_null "message")];
    (split; [reflexivity|]);
    cbn [fst st_res st_console res_sent res_body set_store begin_request];
    (refine (conj eq_refl (conj eq_refl (conj _ (conj _ eq_refl))));
     [apply lookup_empty | now rewrite <- app_assoc]).
Qed.

Lemma download_nullish_rejection_unanswered_witness :
  exists st' e,
    serve (Sample.lib 150) 0 0 0 (Sample.download_request "t3") Sample.state0
    = (st', Returns tt)
    /\ res_sent (st_res st') = false
    /\ res_body (st_res st') = NoBody
    /\ location (st_res st') = None
    /\ st_console st'
       = st_console Sample.state0
         ++ [LogCaught "tt0133093" Undefined; LogUnhandledRejection (Value e)]
    /\ err_name e = "TypeError".
Proof.
  apply (download_nullish_rejection_unanswered (Sample.lib 150) 0 0 0
           (Sample.download_request "t3") "e30=" "movie" "tt0133093" "t3"
           Sample.state0 (JObj []) Undefined).
  - reflexivity.
  - left. reflexivity.
  - vm_compute. discriminate.
  - reflexivity.
  - discriminate.
  - reflexivity.
  - left. reflexivity.
Defined.

(** ** The manifest route *)

(** The manifest handler has no [try]: when the configuration segment of
    the path cannot be decoded, or names no provider, the exception leaves
    the handler.  For a request the limiter admits, no response is ever
    written, and the only trace is the line of the ['unhandledRejection']
    listener -- whereas the stream-listing route answers the very same
    segment with an empty list. *)
Theorem manifest_failure_escapes (lib : Lib) (t1 t2 t3 : Z) (req : Request)
    (blob : string) (st : State) (reason : Caught) :
  req_target req = TManifest (Some blob) ->
  truthy blob = true ->
  (exists e, decodeBlob lib blob = Throws e /\ reason = Value e)
  \/ (exists parsed, decodeBlob lib blob = Returns parsed
                     /\ debrid_shortName lib parsed = Throws reason) ->
  RateLimit.live_hits t1 (keyGenerator req) (st_store st) + 1
  <= RateLimit.limit (limiter_options lib) ->
  exists st',
    serve lib t1 t2 t3 req st = (st', Returns tt)
    /\ res_sent (st_res st') = false
    /\ res_body (st_res st') = NoBody
    /\ st_console st' = st_console st ++ [LogUnhandledRejection reason].
Proof.
  intros Htarget Hblob Hfail Hadmit.
  destruct (serve_admitted lib t1 t2 t3 req st Hadmit) as (info & ->).
  unfold dispatch. cbn [req_target set_clientIp set_rateLimit].
  rewrite Htarget.
  unfold async, try_catch, manifest, bind, lift, await. rewrite Hblob.
  destruct Hfail as [(e & Hdecode & ->) | (parsed & Hdecode & Hname)].
  - rewrite Hdecode. eexists. split; [reflexivity | cbn; tauto].
  - rewrite Hdecode, Hname. eexists. split; [reflexivity | cbn; tauto].
Qed.

Lemma manifest_failure_escapes_witness :
  exists st',
    serve (Sample.lib 150) 0 0 0
      (incoming "GET" (TManifest (Some "bm90LWpzb24=")) "10.0.0.1" None)
      Sample.state0
    = (st', Returns tt)
    /\ res_sent (st_res st') = false
    /\ res_body (st_res st') = NoBody
    /\ st_console st'
       = st_console Sample.state0
         ++ [LogUnhandledRejection (Value Sample.SyntaxError)].
Proof.
  apply (manifest_failure_escapes (Sample.lib 150) 0 0 0
           (incoming "GET" (TManifest (Some "bm90LWpzb24=")) "10.0.0.1" None)
           "bm90LWpzb24=" Sample.state0 (Value Sample.SyntaxError)).
  - reflexivity.
  - reflexivity.
  - left. exists Sample.SyntaxError. split; reflexivity.
  - vm_compute. discriminate.
Defined.

(** The manifest of a configured addon: when the segment decodes and names
    a provider, the manifest is sent with status 200 and the CORS headers,
    and its name is the addon's name, a space, and the provider's short
    name; every other field is as without configuration. *)
Theorem manifest_configured_name (lib : Lib) (req : Request) (blob : string)
    (st : State) (parsed : Json) (shortName : string) :
  truthy blob = true ->
  decodeBlob lib blob = Returns parsed ->
  debrid_shortName lib parsed = Returns shortName ->
  exists st',
    manifest lib req (Some blob) st = (st', Returns tt)
    /\ res_status (st_res st') = res_status (st_res st)
    /\ res_body (st_res st')
       = JsonBody (manifest_json lib req
                     (config_addonName lib +:+ " " +:+ shortName))
    /\ header "Access-Control-Allow-Origin" (st_res st') = Some "*"
    /\ (forall name,
          manifest_json lib req name
          = match manifest_json lib req (config_addonName lib) with
            | JObj fields =>
                JObj (map (fun f => if String.eqb (fst f) "name"
                                    then ("name", JStr name) else f) fields)
            | other => other
            end).
Proof.
  intros Hblob Hdecode Hname.
  unfold manifest, bind, lift, await. rewrite Hblob, Hdecode, Hname.
  cbn [ret].
  destruct (respond_runs
              (manifest_json lib req
                 (config_addonName lib +:+ " " +:+ shortName)) st)
    as (st' & Hrun & _ & _ & _ & Hstatus & Hbody & _).
  pose proof (respond_headers_map
                (manifest_json lib req
                   (config_addonName lib +:+ " " +:+ shortName)) st)
    as Hmap.
  rewrite Hrun in Hmap. cbn [fst] in Hmap.
  exists st'. rewrite Hrun. repeat split; try assumption.
  unfold header. rewrite Hmap. lower_names.
  rewrite !lookup_insert_ne by discriminate. apply lookup_insert_eq.
Qed.

Lemma manifest_configured_name_witness :
  let req := set_clientIp (Sample.other_request "10.0.0.1") in
  exists st',
    manifest (Sample.lib 150) req (Some "e30=") Sample.state0
    = (st', Returns tt)
    /\ res_status (st_res st') = res_status (st_res Sample.state0)
    /\ res_body (st_res st')
       = JsonBody (manifest_json (Sample.lib 150) req
                     (config_addonName (Sample.lib 150) +:+ " " +:+ "RD"))
    /\ header "Access-Control-Allow-Origin" (st_res st') = Some "*"
    /\ (forall name,
          manifest_json (Sample.lib 150) req name
          = match manifest_json (Sample.lib 150) req
                    (config_addonName (Sample.lib 150)) with
            | JObj fields =>
                JObj (map (fun f => if String.eqb (fst f) "name"
                                    then ("name", JStr name) else f) fields)
            | other => other
            end).
Proof.
  apply (manifest_configured_name (Sample.lib 150)
           (set_clientIp (Sample.other_request "10.0.0.1")) "e30="
           Sample.state0 (JObj []) "RD").
  - reflexivity.
  - reflexivity.
  - reflexivity.
Defined.

(** ** Which requests are answered *)

(** What the [try] block of the download handler throws is an error
    object, unless it is what the provider rejected with. *)
Lemma download_try_throws (lib : Lib) (req : Request)
    (userConfig type id torrentId : string) (st st1 : State) (err : Caught) :
  download_try lib req userConfig type id torrentId st = (st1, Throws err) ->
  (exists e, err = Value e)
  \/ (exists uc, getDownload lib uc type id torrentId = Throws err).
Proof.
  unfold download_try, bind, lift, await.
  destruct (decodeBlob lib userConfig) as [parsed|e0];
    [|intros [= _ <-]; left; eexists; reflexivity].
  unfold Object_assign_ip.
  destruct parsed;
    try (intros [= _ <-]; left; eexists; reflexivity);
    cbn [ret];
    (destruct (getDownload lib _ type id torrentId) as [url|e2] eqn:Hurl;
     [|intros [= _ <-]; right; eexists; exact Hurl]);
    (destruct (newURL lib url) as [parsedUrl|e3];
     [|intros [= _ <-]; left; eexists; reflexivity]);
    discriminate.
Qed.

Lemma download_handler_answers (lib : Lib) (req : Request)
    (userConfig type id torrentId : string) (st : State) :
  (forall uc,
      getDownload lib uc type id torrentId <> Throws Undefined
      /\ getDownload lib uc type id torrentId <> Throws Null) ->
  exists st',
    download_handler lib req userConfig type id torrentId (not_found req) st
    = (st', Returns tt)
    /\ res_sent (st_res st') = true.
Proof.
  intros Hprovider. unfold download_handler.
  destruct (negb _ && negb _).
  { destruct (not_found_runs req st) as (st' & -> & _ & _ & _ & _ & _ & Hsent & _).
    now exists st'. }
  unfold try_catch.
  destruct (download_try lib req userConfig type id torrentId st)
    as [st1 [[]|err]] eqn:Htry.
  - (* the try block ended with its redirect *)
    exists st1. split; [reflexivity|].
    revert Htry. unfold download_try, bind, lift, await.
    destruct (decodeBlob lib userConfig) as [parsed|e0]; [|discriminate].
    destruct (Object_assign_ip_cases parsed (req_clientIp req) st)
      as [[_ [e1 ->]]|[_ ->]]; [discriminate|].
    destruct (getDownload lib _ type id torrentId) as [url|e2]; [|discriminate].
    destruct (newURL lib url) as [parsedUrl|e3]; [|discriminate].
    cbn. now intros [= <-].
  - (* the catch block redirects to a canned video *)
    destruct (download_try_throws lib req userConfig type id torrentId
                st st1 err Htry) as [[e ->] | [uc Huc]].
    + unfold download_catch, bind. cbn [console_log].
      match goal with
      | |- context [ res_redirect lib ?url ?s ] =>
          destruct (location_after_redirect lib url s)
            as (st' & -> & _ & _ & _ & _ & Hsent & _)
      end.
      now exists st'.
    + destruct (Hprovider uc) as [Hundefined Hnull].
      destruct err as [e| |]; [|contradiction|contradiction].
      unfold download_catch, bind. cbn [console_log].
      match goal with
      | |- context [ res_redirect lib ?url ?s ] =>
          destruct (location_after_redirect lib url s)
            as (st' & -> & _ & _ & _ & _ & Hsent & _)
      end.
      now exists st'.
Qed.

(** Every request is answered, with two exceptions: a manifest request,
    whose handler catches nothing, and a download for which the provider
    rejects with [undefined] or [null].  Whether the limiter admits the
    request or turns it away, whatever else the provider and the store do
    or throw, some handler or middleware of lines 89-264 sends a
    response. *)
Theorem serve_answers (lib : Lib) (t1 t2 t3 : Z) (req : Request) (st : State) :
  req_route req = None ->
  (forall userConfig, req_target req <> TManifest userConfig) ->
  (forall userConfig type id torrentId uc,
      req_target req = TDownload userConfig type id torrentId ->
      getDownload lib uc type id torrentId <> Throws Undefined
      /\ getDownload lib uc type id torrentId <> Throws Null) ->
  exists st',
    serve lib t1 t2 t3 req st = (st', Returns tt)
    /\ res_sent (st_res st') = true.
Proof.
  intros Hroute Hmanifest Hprovider.
  destruct (Z_lt_le_dec (RateLimit.limit (limiter_options lib))
              (RateLimit.live_hits t1 (keyGenerator req) (st_store st) + 1))
    as [Hover | Hadmit].
  { destruct (global_limit_is_500 lib t1 t2 t3 req st Hroute Hover)
      as (st' & Hrun & _ & _ & _ & Hsent).
    now exists st'. }
  destruct (serve_admitted lib t1 t2 t3 req st Hadmit) as (info & ->).
  unfold dispatch. cbn [req_target set_clientIp set_rateLimit].
  destruct (req_target req)
    as [|userConfig|userConfig type id|type id|userConfig type id torrentId
        |route param|] eqn:Htarget.
  - match goal with
    | |- context [ res_redirect lib ?url ?s ] =>
        destruct (location_after_redirect lib url s)
          as (st' & -> & _ & _ & _ & _ & Hsent & _)
    end.
    now exists st'.
  - now destruct (Hmanifest userConfig).
  - match goal with
    | |- context [ stream_route lib t2 t3 ?r userConfig type id ?s ] =>
        destruct (stream_route_runs lib t2 t3 r userConfig type id s)
          as (st' & items & -> & _ & Hsent & _)
    end.
    now exists st'.
  - unfold unconfigured_stream.
    match goal with
    | |- context [ respond ?data ] =>
        match goal with
        | |- context [ async _ ?s ] =>
            destruct (respond_runs data s)
              as (st' & Hrun & _ & _ & _ & _ & _ & Hsent)
        end
    end.
    exists st'. now rewrite (async_returns _ _ _ Hrun).
  - match goal with
    | |- context [ download_handler lib ?r userConfig type id torrentId _ ] =>
        match goal with
        | |- context [ async _ ?s ] =>
            destruct (download_handler_answers lib r userConfig type id
                        torrentId s)
              as (st' & Hrun & Hsent)
        end
    end.
    { intros uc. now apply (Hprovider userConfig type id torrentId uc). }
    exists st'. now rewrite (async_returns _ _ _ Hrun).
  - match goal with
    | |- context [ error_middleware ?r ?e ?s ] =>
        destruct (error_middleware_runs r e s) as (st' & -> & _ & _ & Hsent)
    end.
    now exists st'.
  - match goal with
    | |- context [ not_found ?r ?s ] =>
        destruct (not_found_runs r s)
          as (st' & -> & _ & _ & _ & _ & _ & Hsent & _)
    end.
    now exists st'.
Qed.

Lemma serve_answers_witness :
  exists st',
    serve (Sample.lib 150) 0 0 0 (Sample.download_request "t9") Sample.state0
    = (st', Returns tt)
    /\ res_sent (st_res st') = true.
Proof.
  apply (serve_answers (Sample.lib 150) 0 0 0 (Sample.download_request "t9")
           Sample.state0).
  - reflexivity.
  - intros userConfig. discriminate.
  - intros userConfig type id torrentId uc [= _ _ _ <-].
    split; discriminate.
Defined.

(** ** More on [cut] *)

Lemma substring_short (n : nat) (s : string) :
  (String.length s <= n)%nat -> String.substring 0 n s = s.
Proof.
  revert n. induction s as [|c s IH]; intros n Hlen.
  - now destruct n.
  - destruct n as [|n]; cbn in Hlen; [lia|].
    cbn. f_equal. apply IH. lia.
Qed.

(** A value of at most five characters is not redacted at all: [cut]
    prints it whole on both sides of the stars.  A query string such as
    [?k=1] therefore appears in the log in full. *)
Theorem cut_short_value_printed (value : string) :
  value <> "" ->
  (String.length value <= 5)%nat ->
  cut value = value +:+ "******" +:+ value.
Proof.
  intros Hnonempty Hlen. unfold cut, substr_head, substr_tail.
  destruct value as [|c rest]; [contradiction|]. cbn [truthy].
  replace (String.length (String c rest) - 5)%nat with 0%nat by lia.
  now rewrite (substring_short 5 (String c rest) Hlen).
Qed.

Lemma cut_short_value_printed_witness :
  cut "?k=1" = "?k=1" +:+ "******" +:+ "?k=1".
Proof.
  apply (cut_short_value_printed "?k=1").
  - discriminate.
  - cbn. lia.
Defined.

Lemma cut_masks_middle_witness :
  cut ("/dl/0" +:+ "123456789abcdef/movi" +:+ "e.mkv")
  = "/dl/0" +:+ "******" +:+ "e.mkv".
Proof.
  apply (cut_masks_middle "/dl/0" "123456789abcdef/movi" "e.mkv").
  - reflexivity.
  - reflexivity.
Defined.

(** ** More on the life of the process *)

Module LifecycleMore.
Import Lifecycle.

Lemma calls_got (e : Event) (p : Process) : calls (got e p) = calls p.
Proof. unfold calls, got. cbn. rewrite omap_app. cbn. apply app_nil_r. Qed.

(** Nothing but a termination signal or an uncaught exception makes the
    process do anything: through any sequence of unhandled rejections and
    stray completion events it neither exits nor stops a timer nor closes
    the listener nor touches the database. *)
Theorem no_exit_without_cause (events : list Event) :
  forallb (fun e => match e with
                    | Signal _ | UncaughtException => false
                    | _ => true
                    end) events = true ->
  let p := run running events in
  exited p = None
  /\ active p = intervals p
  /\ listening p = true
  /\ calls p = [].
Proof.
  intros Hquiet p. subst p.
  assert (Hgen : forall q,
             exited q = None /\ save_callbacks q = []
             /\ close_callbacks q = O /\ active q = intervals q
             /\ listening q = true /\ calls q = [] ->
             let q' := run q events in
             exited q' = None /\ save_callbacks q' = []
             /\ close_callbacks q' = O /\ active q' = intervals q'
             /\ listening q' = true /\ calls q' = []).
  { induction events as [|e events IH]; intros q Hq; [exact Hq|].
    cbn in Hquiet. apply andb_prop in Hquiet as [He Hrest].
    cbn. apply (IH Hrest).
    destruct Hq as (Hex & Hsave & Hclose & Hactive & Hlisten & Hcalls).
    unfold step. rewrite Hex.
    destruct e; try discriminate He.
    - unfold unhandledRejection, calls. cbn. rewrite !omap_app. cbn.
      rewrite !app_nil_r. fold (calls q). tauto.
    - rewrite Hsave. tauto.
    - rewrite Hclose. tauto. }
  destruct (Hgen running) as (H1 & _ & _ & H4 & H5 & H6).
  - cbn. tauto.
  - tauto.
Qed.

Lemma no_exit_without_cause_witness :
  let p := run running [UnhandledRejection; DatabaseSaved; ListenerClosed;
                        UnhandledRejection] in
  exited p = None
  /\ active p = intervals p
  /\ listening p = true
  /\ calls p = [].
Proof.
  apply (no_exit_without_cause
           [UnhandledRejection; DatabaseSaved; ListenerClosed;
            UnhandledRejection]).
  reflexivity.
Defined.

Lemma cleared_step (p : Process) (e : Event) :
  active p = [] -> active (step p e) = [].
Proof.
  intros Hnone. unfold step.
  destruct (exited p); [exact Hnone|].
  destruct e; cbn; try (now rewrite Hnone).
  - destruct (save_callbacks p) as [|[] rest]; cbn; now rewrite ?Hnone.
  - now destruct (close_callbacks p).
Qed.

Lemma cleared_run (events : list Event) (p : Process) :
  active p = [] -> active (run p events) = [].
Proof.
  revert p. induction events as [|e events IH]; intros p Hnone; cbn.
  - exact Hnone.
  - apply IH. now apply cleared_step.
Qed.

Lemma timers_bounded_step (p : Process) (e : Event) :
  intervals p = intervals running
  /\ (active p = intervals p \/ active p = [])
  /\ (forall code, exited p = Some code -> active p = []) ->
  intervals (step p e) = intervals running
  /\ (active (step p e) = intervals (step p e) \/ active (step p e) = [])
  /\ (forall code, exited (step p e) = Some code -> active (step p e) = []).
Proof.
  intros (Hints & Hactive & Hexited). unfold step.
  destruct (exited p) eqn:Hex; [rewrite Hex; tauto|].
  destruct e; cbn; rewrite ?Hex.
  - rewrite Hints. refine (conj eq_refl (conj _ _)); [|discriminate]. right.
    destruct Hactive as [-> | ->]; [rewrite Hints|]; reflexivity.
  - refine (conj Hints (conj Hactive _)). discriminate.
  - refine (conj Hints (conj Hactive _)). discriminate.
  - destruct (save_callbacks p) as [|[] rest]; cbn; rewrite ?Hex.
    + tauto.
    + refine (conj Hints (conj Hactive _)). discriminate.
    + refine (conj Hints (conj _ _)); [now right | reflexivity].
  - destruct (close_callbacks p); cbn; rewrite ?Hex.
    + tauto.
    + refine (conj Hints (conj _ _)); [now right | reflexivity].
Qed.

(** Once a termination signal has been handled no recurring timer is
    running, and none comes back: whatever happened before the signal and
    whatever happens after it, the set of running timers is empty. *)
Theorem timers_stay_cleared (before after : list Event) (s : SignalName) :
  active (run running (before ++ Signal s :: after)) = [].
Proof.
  unfold run. rewrite fold_left_app. cbn [fold_left].
  apply cleared_run.
  assert (Hbefore : intervals (fold_left step before running)
                    = intervals running
                    /\ (active (fold_left step before running)
                        = intervals (fold_left step before running)
                        \/ active (fold_left step before running) = [])
                    /\ (forall code,
                          exited (fold_left step before running) = Some code ->
                          active (fold_left step before running) = [])).
  { induction before as [|e before IH] using rev_ind.
    - cbn. refine (conj eq_refl (conj _ _)); [now left | discriminate].
    - rewrite fold_left_app. cbn [fold_left]. now apply timers_bounded_step. }
  destruct Hbefore as (Hints & Hactive & Hexited).
  set (p := fold_left step before running) in *.
  unfold step. destruct (exited p) as [code|] eqn:Hex.
  - exact (Hexited code eq_refl).
  - cbn. destruct Hactive as [-> | ->]; [rewrite Hints|]; reflexivity.
Qed.

End LifecycleMore.

(** * Properties of the set-up script *)

Module SetupFacts.
Import Setup.

(** ** [getLocalIp] *)

Lemma scan_addresses_find (addresses : list Net) :
  scan_addresses addresses = net_address <$> find external_ipv4 addresses.
Proof.
  induction addresses as [|net rest IH]; cbn; [reflexivity|].
  now destruct (external_ipv4 net).
Qed.

Lemma find_app_first {A} (f : A -> bool) (l1 l2 : list A) :
  find f (l1 ++ l2)
  = match find f l1 with Some x => Some x | None => find f l2 end.
Proof.
  induction l1 as [|x l1 IH]; cbn; [reflexivity|].
  now destruct (f x).
Qed.

Lemma scan_interfaces_find (nets : list (string * list Net)) :
  scan_interfaces nets
  = net_address <$> find external_ipv4 (concat (map snd nets)).
Proof.
  induction nets as [|[name addresses] rest IH]; cbn; [reflexivity|].
  rewrite find_app_first, scan_addresses_find, IH.
  now destruct (find external_ipv4 addresses).
Qed.

End SetupFacts.

(** The two nested loops of [getLocalIp] search the addresses of all
    interfaces, interface after interface: the result is the address of the
    first one that is IPv4 and not internal, and [127.0.0.1] exactly when
    there is none. *)
Theorem getLocalIp_first_external (nets : list (string * list Setup.Net)) :
  Setup.getLocalIp nets
  = match find Setup.external_ipv4 (concat (map snd nets)) with
    | Some net => Setup.net_address net
    | None => "127.0.0.1"
    end.
Proof.
  unfold Setup.getLocalIp. rewrite SetupFacts.scan_interfaces_find.
  now destruct (find Setup.external_ipv4 (concat (map snd nets))).
Qed.

(** ** [execCommandWithRetry] *)

Module RetryFacts.
Import Setup.

Section Retry.

Context (sh : Shell) (command : string) (retries : nat) (timeout : Z).

Ltac machine_simpl :=
  unfold commands, pauses; cbn [events executed];
  rewrite ?omap_app, ?List.filter_app, ?length_app;
  cbn [omap option_bind List.filter length app mbind list_omap];
  rewrite ?app_nil_r, ?Nat.add_0_r.

Lemma commands_snoc (n : nat) (l : list Event) (e : Event) :
  commands {| executed := n; events := l ++ [e] |}
  = commands {| executed := n; events := l |}
    ++ match e with Exec c _ => [c] | _ => [] end.
Proof.
  unfold commands. cbn [events]. rewrite omap_app. now destruct e.
Qed.

Lemma pauses_snoc (n : nat) (l : list Event) (e : Event) :
  pauses {| executed := n; events := l ++ [e] |}
  = (pauses {| executed := n; events := l |}
     + match e with Sleep _ => 1 | _ => 0 end)%nat.
Proof.
  unfold pauses. cbn [events]. rewrite List.filter_app, length_app.
  now destruct e.
Qed.

Lemma commands_executed (n n' : nat) (l : list Event) :
  commands {| executed := n; events := l |}
  = commands {| executed := n'; events := l |}.
Proof. reflexivity. Qed.

(** One run of the loop from iteration [i] with [fuel] iterations left:
    the command is run [n] times, [1 <= n <= fuel], with a pause between
    two runs; all runs but the last fail; the last one either succeeds, and
    its trimmed output is returned, or fails at the last iteration, and its
    error is thrown. *)
Lemma retry_loop_runs (fuel : nat) :
  forall (i : nat) (m : Machine),
    (i + fuel = retries)%nat ->
    (1 <= fuel)%nat ->
    exists (n : nat) (m' : Machine) (r : Completion (option string)),
      retry_loop sh command retries timeout i fuel m = (m', r)
      /\ (1 <= n <= fuel)%nat
      /\ executed m' = (executed m + n)%nat
      /\ commands m' = commands m ++ repeat command n
      /\ pauses m' = (pauses m + (n - 1))%nat
      /\ (forall j, (j < n - 1)%nat ->
                    exists e, outcome sh (executed m + j) command timeout
                              = Throws e)
      /\ ((exists out,
              outcome sh (executed m + (n - 1)) command timeout = Returns out
              /\ r = Returns (Some (trim sh out)))
          \/ (exists e,
                 outcome sh (executed m + (n - 1)) command timeout = Throws e
                 /\ r = Throws e /\ n = fuel)).
Proof.
  induction fuel as [|fuel' IH]; intros i m Hsum Hfuel; [lia|].
  cbn [retry_loop].
  assert (Hlt : (i <? retries)%nat = true) by (apply Nat.ltb_lt; lia).
  rewrite Hlt. unfold sh_try, sh_bind, emit, exec, sh_ret, sh_throw.
  cbn [executed events].
  destruct m as [done evs]. cbn [executed events] in *.
  destruct (outcome sh done command timeout) as [out|e] eqn:Hout.
  - (* the command succeeds *)
    exists 1%nat. eexists. eexists. split; [reflexivity|].
    cbn [executed repeat].
    replace (done + (1 - 1))%nat with done by lia.
    refine (conj _ (conj _ (conj _ (conj _ (conj _ _))))).
    + lia.
    + lia.
    + machine_simpl. reflexivity.
    + machine_simpl. lia.
    + intros j Hj. lia.
    + left. eauto.
  - destruct (Nat.eqb_spec i (retries - 1)) as [Hlast|Hmore].
    + (* the last attempt fails: the error is thrown *)
      exists 1%nat. eexists. eexists. split; [reflexivity|].
      cbn [executed repeat].
      replace (done + (1 - 1))%nat with done by lia.
      refine (conj _ (conj _ (conj _ (conj _ (conj _ _))))).
      * lia.
      * lia.
      * machine_simpl. reflexivity.
      * machine_simpl. lia.
      * intros j Hj. lia.
      * right. exists e. repeat split; [exact Hout | lia].
    + (* an earlier attempt fails: pause and go round again *)
      match goal with
      | |- context [ retry_loop sh command retries timeout (S i) fuel' ?m1 ] =>
          destruct (IH (S i) m1 ltac:(lia) ltac:(lia))
            as (n & m' & r & Hrun & Hn & Hexec & Hcmds & Hpauses & Hfail & Hlast)
      end.
      cbn [executed] in Hexec, Hfail, Hlast.
      revert Hcmds Hpauses. machine_simpl. intros Hcmds Hpauses.
      exists (S n), m', r. split; [exact Hrun|].
      refine (conj _ (conj _ (conj _ (conj _ (conj _ _))))).
      * lia.
      * lia.
      * rewrite Hcmds, <- app_assoc. reflexivity.
      * lia.
      * intros j Hj. destruct j as [|j].
        -- exists e. now rewrite Nat.add_0_r.
        -- destruct (Hfail j ltac:(lia)) as [e' He'].
           exists e'. now replace (done + S j)%nat with (S done + j)%nat by lia.
      * replace (done + (S n - 1))%nat with (S done + (n - 1))%nat by lia.
        destruct Hlast as [Hok | (e' & He' & Hr & Hnf)]; [left; exact Hok|].
        right. exists e'. repeat split; [exact He' | exact Hr | lia].
Qed.

End Retry.

End RetryFacts.

(** However the command behaves, [execCommandWithRetry] with no retry
    allowed runs nothing and returns [undefined]; with [retries >= 1] it
    runs the command between one and [retries] times, never anything else,
    pauses exactly once between two runs (so never after the last), and
    does not return [undefined]. *)
Theorem retry_attempts (sh : Setup.Shell) (command : string) (retries : nat)
    (timeout : Z) (m : Setup.Machine) :
  let result := Setup.execCommandWithRetry sh command retries timeout m in
  (retries = 0%nat -> result = (m, Returns None))
  /\ ((1 <= retries)%nat ->
      exists n : nat,
        (1 <= n <= retries)%nat
        /\ Setup.executed (fst result) = (Setup.executed m + n)%nat
        /\ Setup.commands (fst result)
           = Setup.commands m ++ repeat command n
        /\ Setup.pauses (fst result) = (Setup.pauses m + (n - 1))%nat
        /\ snd result <> Returns None).
Proof.
  intros result. subst result. unfold Setup.execCommandWithRetry. split.
  - intros ->. reflexivity.
  - intros Hretries.
    destruct (RetryFacts.retry_loop_runs sh command retries timeout retries
                0%nat m ltac:(lia) Hretries)
      as (n & m' & r & Hrun & Hn & Hexec & Hcmds & Hpauses & _ & Hlast).
    rewrite Hrun. cbn [fst snd]. exists n. repeat split; try assumption; try lia.
    destruct Hlast as [(out & _ & ->) | (e & _ & -> & _)]; discriminate.
Qed.

Lemma retry_attempts_witness :
  let result := Setup.execCommandWithRetry (Cases.flaky 1) "mono --version" 5
                  120000 Setup.start in
  exists n : nat,
    (1 <= n <= 5)%nat
    /\ Setup.executed (fst result) = (Setup.executed Setup.start + n)%nat
    /\ Setup.commands (fst result)
       = Setup.commands Setup.start ++ repeat "mono --version" n
    /\ Setup.pauses (fst result) = (Setup.pauses Setup.start + (n - 1))%nat
    /\ snd result <> Returns None.
Proof.
  apply (proj2 (retry_attempts (Cases.flaky 1) "mono --version" 5 120000
                  Setup.start)).
  lia.
Defined.

Lemma retry_exhausted_run (sh : Setup.Shell) (command : string) (retries : nat)
    (timeout : Z) (m : Setup.Machine) :
  (1 <= retries)%nat ->
  (forall j, (j < retries)%nat ->
             exists e, Setup.outcome sh (Setup.executed m + j) command timeout
                       = Throws e) ->
  exists m' e,
    Setup.execCommandWithRetry sh command retries timeout m = (m', Throws e)
    /\ Setup.outcome sh (Setup.executed m + (retries - 1)) command timeout
       = Throws e
    /\ Setup.executed m' = (Setup.executed m + retries)%nat
    /\ Setup.commands m' = Setup.commands m ++ repeat command retries
    /\ Setup.pauses m' = (Setup.pauses m + (retries - 1))%nat.
Proof.
  intros Hretries Hfail. unfold Setup.execCommandWithRetry.
  destruct (RetryFacts.retry_loop_runs sh command retries timeout retries
              0%nat m ltac:(lia) Hretries)
    as (n & m' & r & Hrun & Hn & Hexec & Hcmds & Hpauses & _ & Hlast).
  destruct Hlast as [(out & Hout & _) | (e & He & -> & ->)].
  - destruct (Hfail (n - 1)%nat ltac:(lia)) as [e He]. congruence.
  - exists m', e. repeat split; assumption.
Qed.

(** When every one of the [retries] attempts fails, the command has been
    run exactly [retries] times with [retries - 1] pauses, and the error
    thrown is the error of the last attempt. *)
Theorem retry_exhausted (sh : Setup.Shell) (command : string) (retries : nat)
    (timeout : Z) (m : Setup.Machine) :
  (1 <= retries)%nat ->
  (forall j, (j < retries)%nat ->
             exists e, Setup.outcome sh (Setup.executed m + j) command timeout
                       = Throws e) ->
  exists m' e,
    Setup.execCommandWithRetry sh command retries timeout m = (m', Throws e)
    /\ Setup.outcome sh (Setup.executed m + (retries - 1)) command timeout
       = Throws e
    /\ Setup.executed m' = (Setup.executed m + retries)%nat
    /\ Setup.commands m' = Setup.commands m ++ repeat command retries
    /\ Setup.pauses m' = (Setup.pauses m + (retries - 1))%nat.
Proof. exact (retry_exhausted_run sh command retries timeout m). Qed.

Lemma retry_exhausted_witness :
  exists m' e,
    Setup.execCommandWithRetry (Cases.flaky 3) "wget" 3 300000 Setup.start
    = (m', Throws e)
    /\ Setup.outcome (Cases.flaky 3) (Setup.executed Setup.start + (3 - 1))
         "wget" 300000 = Throws e
    /\ Setup.executed m' = (Setup.executed Setup.start + 3)%nat
    /\ Setup.commands m' = Setup.commands Setup.start ++ repeat "wget" 3
    /\ Setup.pauses m' = (Setup.pauses Setup.start + (3 - 1))%nat.
Proof.
  apply (retry_exhausted (Cases.flaky 3) "wget" 3 300000 Setup.start).
  - lia.
  - intros j Hj. exists (mkThrown "Error" (Some "Command failed")).
    destruct j as [|[|[|j]]]; [reflexivity | reflexivity | reflexivity | lia].
Defined.

Lemma retry_first_success_run (sh : Setup.Shell) (command : string)
    (retries : nat) (timeout : Z) (m : Setup.Machine) (k : nat)
    (out : string) :
  (k < retries)%nat ->
  (forall j, (j < k)%nat ->
             exists e, Setup.outcome sh (Setup.executed m + j) command timeout
                       = Throws e) ->
  Setup.outcome sh (Setup.executed m + k) command timeout = Returns out ->
  exists m',
    Setup.execCommandWithRetry sh command retries timeout m
    = (m', Returns (Some (Setup.trim sh out)))
    /\ Setup.executed m' = (Setup.executed m + (k + 1))%nat
    /\ Setup.commands m' = Setup.commands m ++ repeat command (k + 1)
    /\ Setup.pauses m' = (Setup.pauses m + k)%nat.
Proof.
  intros Hk Hfail Hok. unfold Setup.execCommandWithRetry.
  destruct (RetryFacts.retry_loop_runs sh command retries timeout retries
              0%nat m ltac:(lia) ltac:(lia))
    as (n & m' & r & Hrun & Hn & Hexec & Hcmds & Hpauses & Hbefore & Hlast).
  assert (Hnk : (n - 1 = k)%nat).
  { destruct (Nat.lt_trichotomy (n - 1) k) as [Hlt | [Heq | Hgt]].
    - destruct (Hfail (n - 1)%nat Hlt) as [e He].
      destruct Hlast as [(out' & Hout' & _) | (e' & _ & _ & ->)];
        [congruence | lia].
    - exact Heq.
    - destruct (Hbefore k Hgt) as [e He]. congruence. }
  rewrite Hnk in Hlast.
  destruct Hlast as [(out' & Hout' & ->) | (e & He & _)]; [|congruence].
  assert (out' = out) as -> by congruence.
  exists m'. replace (k + 1)%nat with n by lia.
  rewrite <- Hnk. repeat split; assumption.
Qed.

(** When the first [k] attempts fail and the next one succeeds, with
    [k < retries], the trimmed output of that attempt is returned, after
    [k + 1] runs of the command and [k] pauses: no attempt is made after a
    success. *)
Theorem retry_first_success (sh : Setup.Shell) (command : string)
    (retries : nat) (timeout : Z) (m : Setup.Machine) (k : nat)
    (out : string) :
  (k < retries)%nat ->
  (forall j, (j < k)%nat ->
             exists e, Setup.outcome sh (Setup.executed m + j) command timeout
                       = Throws e) ->
  Setup.outcome sh (Setup.executed m + k) command timeout = Returns out ->
  exists m',
    Setup.execCommandWithRetry sh command retries timeout m
    = (m', Returns (Some (Setup.trim sh out)))
    /\ Setup.executed m' = (Setup.executed m + (k + 1))%nat
    /\ Setup.commands m' = Setup.commands m ++ repeat command (k + 1)
    /\ Setup.pauses m' = (Setup.pauses m + k)%nat.
Proof. exact (retry_first_success_run sh command retries timeout m k out). Qed.

Lemma retry_first_success_witness :
  exists m',
    Setup.execCommandWithRetry (Cases.flaky 2) "npm cache clean --force" 5
      120000 Setup.start
    = (m', Returns (Some (Setup.trim (Cases.flaky 2) " ok ")))
    /\ Setup.executed m' = (Setup.executed Setup.start + (2 + 1))%nat
    /\ Setup.commands m'
       = Setup.commands Setup.start ++ repeat "npm cache clean --force" (2 + 1)
    /\ Setup.pauses m' = (Setup.pauses Setup.start + 2)%nat.
Proof.
  apply (retry_first_success (Cases.flaky 2) "npm cache clean --force" 5
           120000 Setup.start 2 " ok ").
  - lia.
  - intros j Hj. exists (mkThrown "Error" (Some "Command failed")).
    destruct j as [|[|j]]; [reflexivity | reflexivity | lia].
  - reflexivity.
Defined.

(** ** [installDependencies] *)

Module InstallFacts.
Import Setup.

Ltac machine_simpl :=
  unfold commands, pauses; cbn [events executed];
  rewrite ?omap_app, ?List.filter_app, ?length_app;
  cbn [omap option_bind List.filter length app mbind list_omap];
  rewrite ?app_nil_r, ?Nat.add_0_r.

(** A command that succeeds at once is run once, without a pause. *)
Lemma retry_at_once (sh : Shell) (command : string) (retries : nat)
    (timeout : Z) (m : Machine) (out : string) :
  (1 <= retries)%nat ->
  outcome sh (executed m) command timeout = Returns out ->
  exists m',
    execCommandWithRetry sh command retries timeout m
    = (m', Returns (Some (trim sh out)))
    /\ executed m' = S (executed m)
    /\ commands m' = commands m ++ [command]
    /\ pauses m' = pauses m.
Proof.
  intros Hretries Hout.
  destruct (retry_first_success_run sh command retries timeout m 0 out)
    as (m' & Hrun & Hexec & Hcmds & Hpauses).
  - lia.
  - intros j Hj. lia.
  - now rewrite Nat.add_0_r.
  - exists m'. cbn in Hcmds. repeat split; [exact Hrun | lia | exact Hcmds | lia].
Qed.

Lemma install_dependency_at_once (sh : Shell) (dep : string) (m : Machine)
    (out : string) :
  outcome sh (executed m) (install_command dep) 180000 = Returns out ->
  exists m',
    install_dependency sh dep m = (m', Returns tt)
    /\ executed m' = S (executed m)
    /\ commands m' = commands m ++ [install_command dep]
    /\ pauses m' = pauses m.
Proof.
  intros Hout.
  destruct (retry_at_once sh (install_command dep) 3 180000 m out
              ltac:(lia) Hout) as (m' & Hrun & Hrest).
  exists m'. unfold install_dependency, sh_try, sh_bind. rewrite Hrun.
  split; [reflexivity | exact Hrest].
Qed.

Lemma for_each_at_once (sh : Shell) (deps : list string) :
  (forall n c t, exists out, outcome sh n c t = Returns out) ->
  forall m,
    exists m',
      for_each (install_dependency sh) deps m = (m', Returns tt)
      /\ commands m' = commands m ++ map install_command deps
      /\ pauses m' = pauses m.
Proof.
  intros Hok. induction deps as [|dep deps IH]; intros m.
  - exists m. cbn. now rewrite app_nil_r.
  - destruct (Hok (executed m) (install_command dep) 180000) as [out Hout].
    destruct (install_dependency_at_once sh dep m out Hout)
      as (m1 & Hrun1 & _ & Hcmds1 & Hpauses1).
    destruct (IH m1) as (m2 & Hrun2 & Hcmds2 & Hpauses2).
    exists m2. cbn [for_each]. unfold sh_bind. rewrite Hrun1, Hrun2.
    repeat split.
    + rewrite Hcmds2, Hcmds1, <- app_assoc. reflexivity.
    + lia.
Qed.

End InstallFacts.

(** A dependency whose plain install succeeds within its three attempts is
    never installed with [--legacy-peer-deps]: only the plain command is
    run, as often as it took. *)
Theorem no_needless_fallback (sh : Setup.Shell) (dep : string)
    (m : Setup.Machine) (k : nat) (out : string) :
  (k < 3)%nat ->
  (forall j, (j < k)%nat ->
             exists e, Setup.outcome sh (Setup.executed m + j)
                         (Setup.install_command dep) 180000 = Throws e) ->
  Setup.outcome sh (Setup.executed m + k) (Setup.install_command dep) 180000
  = Returns out ->
  exists m',
    Setup.install_dependency sh dep m = (m', Returns tt)
    /\ Setup.commands m'
       = Setup.commands m ++ repeat (Setup.install_command dep) (k + 1).
Proof.
  intros Hk Hfail Hok.
  destruct (retry_first_success_run sh (Setup.install_command dep) 3 180000
              m k out Hk Hfail Hok) as (m' & Hrun & _ & Hcmds & _).
  exists m'. unfold Setup.install_dependency, Setup.sh_try, Setup.sh_bind.
  rewrite Hrun. split; [reflexivity | exact Hcmds].
Qed.

Lemma no_needless_fallback_witness :
  exists m',
    Setup.install_dependency (Cases.flaky 2) "axios" Setup.start
    = (m', Returns tt)
    /\ Setup.commands m'
       = Setup.commands Setup.start
         ++ repeat (Setup.install_command "axios") (2 + 1).
Proof.
  apply (no_needless_fallback (Cases.flaky 2) "axios" Setup.start 2 " ok ").
  - lia.
  - intros j Hj. exists (mkThrown "Error" (Some "Command failed")).
    destruct j as [|[|j]]; [reflexivity | reflexivity | lia].
  - reflexivity.
Defined.

(** A dependency whose plain install fails three times is tried again with
    [--legacy-peer-deps]; when that succeeds within three
    attempts the dependency counts as installed: the error of the plain
    install is not passed on. *)
Theorem fallback_after_three_failures (sh : Setup.Shell) (dep : string)
    (m : Setup.Machine) (k : nat) (out : string) :
  (forall j, (j < 3)%nat ->
             exists e, Setup.outcome sh (Setup.executed m + j)
                         (Setup.install_command dep) 180000 = Throws e) ->
  (k < 3)%nat ->
  (forall j, (j < k)%nat ->
             exists e, Setup.outcome sh (Setup.executed m + 3 + j)
                         (Setup.install_command_legacy dep) 180000
                       = Throws e) ->
  Setup.outcome sh (Setup.executed m + 3 + k)
    (Setup.install_command_legacy dep) 180000 = Returns out ->
  exists m',
    Setup.install_dependency sh dep m = (m', Returns tt)
    /\ Setup.commands m'
       = Setup.commands m ++ repeat (Setup.install_command dep) 3
         ++ repeat (Setup.install_command_legacy dep) (k + 1)
    /\ Setup.pauses m' = (Setup.pauses m + 2 + k)%nat.
Proof.
  intros Hplain Hk Hfail Hok.
  destruct (retry_exhausted_run sh (Setup.install_command dep) 3 180000 m
              ltac:(lia) Hplain)
    as (m1 & e & Hrun1 & _ & Hexec1 & Hcmds1 & Hpauses1).
  unfold Setup.install_dependency, Setup.sh_try, Setup.sh_bind.
  rewrite Hrun1. unfold Setup.emit.
  match goal with
  | |- context [ Setup.execCommandWithRetry sh _ 3 180000 ?m2 ] =>
      destruct (retry_first_success_run sh (Setup.install_command_legacy dep)
                  3 180000 m2 k out Hk)
        as (m' & Hrun2 & _ & Hcmds2 & Hpauses2)
  end.
  - cbn [Setup.executed]. rewrite Hexec1. exact Hfail.
  - cbn [Setup.executed]. rewrite Hexec1. exact Hok.
  - rewrite Hrun2. exists m'. split; [reflexivity|].
    rewrite RetryFacts.commands_snoc in Hcmds2.
    rewrite RetryFacts.pauses_snoc in Hpauses2.
    cbn [app] in Hcmds2. rewrite app_nil_r in Hcmds2.
    change (Setup.commands {| Setup.executed := Setup.executed m1;
                              Setup.events := Setup.events m1 |})
      with (Setup.commands m1) in Hcmds2.
    change (Setup.pauses {| Setup.executed := Setup.executed m1;
                            Setup.events := Setup.events m1 |})
      with (Setup.pauses m1) in Hpauses2.
    split.
    + rewrite Hcmds2, Hcmds1, <- app_assoc. reflexivity.
    + rewrite Hpauses2, Hpauses1. lia.
Qed.

Lemma fallback_after_three_failures_witness :
  exists m',
    Setup.install_dependency (Cases.flaky 4) "dotenv" Setup.start
    = (m', Returns tt)
    /\ Setup.commands m'
       = Setup.commands Setup.start
         ++ repeat (Setup.install_command "dotenv") 3
         ++ repeat (Setup.install_command_legacy "dotenv") (1 + 1)
    /\ Setup.pauses m' = (Setup.pauses Setup.start + 2 + 1)%nat.
Proof.
  apply (fallback_after_three_failures (Cases.flaky 4) "dotenv" Setup.start
           1 " ok ").
  - intros j Hj. exists (mkThrown "Error" (Some "Command failed")).
    destruct j as [|[|[|j]]]; [reflexivity | reflexivity | reflexivity | lia].
  - lia.
  - intros j Hj. exists (mkThrown "Error" (Some "Command failed")).
    destruct j as [|j]; [reflexivity | lia].
  - reflexivity.
Defined.

(** When no command fails, [installDependencies] runs the three
    preparation commands and then one plain install per dependency, in the
    order of the list, each once and without a pause, and completes. *)
Theorem installDependencies_all_succeed (sh : Setup.Shell) (m : Setup.Machine) :
  (forall n c t, exists out, Setup.outcome sh n c t = Returns out) ->
  exists m',
    Setup.installDependencies sh m = (m', Returns tt)
    /\ Setup.commands m'
       = Setup.commands m
         ++ ["pkg update -y && pkg upgrade -y";
             "pkg install -y nodejs wget mono";
             "npm cache clean --force"]
         ++ map Setup.install_command Setup.dependencies
    /\ Setup.pauses m' = Setup.pauses m.
Proof.
  intros Hok. unfold Setup.installDependencies, Setup.sh_try, Setup.sh_bind.
  unfold Setup.emit at 1.
  match goal with
  | |- context [ Setup.execCommandWithRetry sh ?c 5 120000 ?m0 ] =>
      destruct (Hok (Setup.executed m0) c 120000) as [out1 Hout1];
      destruct (InstallFacts.retry_at_once sh c 5 120000 m0 out1
                  ltac:(lia) Hout1) as (m1 & Hrun1 & _ & Hcmds1 & Hpauses1)
  end.
  rewrite Hrun1.
  match goal with
  | |- context [ Setup.execCommandWithRetry sh ?c 5 120000 m1 ] =>
      destruct (Hok (Setup.executed m1) c 120000) as [out2 Hout2];
      destruct (InstallFacts.retry_at_once sh c 5 120000 m1 out2
                  ltac:(lia) Hout2) as (m2 & Hrun2 & _ & Hcmds2 & Hpauses2)
  end.
  rewrite Hrun2.
  match goal with
  | |- context [ Setup.execCommandWithRetry sh ?c 5 120000 m2 ] =>
      destruct (Hok (Setup.executed m2) c 120000) as [out3 Hout3];
      destruct (InstallFacts.retry_at_once sh c 5 120000 m2 out3
                  ltac:(lia) Hout3) as (m3 & Hrun3 & _ & Hcmds3 & Hpauses3)
  end.
  rewrite Hrun3.
  destruct (InstallFacts.for_each_at_once sh Setup.dependencies Hok m3)
    as (m4 & Hrun4 & Hcmds4 & Hpauses4).
  rewrite Hrun4. unfold Setup.emit. eexists. split; [reflexivity|].
  rewrite RetryFacts.commands_snoc, RetryFacts.pauses_snoc.
  rewrite RetryFacts.commands_snoc in Hcmds1.
  rewrite RetryFacts.pauses_snoc in Hpauses1.
  cbn [app] in *. rewrite !app_nil_r in *.
  change (Setup.commands {| Setup.executed := Setup.executed m4;
                            Setup.events := Setup.events m4 |})
    with (Setup.commands m4).
  change (Setup.pauses {| Setup.executed := Setup.executed m4;
                          Setup.events := Setup.events m4 |})
    with (Setup.pauses m4).
  change (Setup.commands {| Setup.executed := Setup.executed m;
                            Setup.events := Setup.events m |})
    with (Setup.commands m) in Hcmds1.
  change (Setup.pauses {| Setup.executed := Setup.executed m;
                          Setup.events := Setup.events m |})
    with (Setup.pauses m) in Hpauses1.
  split.
  - rewrite Hcmds4, Hcmds3, Hcmds2, Hcmds1, <- !app_assoc. reflexivity.
  - lia.
Qed.

Lemma installDependencies_all_succeed_witness :
  exists m',
    Setup.installDependencies (Cases.flaky 0) Setup.start = (m', Returns tt)
    /\ Setup.commands m'
       = Setup.commands Setup.start
         ++ ["pkg update -y && pkg upgrade -y";
             "pkg install -y nodejs wget mono";
             "npm cache clean --force"]
         ++ map Setup.install_command Setup.dependencies
    /\ Setup.pauses m' = Setup.pauses Setup.start.
Proof.
  apply (installDependencies_all_succeed (Cases.flaky 0) Setup.start).
  intros n c t. exists " ok ". reflexivity.
Defined.

(** When the first preparation command fails five times in a row,
    [installDependencies] runs nothing else: no package is installed, the
    error of the fifth attempt is logged and thrown again. *)
Theorem installDependencies_stops_at_first_failure (sh : Setup.Shell)
    (m : Setup.Machine) :
  (forall j, (j < 5)%nat ->
             exists e, Setup.outcome sh (Setup.executed m + j)
                         "pkg update -y && pkg upgrade -y" 120000
                       = Throws e) ->
  exists m' e,
    Setup.installDependencies sh m = (m', Throws e)
    /\ Setup.outcome sh (Setup.executed m + 4)
         "pkg update -y && pkg upgrade -y" 120000 = Throws e
    /\ Setup.commands m'
       = Setup.commands m ++ repeat "pkg update -y && pkg upgrade -y" 5
    /\ last (Setup.events m')
       = Some (Setup.LogError "Error installing dependencies:" e).
Proof.
  intros Hfail. unfold Setup.installDependencies, Setup.sh_try, Setup.sh_bind.
  unfold Setup.emit at 1.
  match goal with
  | |- context [ Setup.execCommandWithRetry sh ?c 5 120000 ?m0 ] =>
      destruct (retry_exhausted_run sh c 5 120000 m0 ltac:(lia) Hfail)
        as (m1 & e & Hrun1 & Hlast & _ & Hcmds1 & _)
  end.
  rewrite Hrun1. unfold Setup.emit, Setup.sh_throw.
  exists {| Setup.executed := Setup.executed m1;
            Setup.events :=
              Setup.events m1
              ++ [Setup.LogError "Error installing dependencies:" e] |}, e.
  split; [reflexivity|].
  rewrite RetryFacts.commands_snoc. rewrite RetryFacts.commands_snoc in Hcmds1.
  cbn [app Setup.executed] in *. rewrite !app_nil_r in *.
  change (Setup.commands {| Setup.executed := Setup.executed m1;
                            Setup.events := Setup.events m1 |})
    with (Setup.commands m1).
  change (Setup.commands {| Setup.executed := Setup.executed m;
                            Setup.events := Setup.events m |})
    with (Setup.commands m) in Hcmds1.
  repeat split.
  - exact Hlast.
  - exact Hcmds1.
  - apply last_snoc.
Qed.

Lemma installDependencies_stops_at_first_failure_witness :
  exists m' e,
    Setup.installDependencies (Cases.flaky 5) Setup.start = (m', Throws e)
    /\ Setup.outcome (Cases.flaky 5) (Setup.executed Setup.start + 4)
         "pkg update -y && pkg upgrade -y" 120000 = Throws e
    /\ Setup.commands m'
       = Setup.commands Setup.start
         ++ repeat "pkg update -y && pkg upgrade -y" 5
    /\ last (Setup.events m')
       = Some (Setup.LogError "Error installing dependencies:" e).
Proof.
  apply (installDependencies_stops_at_first_failure (Cases.flaky 5) Setup.start).
  intros j Hj. exists (mkThrown "Error" (Some "Command failed")).
  destruct j as [|[|[|[|[|j]]]]]; try reflexivity. lia.
Defined.


(** ** [getLatestJackettUrl] *)

Module ReleaseFacts.
Import Setup.

Lemma find_asset_first (before : list Json) (fields : list (string * Json))
    (after : list Json) :
  Forall passed_over before ->
  named_asset fields = true ->
  find_asset (before ++ JObj fields :: after) = Returns (Some fields).
Proof.
  intros Hbefore Hnamed. induction Hbefore as [|asset before Hasset _ IH]; cbn.
  - now rewrite Hnamed.
  - destruct asset; cbn in Hasset; try exact IH; [contradiction|].
    now rewrite Hasset.
Qed.

Lemma find_asset_none (assets : list Json) :
  Forall passed_over assets -> find_asset assets = Returns None.
Proof.
  intros Hall. induction Hall as [|asset assets Hasset _ IH]; cbn.
  - reflexivity.
  - destruct asset; cbn in Hasset; try exact IH; [contradiction|].
    now rewrite Hasset.
Qed.

End ReleaseFacts.

(** When the answer of the releases API parses to an object whose [assets]
    list has an asset named [Jackett.Binaries.Mono.tar.gz], the promise
    resolves with the [browser_download_url] of the first such asset; the
    assets after it are not looked at. *)
Theorem latest_url_is_first_match (parse : string -> Completion Json)
    (data : string) (fields asset : list (string * Json))
    (before after : list Json) :
  parse data = Returns (JObj fields) ->
  lookup_field "assets" fields = Some (JArr (before ++ JObj asset :: after)) ->
  Forall Setup.passed_over before ->
  Setup.named_asset asset = true ->
  Setup.getLatestJackettUrl parse (Setup.Body data)
  = Returns (lookup_field "browser_download_url" asset).
Proof.
  intros Hparse Hassets Hbefore Hnamed.
  unfold Setup.getLatestJackettUrl, Setup.assets_of.
  rewrite Hparse, Hassets.
  now rewrite (ReleaseFacts.find_asset_first before asset after Hbefore Hnamed).
Qed.

Lemma latest_url_is_first_match_witness :
  Setup.getLatestJackettUrl (fun _ => Returns Cases.release)
    (Setup.Body "{...}")
  = Returns
      (lookup_field "browser_download_url"
         [("name", JStr "Jackett.Binaries.Mono.tar.gz");
          ("browser_download_url", JStr "https://example.org/mono")]).
Proof.
  apply (latest_url_is_first_match (fun _ => Returns Cases.release) "{...}"
           [("tag_name", JStr "v0.22.1");
            ("assets",
             JArr [JObj [("name", JStr "Jackett.Binaries.LinuxAMDx64.tar.gz");
                         ("browser_download_url",
                          JStr "https://example.org/amd64")];
                   JObj [("name", JStr "Jackett.Binaries.Mono.tar.gz");
                         ("browser_download_url",
                          JStr "https://example.org/mono")]])]
           [("name", JStr "Jackett.Binaries.Mono.tar.gz");
            ("browser_download_url", JStr "https://example.org/mono")]
           [JObj [("name", JStr "Jackett.Binaries.LinuxAMDx64.tar.gz");
                  ("browser_download_url", JStr "https://example.org/amd64")]]
           []).
  - reflexivity.
  - reflexivity.
  - repeat constructor.
  - reflexivity.
Defined.

(** The promise never resolves with anything but the download URL of an
    asset of that name: when the answer has an [assets] list without such
    an asset it is rejected with [Unable to find Jackett Mono download
    URL.], and when the answer is an object without an [assets] property
    (as the API's error answers are) it is rejected with a message that
    starts with [Error parsing GitHub API response: ]. *)
Theorem latest_url_missing (parse : string -> Completion Json)
    (data : string) (fields : list (string * Json)) :
  parse data = Returns (JObj fields) ->
  (forall assets,
      lookup_field "assets" fields = Some (JArr assets) ->
      Forall Setup.passed_over assets ->
      Setup.getLatestJackettUrl parse (Setup.Body data)
      = Throws (Setup.Error "Unable to find Jackett Mono download URL."))
  /\ (lookup_field "assets" fields = None ->
      Setup.getLatestJackettUrl parse (Setup.Body data)
      = Throws (Setup.Error
                  ("Error parsing GitHub API response: "
                   +:+ "Cannot read properties of undefined (reading 'find')"))).
Proof.
  intros Hparse. split.
  - intros assets Hassets Hnone.
    unfold Setup.getLatestJackettUrl, Setup.assets_of.
    rewrite Hparse, Hassets.
    now rewrite (ReleaseFacts.find_asset_none assets Hnone).
  - intros Hassets.
    unfold Setup.getLatestJackettUrl, Setup.assets_of.
    now rewrite Hparse, Hassets.
Qed.

Lemma latest_url_missing_witness :
  Setup.getLatestJackettUrl
    (fun _ => Returns (JObj [("message", JStr "API rate limit exceeded")]))
    (Setup.Body "{...}")
  = Throws (Setup.Error
              ("Error parsing GitHub API response: "
               +:+ "Cannot read properties of undefined (reading 'find')")).
Proof.
  apply (proj2 (latest_url_missing
                  (fun _ => Returns (JObj [("message",
                                            JStr "API rate limit exceeded")]))
                  "{...}" [("message", JStr "API rate limit exceeded")]
                  eq_refl)).
  reflexivity.
Defined.

(** ** Witnesses for the facts about the middleware chain *)

Lemma serve_single_pass_witness :
  st_store (fst (serve (Sample.lib 150) 0 0 0 (Sample.download_request "t1")
                   Sample.state0))
  = fst (fst (RateLimit.pass (limiter_options (Sample.lib 150)) 0
                (req_ip (Sample.download_request "t1"))
                (st_store Sample.state0))).
Proof.
  apply (serve_single_pass (Sample.lib 150) 0 0 0 (Sample.download_request "t1")
           Sample.state0).
  - intros userConfig type id. discriminate.
  - reflexivity.
Defined.

(** ** What the exit status tells *)

Module ExitFacts.
Import Lifecycle.

Lemma no_exception_step (p : Process) (e : Event) :
  e <> UncaughtException ->
  (ThenExit1 ∉ save_callbacks p) /\ exited p <> Some 1 ->
  (ThenExit1 ∉ save_callbacks (step p e)) /\ exited (step p e) <> Some 1.
Proof.
  intros He [Hcb Hex]. unfold step.
  destruct (exited p) as [code|] eqn:Hcode; [rewrite Hcode; tauto|].
  destruct e as [s| | | |]; [| contradiction | | |].
  - cbn. rewrite Hcode. split; [|discriminate]. intros Hin.
    apply elem_of_app in Hin as [Hin|Hin]; [now apply Hcb|].
    apply list_elem_of_singleton in Hin. discriminate.
  - cbn. rewrite Hcode. split; [exact Hcb | discriminate].
  - destruct (save_callbacks p) as [|cb rest] eqn:Hcbs.
    + rewrite Hcode, Hcbs. split; [exact Hcb | discriminate].
    + destruct cb; cbn.
      * split; [|discriminate]. intros Hin. apply Hcb. now right.
      * exfalso. apply Hcb. left.
  - destruct (close_callbacks p); cbn.
    + rewrite Hcode. split; [exact Hcb | discriminate].
    + split; [|discriminate]. intros Hin. apply elem_of_nil in Hin.
      contradiction.
Qed.

Lemma no_exception_run (events : list Event) (p : Process) :
  Forall (fun e => e <> UncaughtException) events ->
  (ThenExit1 ∉ save_callbacks p) /\ exited p <> Some 1 ->
  exited (run p events) <> Some 1.
Proof.
  intros Hall. revert p.
  induction Hall as [|e events He _ IH]; intros p Hinv; cbn.
  - tauto.
  - apply IH. now apply no_exception_step.
Qed.

Lemma exit_codes_step (p : Process) (e : Event) :
  (exited p = None \/ exited p = Some 0 \/ exited p = Some 1) ->
  exited (step p e) = None \/ exited (step p e) = Some 0
  \/ exited (step p e) = Some 1.
Proof.
  intros Hp. unfold step.
  destruct (exited p) as [code|] eqn:Hcode; [rewrite Hcode; exact Hp|].
  destruct e; cbn; rewrite ?Hcode; try tauto.
  - destruct (save_callbacks p) as [|[] rest]; cbn; rewrite ?Hcode; tauto.
  - destruct (close_callbacks p); cbn; rewrite ?Hcode; tauto.
Qed.

Lemma some_signal (events : list Event) :
  forallb (fun e => negb (is_signal e)) events = false ->
  exists s, In (Signal s) events.
Proof.
  induction events as [|e events IH]; cbn; [discriminate|].
  destruct e as [s| | | |]; cbn; intros Hnone;
    try (destruct (IH Hnone) as [s' Hs]; exists s'; now right).
  exists s. now left.
Qed.

End ExitFacts.

(** The exit status tells why the process ended.  It is only ever 0 or 1;
    it is 0 only if a termination signal was received, and 1 only if an
    exception went uncaught. *)
Theorem exit_status_tells_cause (events : list Lifecycle.Event) :
  let p := Lifecycle.run Lifecycle.running events in
  (Lifecycle.exited p = None \/ Lifecycle.exited p = Some 0
   \/ Lifecycle.exited p = Some 1)
  /\ (Lifecycle.exited p = Some 0 ->
      exists s, In (Lifecycle.Signal s) events)
  /\ (Lifecycle.exited p = Some 1 ->
      In Lifecycle.UncaughtException events).
Proof.
  intros p. subst p. refine (conj _ (conj _ _)).
  - unfold Lifecycle.run.
    induction events as [|e events IH] using rev_ind.
    + now left.
    + rewrite fold_left_app. cbn [fold_left].
      now apply ExitFacts.exit_codes_step.
  - intros Hzero.
    destruct (forallb (fun e => negb (Lifecycle.is_signal e)) events)
      eqn:Hnone.
    + destruct (LifecycleFacts.fault_invariant_run events Lifecycle.running
                  Hnone LifecycleFacts.fault_invariant_running)
        as (_ & _ & _ & [Hcode | Hcode] & _); congruence.
    + now apply ExitFacts.some_signal.
  - intros Hone.
    destruct (in_dec
                (fun a b : Lifecycle.Event =>
                   ltac:(decide equality; decide equality)
                   : {a = b} + {a <> b})
                Lifecycle.UncaughtException events) as [Hin | Hout];
      [exact Hin|].
    exfalso.
    apply (ExitFacts.no_exception_run events Lifecycle.running); [| |exact Hone].
    + apply List.Forall_forall. intros e Hin ->. contradiction.
    + split; [|discriminate]. intros Hin. apply elem_of_nil in Hin.
      contradiction.
Qed.
